(** * crypto-price-tracker-service: the price service, its catalog and routes

    A shallow embedding of [src/models/currency.py], [src/models/price.py],
    [src/services/price_service.py] and [src/api/routes.py].

    - Python exceptions are values of [exn]; a call returns a [result].
    - The [price_history] table is the list of its committed rows; a
      connection carries the rows of its open transaction.
    - [functools.lru_cache] is an association list, most recently used first.
    - The clock, the database faults and the external price source are
      inputs of each call.
    - A Python [float] (a PostgreSQL [float8]) is a value of an abstract type
      [float]; the aggregate [STDDEV] and the ordering of [float8] values are
      parameters. *)

From Stdlib Require Import List String Ascii ZArith Bool Arith Lia.
From Stdlib Require Import Permutation Sorted QArith.
Import ListNotations.

Local Close Scope Q_scope.

Local Open Scope string_scope.
Local Open Scope list_scope.

(** ** Python values: exceptions, results, insertion-ordered dicts *)

Inductive exn : Type :=
| ValueError (msg : string)
| KeyError (key : string)
| TypeError
| OverflowError
| RequestException            (* raised by [requests.get] itself *)
| HTTPError (status : Z)      (* raised by [raise_for_status] *)
| JSONDecodeError             (* raised by [response.json()] *)
| SQLAlchemyError
| ValidationError             (* pydantic *)
| HTTPException (status_code : Z) (detail : string).

Inductive result (A : Type) : Type :=
| Ok (a : A)
| Raise (e : exn).
Arguments Ok {A} a.
Arguments Raise {A} e.

Definition bind {A B : Type} (r : result A) (k : A -> result B) : result B :=
  match r with
  | Ok a => k a
  | Raise e => Raise e
  end.

Notation "'do' x <- r ; k" := (bind r (fun x => k))
  (at level 10, x name, r at level 100, k at level 200).

(** [[f(x) for x in xs]]: stops at the first exception. *)
Fixpoint map_result {A B : Type} (f : A -> result B) (xs : list A)
  : result (list B) :=
  match xs with
  | [] => Ok []
  | x :: rest =>
      do y <- f x;
      do ys <- map_result f rest;
      Ok (y :: ys)
  end.

(** A [dict] keeps its keys in insertion order and holds each key once. *)
Definition dict (V : Type) : Type := list (string * V).

Fixpoint dict_get {V : Type} (d : dict V) (k : string) : option V :=
  match d with
  | [] => None
  | (k', v) :: rest => if String.eqb k k' then Some v else dict_get rest k
  end.

Definition dict_contains {V : Type} (d : dict V) (k : string) : bool :=
  match dict_get d k with Some _ => true | None => false end.

(** [d[k] = v]: overwrites in place, or appends a new key. *)
Fixpoint dict_set {V : Type} (d : dict V) (k : string) (v : V) : dict V :=
  match d with
  | [] => [(k, v)]
  | (k', v') :: rest =>
      if String.eqb k k' then (k', v) :: rest
      else (k', v') :: dict_set rest k v
  end.

Definition dict_keys {V : Type} (d : dict V) : list string := map fst d.

(** ** Python strings *)

(** [str.upper] on UTF-8 text.  An ASCII letter goes to its capital.
    Ten characters outside ASCII have an upper-case form that is ASCII
    text: U+00DF (SS), U+0131 (I), U+017F (S) and the ligatures U+FB00 to
    U+FB06 (FF, FI, FL, FFI, FFL, ST, ST); they are replaced by it.  The
    upper-case form of every other character outside ASCII has a
    character outside ASCII again; such a character is left as it is, so
    [upper] agrees with [str.upper] on every string whose upper-case form
    is ASCII text, and gives text that is not ASCII on every other
    string.  The source upper-cases a string only to look it up among
    ASCII names. *)
Definition ascii_upper (c : ascii) : ascii :=
  let n := nat_of_ascii c in
  if (97 <=? n)%nat && (n <=? 122)%nat then ascii_of_nat (n - 32) else c.

(** The first byte of one of the ten characters. *)
Definition upper_lead (c : ascii) : bool :=
  Ascii.eqb c "195" || Ascii.eqb c "196" || Ascii.eqb c "197"
  || Ascii.eqb c "239".

(** U+00DF, U+0131 and U+017F by their two bytes. *)
Definition upper_2 (c1 c2 : ascii) : option string :=
  if Ascii.eqb c1 "195" && Ascii.eqb c2 "159" then Some "SS"
  else if Ascii.eqb c1 "196" && Ascii.eqb c2 "177" then Some "I"
  else if Ascii.eqb c1 "197" && Ascii.eqb c2 "191" then Some "S"
  else None.

(** U+FB00 to U+FB06 by their three bytes. *)
Definition upper_3 (c1 c2 c3 : ascii) : option string :=
  if Ascii.eqb c1 "239" && Ascii.eqb c2 "172" then
    if Ascii.eqb c3 "128" then Some "FF"
    else if Ascii.eqb c3 "129" then Some "FI"
    else if Ascii.eqb c3 "130" then Some "FL"
    else if Ascii.eqb c3 "131" then Some "FFI"
    else if Ascii.eqb c3 "132" then Some "FFL"
    else if Ascii.eqb c3 "133" then Some "ST"
    else if Ascii.eqb c3 "134" then Some "ST"
    else None
  else None.

Fixpoint upper (s : string) : string :=
  match s with
  | EmptyString => EmptyString
  | String c1 s1 =>
      match s1 with
      | EmptyString => String (ascii_upper c1) EmptyString
      | String c2 s2 =>
          match upper_2 c1 c2 with
          | Some u => (u ++ upper s2)%string
          | None =>
              match s2 with
              | EmptyString => String (ascii_upper c1) (upper s1)
              | String c3 s3 =>
                  match upper_3 c1 c2 c3 with
                  | Some u => (u ++ upper s3)%string
                  | None => String (ascii_upper c1) (upper s1)
                  end
              end
          end
      end
  end.

(** Text that [upper] passes through: what replaces one of the ten
    characters is such text, and starts with an ASCII character. *)
Definition settled (u : string) : Prop :=
  (forall t, upper (u ++ t) = (u ++ upper t)%string) /\
  exists a u', u = String a u' /\ (128 <=? nat_of_ascii a)%nat = false.

(** [s.split(sep)] for a one-character separator. *)
Fixpoint split_on (sep : ascii) (s : string) : list string :=
  match s with
  | EmptyString => [EmptyString]
  | String c rest =>
      if Ascii.eqb c sep then EmptyString :: split_on sep rest
      else match split_on sep rest with
           | [] => [String c EmptyString]
           | w :: ws => String c w :: ws
           end
  end.

(** [sep.join(parts)]. *)
Fixpoint join (sep : string) (parts : list string) : string :=
  match parts with
  | [] => EmptyString
  | [p] => p
  | p :: rest => p ++ sep ++ join sep rest
  end.

Definition in_list (x : string) (l : list string) : bool :=
  existsb (String.eqb x) l.

(** ** src/models/currency.py *)

Inductive BaseCurrency : Type :=
| Base_BTC | Base_ETH | Base_SOL | Base_ETC | Base_DOT | Base_ADA | Base_BNT.

Definition BaseCurrency_value (b : BaseCurrency) : string :=
  match b with
  | Base_BTC => "btc" | Base_ETH => "eth" | Base_SOL => "sol"
  | Base_ETC => "etc" | Base_DOT => "dot" | Base_ADA => "ada"
  | Base_BNT => "bnt"
  end.

Inductive QuoteCurrency : Type :=
| Quote_USD | Quote_EUR | Quote_BTC.

Definition QuoteCurrency_value (q : QuoteCurrency) : string :=
  match q with
  | Quote_USD => "usd" | Quote_EUR => "eur" | Quote_BTC => "btc"
  end.

Inductive CoinGeckoId : Type :=
| ADA | BNT | BTC | DOT | ETC | ETH | SOL.

Definition CoinGeckoId_name (m : CoinGeckoId) : string :=
  match m with
  | ADA => "ADA" | BNT => "BNT" | BTC => "BTC" | DOT => "DOT"
  | ETC => "ETC" | ETH => "ETH" | SOL => "SOL"
  end.

Definition CoinGeckoId_value (m : CoinGeckoId) : string :=
  match m with
  | ADA => "cardano" | BNT => "bancor" | BTC => "bitcoin"
  | DOT => "polkadot" | ETC => "ethereum-classic" | ETH => "ethereum"
  | SOL => "solana"
  end.

(** The members in definition order. *)
Definition CoinGeckoId_members : list CoinGeckoId :=
  [ADA; BNT; BTC; DOT; ETC; ETH; SOL].

(** [CoinGeckoId[name]]: lookup of a member by its name; [None] is the
    [KeyError]. *)
Definition CoinGeckoId_getitem (name : string) : option CoinGeckoId :=
  find (fun m => String.eqb name (CoinGeckoId_name m)) CoinGeckoId_members.

Record CurrencyPair : Type := mkCurrencyPair {
  base : BaseCurrency;
  quote : QuoteCurrency
}.

Definition CurrencyPair_str (p : CurrencyPair) : string :=
  BaseCurrency_value (base p) ++ "/" ++ QuoteCurrency_value (quote p).

Definition get_coingecko_id (currency : string) : result string :=
  match CoinGeckoId_getitem (upper currency) with
  | Some m => Ok (CoinGeckoId_value m)
  | None => Raise (ValueError ("Unsupported currency: " ++ currency))
  end.

Definition PAIRS : list string :=
  [ CurrencyPair_str (mkCurrencyPair Base_BTC Quote_USD);
    CurrencyPair_str (mkCurrencyPair Base_ETH Quote_USD);
    CurrencyPair_str (mkCurrencyPair Base_SOL Quote_USD);
    CurrencyPair_str (mkCurrencyPair Base_ETC Quote_EUR);
    CurrencyPair_str (mkCurrencyPair Base_DOT Quote_USD);
    CurrencyPair_str (mkCurrencyPair Base_ADA Quote_USD);
    CurrencyPair_str (mkCurrencyPair Base_ETH Quote_BTC);
    CurrencyPair_str (mkCurrencyPair Base_BNT Quote_BTC) ].

(** ** Time: [datetime] and [timedelta] in microseconds *)

Definition usec_per_hour : Z := (3600 * 1000000)%Z.
Definition usec_per_day : Z := (24 * usec_per_hour)%Z.

(** [datetime.min] and [datetime.max] as microseconds since the epoch. *)
Definition datetime_min : Z := (-62135596800 * 1000000)%Z.
Definition datetime_max : Z := (253402300800 * 1000000 - 1)%Z.

(** [timedelta(hours=h)]: [OverflowError] beyond 999999999 days. *)
Definition timedelta_hours (h : Z) : result Z :=
  let us := (h * usec_per_hour)%Z in
  let days := (us / usec_per_day)%Z in
  if ((-999999999 <=? days) && (days <=? 999999999))%Z then Ok us
  else Raise OverflowError.

(** [t - delta] on a [datetime]: [OverflowError] outside years 1..9999. *)
Definition datetime_sub (t delta : Z) : result Z :=
  let r := (t - delta)%Z in
  if ((datetime_min <=? r) && (r <=? datetime_max))%Z then Ok r
  else Raise OverflowError.


(** ** functools.lru_cache *)

Section LRU.
Context {K V : Type}.
Variable key_eqb : K -> K -> bool.

Fixpoint lru_find (k : K) (c : list (K * V)) : option V :=
  match c with
  | [] => None
  | (k', v) :: rest => if key_eqb k k' then Some v else lru_find k rest
  end.

Fixpoint lru_remove (k : K) (c : list (K * V)) : list (K * V) :=
  match c with
  | [] => []
  | (k', v) :: rest =>
      if key_eqb k k' then rest else (k', v) :: lru_remove k rest
  end.

(** A hit moves the entry to the most recently used position. *)
Definition lru_touch (k : K) (v : V) (c : list (K * V)) : list (K * V) :=
  (k, v) :: lru_remove k c.

(** After a miss the result is stored; a full cache drops its oldest
    entry. *)
Definition lru_store (maxsize : nat) (k : K) (v : V) (c : list (K * V))
  : list (K * V) :=
  match lru_find k c with
  | Some _ => c
  | None =>
      if (List.length c <? maxsize)%nat then (k, v) :: c
      else (k, v) :: removelast c
  end.
End LRU.

(** ** The service: src/services/price_service.py *)

Definition fault : Type := option nat.

(** [fails f k]: the [k]-th database operation of the call raises
    [SQLAlchemyError]. *)
Definition fails (f : fault) (k : nat) : bool :=
  match f with
  | Some n => Nat.eqb n k
  | None => false
  end.

Definition base_url : string :=
  "https://api.coingecko.com/api/v3/simple/price".

Record Request : Type := mkRequest {
  req_url : string;
  req_ids : string;
  req_vs_currencies : string;
  req_accept : string
}.

(** Arguments of a memoized [get_price_history] call: [hours] is [None]
    when the caller leaves the default. *)
Definition history_key : Type := (string * option Z)%type.

Definition history_key_eqb (a b : history_key) : bool :=
  String.eqb (fst a) (fst b) &&
  match snd a, snd b with
  | Some x, Some y => Z.eqb x y
  | None, None => true
  | _, _ => false
  end.

Section Service.

Context {float : Type}.

(** The aggregate [STDDEV] over a group's prices and the ordering of
    [float8] values that [ORDER BY] uses. *)
Variable STDDEV : list float -> float.
Variable float_le : float -> float -> bool.

(** *** src/models/price.py *)

Record Price : Type := mkPrice {
  Price_pair : string;
  Price_price : float;
  Price_timestamp : Z
}.

Record PriceHistory : Type := mkPriceHistory {
  PriceHistory_pair : string;
  PriceHistory_prices : list Price;
  PriceHistory_volatility_rank : option nat
}.

(** *** src/db/schema.py: a row of [price_history] *)

Record Row : Type := mkRow {
  row_pair : string;
  row_price : float;
  row_timestamp : Z
}.

(** *** The decoded body of a response *)

#[warnings="-register-all"]
Inductive json : Type :=
| JNull
| JBool (b : bool)
| JNumber (x : float)
| JString (s : string)
| JArray (items : list json)
| JObject (fields : list (string * json)).

(** [value[key]] with a string key: only a dict can be subscripted so. *)
Definition json_getitem (value : json) (key : string) : result json :=
  match value with
  | JObject fields =>
      match dict_get fields key with
      | Some v => Ok v
      | None => Raise (KeyError key)
      end
  | _ => Raise TypeError
  end.

(** [body] is the value that [response.json()] decodes, an object being
    the dict of its fields; [None] when the text is not JSON. *)
Record Response : Type := mkResponse {
  status_code : Z;
  body : option json
}.

(** [requests.get]: [None] when the call itself raises. *)
Definition Network : Type := Request -> option Response.

Definition raise_for_status (r : Response) : result unit :=
  if ((400 <=? status_code r) && (status_code r <? 600))%Z
  then Raise (HTTPError (status_code r))
  else Ok tt.

Definition response_json (r : Response) : result json :=
  match body r with
  | Some data => Ok data
  | None => Raise JSONDecodeError
  end.

(** *** What the service touches *)

Inductive db_event : Type :=
| Connect
| Insert (r : Row)
| Commit
| SelectHistory (pair : string) (since : Z)
| SelectRank (pair : string).

Record State : Type := mkState {
  table : list Row;                 (* committed rows of price_history *)
  db_log : list db_event;           (* operations sent to the engine *)
  sent : list Request;              (* requests sent to the price source *)
  last_update : option Z;           (* [self._last_update], once set *)
  history_cache : list (history_key * list Price);
  rank_cache : list (string * option nat);
  logged : list string              (* [self.logger.error] *)
}.

Definition set_table (t : list Row) (s : State) : State :=
  mkState t (db_log s) (sent s) (last_update s) (history_cache s)
          (rank_cache s) (logged s).

Definition log_db (e : db_event) (s : State) : State :=
  mkState (table s) (db_log s ++ [e]) (sent s) (last_update s)
          (history_cache s) (rank_cache s) (logged s).

Definition log_request (r : Request) (s : State) : State :=
  mkState (table s) (db_log s) (sent s ++ [r]) (last_update s)
          (history_cache s) (rank_cache s) (logged s).

Definition set_last_update (t : Z) (s : State) : State :=
  mkState (table s) (db_log s) (sent s) (Some t) (history_cache s)
          (rank_cache s) (logged s).

Definition set_history_cache (c : list (history_key * list Price))
  (s : State) : State :=
  mkState (table s) (db_log s) (sent s) (last_update s) c
          (rank_cache s) (logged s).

Definition set_rank_cache (c : list (string * option nat)) (s : State)
  : State :=
  mkState (table s) (db_log s) (sent s) (last_update s) (history_cache s)
          c (logged s).

Definition log_error (msg : string) (s : State) : State :=
  mkState (table s) (db_log s) (sent s) (last_update s) (history_cache s)
          (rank_cache s) (logged s ++ [msg]).

(** A freshly constructed service over an existing table. *)
Definition new_service (t : list Row) : State :=
  mkState t [] [] None [] [] [].

(** [d[k].append(v)], creating the list first when [k] is new. *)
Fixpoint dict_append {A : Type} (d : dict (list A)) (k : string) (v : A)
  : dict (list A) :=
  match d with
  | [] => [(k, [v])]
  | (k', vs) :: rest =>
      if String.eqb k k' then (k', vs ++ [v]) :: rest
      else (k', vs) :: dict_append rest k v
  end.

(** *** fetch_prices *)

(** [base, quote = pair.split("/")]. *)
Definition split_pair (pair : string) : result (string * string) :=
  match split_on "/" pair with
  | [b; q] => Ok (b, q)
  | _ => Raise (ValueError "wrong number of values to unpack")
  end.

Fixpoint build_quote_groups (pairs : list string)
  (quote_groups : dict (list string)) : result (dict (list string)) :=
  match pairs with
  | [] => Ok quote_groups
  | p :: rest =>
      do bq <- split_pair p;
      build_quote_groups rest (dict_append quote_groups (snd bq) (fst bq))
  end.

Definition group_request (quote : string) (ids : list string) : Request :=
  mkRequest base_url (join "," ids) quote "application/json".

(** The inner loop: [current_prices[pair] = data[id][quote]]. *)
Fixpoint read_group (data : json) (quote : string) (bases : list string)
  (current_prices : dict json) : result (dict json) :=
  match bases with
  | [] => Ok current_prices
  | b :: rest =>
      do id <- get_coingecko_id b;
      do entry <- json_getitem data id;
      do price <- json_getitem entry quote;
      read_group data quote rest
        (dict_set current_prices (b ++ "/" ++ quote) price)
  end.

(** One iteration of the loop over [quote_groups.items()]. *)
Definition fetch_group (net : Network) (quote : string)
  (bases : list string) (current_prices : dict json) (s : State)
  : result (dict json) * State :=
  match map_result get_coingecko_id bases with
  | Raise e => (Raise e, s)
  | Ok ids =>
      let req := group_request quote ids in
      let s' := log_request req s in
      match net req with
      | None => (Raise RequestException, s')
      | Some response =>
          (do _ <- raise_for_status response;
           do data <- response_json response;
           read_group data quote bases current_prices, s')
      end
  end.

Fixpoint fetch_groups (net : Network) (groups : dict (list string))
  (current_prices : dict json) (s : State) : result (dict json) * State :=
  match groups with
  | [] => (Ok current_prices, s)
  | (quote, bases) :: rest =>
      match fetch_group net quote bases current_prices s with
      | (Ok current_prices', s') => fetch_groups net rest current_prices' s'
      | (Raise e, s') => (Raise e, s')
      end
  end.

Definition fetch_prices (net : Network) (s : State)
  : result (dict json) * State :=
  match build_quote_groups PAIRS [] with
  | Raise e => (Raise e, s)
  | Ok quote_groups =>
      match fetch_groups net quote_groups [] s with
      | (Ok current_prices, s') => (Ok current_prices, s')
      | (Raise e, s') => (Raise e, log_error "Error fetching prices" s')
      end
  end.

(** *** store_prices *)

(** The loop of [INSERT]s on an open connection; [txn] holds the rows of
    the transaction, not yet visible in the table. *)
Fixpoint insert_rows (f : fault) (k : nat) (timestamp : Z)
  (items : dict float) (txn : list Row) (s : State)
  : result (list Row) * State :=
  match items with
  | [] => (Ok txn, s)
  | (p, price) :: rest =>
      let r := mkRow p price timestamp in
      let s' := log_db (Insert r) s in
      if fails f k then (Raise SQLAlchemyError, s')
      else insert_rows f (S k) timestamp rest (txn ++ [r]) s'
  end.

(** [conn.commit()]: the rows of the transaction reach the table.  The
    first statement that a connection executes begins its transaction;
    on a connection that has executed none there is no transaction, and
    [commit()] returns without sending anything. *)
Definition commit (f : fault) (k : nat) (txn : list Row) (s : State)
  : result unit * State :=
  match txn with
  | [] => (Ok tt, s)
  | _ :: _ =>
      let s' := log_db Commit s in
      if fails f k then (Raise SQLAlchemyError, s')
      else (Ok tt, set_table (table s' ++ txn) s')
  end.

(** Operation 0 is [engine.connect()], operations 1..n the inserts,
    operation n+1 the commit of a batch that is not empty.  Leaving the
    [with] block on an exception closes the connection and with it drops
    the rows of [txn]. *)
Definition store_prices (now : Z) (f : fault) (prices : dict float)
  (s : State) : result unit * State :=
  let timestamp := now in
  let s := set_last_update timestamp s in
  let s := log_db Connect s in
  if fails f 0 then (Raise SQLAlchemyError, log_error "Database error" s)
  else
    match insert_rows f 1 timestamp prices [] s with
    | (Raise e, s') => (Raise e, log_error "Database error" s')
    | (Ok txn, s') =>
        match commit f (S (List.length prices)) txn s' with
        | (Raise e, s'') => (Raise e, log_error "Database error" s'')
        | (Ok _, s'') => (Ok tt, s'')
        end
    end.

(** *** get_price_history *)

Definition Price_of_row (r : Row) : Price :=
  mkPrice (row_pair r) (row_price r) (row_timestamp r).

(** [ORDER BY timestamp DESC]. *)
Fixpoint insert_by_timestamp (r : Row) (sorted : list Row) : list Row :=
  match sorted with
  | [] => [r]
  | x :: rest =>
      if (row_timestamp x <? row_timestamp r)%Z then r :: sorted
      else x :: insert_by_timestamp r rest
  end.

Definition order_by_timestamp_desc (rows : list Row) : list Row :=
  fold_right insert_by_timestamp [] rows.

(** [SELECT pair, price, timestamp FROM price_history
     WHERE pair = :pair AND timestamp > :since ORDER BY timestamp DESC]. *)
Definition select_history (pair : string) (since : Z) (t : list Row)
  : list Row :=
  order_by_timestamp_desc
    (filter (fun r => String.eqb (row_pair r) pair
                      && (since <? row_timestamp r)%Z) t).

(** [datetime.now(UTC) - timedelta(hours=hours)]. *)
Definition window_start (now hours : Z) : result Z :=
  do delta <- timedelta_hours hours;
  datetime_sub now delta.

(** The decorated function.  Operation 0 is [engine.connect()], operation
    1 the [SELECT]; its [:since] argument is evaluated in between. *)
Definition get_price_history_body (now : Z) (f : fault) (pair : string)
  (hours : Z) (s : State) : result (list Price) * State :=
  let s := set_history_cache [] s in          (* cache_clear() *)
  let s := log_db Connect s in
  if fails f 0 then (Raise SQLAlchemyError, log_error "Database error" s)
  else
    match window_start now hours with
    | Raise e => (Raise e, s)
    | Ok since =>
        let s := log_db (SelectHistory pair since) s in
        if fails f 1
        then (Raise SQLAlchemyError, log_error "Database error" s)
        else (Ok (map Price_of_row (select_history pair since (table s))), s)
    end.

Definition maxsize : nat := 32.
Definition default_hours : Z := 24.

(** [@lru_cache(maxsize=32)] around the body. *)
Definition get_price_history (now : Z) (f : fault) (pair : string)
  (hours : option Z) (s : State) : result (list Price) * State :=
  let key := (pair, hours) in
  match lru_find history_key_eqb key (history_cache s) with
  | Some v =>
      (Ok v,
       set_history_cache (lru_touch history_key_eqb key v (history_cache s)) s)
  | None =>
      let h := match hours with Some h => h | None => default_hours end in
      match get_price_history_body now f pair h s with
      | (Ok v, s') =>
          (Ok v,
           set_history_cache
             (lru_store history_key_eqb maxsize key v (history_cache s')) s')
      | (Raise e, s') => (Raise e, s')
      end
  end.

(** *** get_volatility_rank *)

(** [WHERE timestamp >= NOW() - INTERVAL '24 HOURS']. *)
Definition in_trailing_window (now : Z) (r : Row) : bool :=
  (now - 24 * usec_per_hour <=? row_timestamp r)%Z.

(** [GROUP BY pair]: the prices of each pair, in table order. *)
Definition group_by_pair (rows : list Row) : dict (list float) :=
  fold_left (fun groups r => dict_append groups (row_pair r) (row_price r))
            rows [].

(** The common table expression [pair_stddev]. *)
Definition pair_stddev (now : Z) (t : list Row) : list (string * float) :=
  map (fun g => (fst g, STDDEV (snd g)))
      (filter (fun g => (1 <? List.length (snd g))%nat)
              (group_by_pair (filter (in_trailing_window now) t))).

(** [ORDER BY std_dev DESC]. *)
Fixpoint insert_by_std_dev (x : string * float)
  (sorted : list (string * float)) : list (string * float) :=
  match sorted with
  | [] => [x]
  | y :: rest =>
      if float_le (snd x) (snd y) then y :: insert_by_std_dev x rest
      else x :: sorted
  end.

Definition order_by_std_dev_desc (rows : list (string * float))
  : list (string * float) :=
  fold_right insert_by_std_dev [] rows.

Definition peers (x y : float) : bool := float_le x y && float_le y x.

(** [RANK()] over the ordered rows: a row that is a peer of the previous
    one takes its rank, any other row takes its row number. *)
Fixpoint rank_rows (row_number : nat) (prev : option (float * nat))
  (rows : list (string * float)) : list (string * nat) :=
  match rows with
  | [] => []
  | (p, x) :: rest =>
      let r := match prev with
               | Some (y, ry) => if peers x y then ry else row_number
               | None => row_number
               end in
      (p, r) :: rank_rows (S row_number) (Some (x, r)) rest
  end.

(** The common table expression [pair_ranks]. *)
Definition pair_ranks (now : Z) (t : list Row) : list (string * nat) :=
  rank_rows 1 None (order_by_std_dev_desc (pair_stddev now t)).

(** [SELECT rank FROM pair_ranks WHERE pair = :pair]. *)
Definition select_rank (now : Z) (t : list Row) (pair : string)
  : list nat :=
  map snd (filter (fun pr => String.eqb (fst pr) pair) (pair_ranks now t)).

(** [.fetchone()], then [result[0] if result else None]. *)
Definition fetchone {A : Type} (rows : list A) : option A := hd_error rows.

(** The decorated function, with the query as PostgreSQL evaluates it;
    [now] is the database's [NOW()]. *)
Definition get_volatility_rank_body (now : Z) (f : fault) (pair : string)
  (s : State) : result (option nat) * State :=
  let s := log_db Connect s in
  if fails f 0 then (Raise SQLAlchemyError, log_error "Database error" s)
  else
    let s := log_db (SelectRank pair) s in
    if fails f 1 then (Raise SQLAlchemyError, log_error "Database error" s)
    else (Ok (fetchone (select_rank now (table s) pair)), s).

(** [@lru_cache(maxsize=32)] around the body. *)
Definition get_volatility_rank (now : Z) (f : fault) (pair : string)
  (s : State) : result (option nat) * State :=
  match lru_find String.eqb pair (rank_cache s) with
  | Some v =>
      (Ok v, set_rank_cache (lru_touch String.eqb pair v (rank_cache s)) s)
  | None =>
      match get_volatility_rank_body now f pair s with
      | (Ok v, s') =>
          (Ok v,
           set_rank_cache (lru_store String.eqb maxsize pair v (rank_cache s'))
                          s')
      | (Raise e, s') => (Raise e, s')
      end
  end.

(** *** src/api/routes.py *)

Definition not_found : exn := HTTPException 404%Z "Pair not found".

(** [Price(pair=pair, price=prices[pair])] names no timestamp, a required
    field of the model. *)
Definition routes_get_current_price (net : Network)
  (base_currency quote_currency : string) (s : State)
  : result Price * State :=
  let pair := (base_currency ++ "/" ++ quote_currency)%string in
  if negb (in_list pair PAIRS) then (Raise not_found, s)
  else
    match fetch_prices net s with
    | (Raise e, s') => (Raise e, s')
    | (Ok prices, s') =>
        match dict_get prices pair with
        | None => (Raise (KeyError pair), s')
        | Some _ => (Raise ValidationError, s')
        end
    end.

Definition routes_get_price_history (now1 now2 : Z) (f1 f2 : fault)
  (base_currency quote_currency : string) (s : State)
  : result PriceHistory * State :=
  let pair := (base_currency ++ "/" ++ quote_currency)%string in
  if negb (in_list pair PAIRS) then (Raise not_found, s)
  else
    match get_price_history now1 f1 pair None s with
    | (Raise e, s') => (Raise e, s')
    | (Ok prices, s') =>
        match get_volatility_rank now2 f2 pair s' with
        | (Raise e, s'') => (Raise e, s'')
        | (Ok rank, s'') => (Ok (mkPriceHistory pair prices rank), s'')
        end
    end.

End Service.

Arguments Price : clear implicits.
Arguments PriceHistory : clear implicits.
Arguments Row : clear implicits.
Arguments json : clear implicits.
Arguments Response : clear implicits.
Arguments Network : clear implicits.
Arguments db_event : clear implicits.
Arguments State : clear implicits.

(** ** Vocabulary of the statements *)

Section Vocabulary.

Context {float : Type}.
Variable STDDEV : list float -> float.
Variable float_le : float -> float -> bool.

(** The rows that [store_prices] writes for a batch captured at [now]. *)
Definition batch_rows (now : Z) (prices : dict float) : list (Row float) :=
  map (fun item => mkRow (fst item) (snd item) now) prices.

(** No database operation up to the [n]-th raises. *)
Definition faultless (f : fault) (n : nat) : Prop :=
  forall k, f = Some k -> (n < k)%nat.

(** The index of the last database operation of a [store_prices] call:
    the commit, or the connect when the batch is empty and there is
    nothing to commit. *)
Definition last_operation (prices : dict float) : nat :=
  match prices with
  | [] => 0%nat
  | _ :: _ => S (List.length prices)
  end.

(** The [Commit] that ends the transaction of a batch, if it has one. *)
Definition commit_events (prices : dict float) : list (db_event float) :=
  match prices with
  | [] => []
  | _ :: _ => [Commit]
  end.

(** The samples of [pair] in the table. *)
Definition samples_of (pair : string) (t : list (Row float))
  : list (Row float) :=
  filter (fun r => String.eqb (row_pair r) pair) t.

Definition newer_or_equal (a b : Row float) : Prop :=
  (row_timestamp b <= row_timestamp a)%Z.

Definition newest_first (l : list (Price float)) : Prop :=
  StronglySorted (fun a b => (Price_timestamp b <= Price_timestamp a)%Z) l.

(** The prices of [pair] inside the trailing 24-hour window, in table
    order, and their standard deviation. *)
Definition window_prices (now : Z) (t : list (Row float)) (pair : string)
  : list float :=
  map row_price
      (filter (fun r => String.eqb (row_pair r) pair)
              (filter (in_trailing_window now) t)).

Definition window_std_dev (now : Z) (t : list (Row float)) (pair : string)
  : float :=
  STDDEV (window_prices now t pair).

(** [higher x y]: [x] sorts strictly above [y]. *)
Definition higher (x y : float) : bool := negb (float_le x y).

(** How many of the rows carry a value strictly above [x]. *)
Definition count_higher (x : float) (rows : list (string * float)) : nat :=
  List.length (filter (fun row => higher (snd row) x) rows).

Definition std_dev_desc (a b : string * float) : Prop :=
  float_le (snd b) (snd a) = true.

(** The prices of [pair] among the rows, in order. *)
Definition prices_of (pair : string) (rows : list (Row float))
  : list float :=
  map row_price (filter (fun r => String.eqb (row_pair r) pair) rows).

(** The outcome of a request counts as failed on a network error, on an
    error status, and on a body that is not JSON. *)
Definition request_failed (r : option (Response float)) : Prop :=
  match r with
  | None => True
  | Some response =>
      (400 <= status_code response < 600)%Z \/ body response = None
  end.

(** The exception of a failed request: what [requests.get] raises, what
    [raise_for_status] raises on a 4xx or 5xx status, what
    [response.json()] raises on a body that is not JSON. *)
Definition request_error (r : option (Response float)) : option exn :=
  match r with
  | None => Some RequestException
  | Some response =>
      if ((400 <=? status_code response)
          && (status_code response <? 600))%Z
      then Some (HTTPError (status_code response))
      else match body response with
           | None => Some JSONDecodeError
           | Some _ => None
           end
  end.

(** A group that exists already and the prices still to be appended. *)
Definition combine_group (old : option (list float)) (vs : list float)
  : option (list float) :=
  match old, vs with
  | None, [] => None
  | None, _ => Some vs
  | Some l, _ => Some (l ++ vs)
  end.

(** The samples of [pair] that are exactly 24 hours old at [now]. *)
Definition samples_at_boundary (now : Z) (t : list (Row float))
  (pair : string) : list (Row float) :=
  filter (fun r => String.eqb (row_pair r) pair
                   && (row_timestamp r =? now - 24 * usec_per_hour)%Z) t.

(** The request of each quote group, in the order of the groups. *)
Definition group_ids (bases : list string) : list string :=
  match map_result get_coingecko_id bases with
  | Ok ids => ids
  | Raise _ => []
  end.

Definition requests_of (groups : dict (list string)) : list Request :=
  map (fun g => group_request (fst g) (group_ids (snd g))) groups.

(** What [fetch_prices] may touch: the request log and the error log. *)
Definition same_store (s s' : State float) : Prop :=
  table s' = table s /\ db_log s' = db_log s /\
  last_update s' = last_update s /\
  history_cache s' = history_cache s /\ rank_cache s' = rank_cache s.

End Vocabulary.

(** ** Exact rationals as a model of [float8] for the examples

    Ordering pairs by sample variance orders them by standard deviation. *)

Definition Qsum (xs : list Q) : Q := fold_right Qplus 0%Q xs.

Definition sample_variance (xs : list Q) : Q :=
  let n := inject_Z (Z.of_nat (List.length xs)) in
  let mean := (Qsum xs / n)%Q in
  (Qsum (map (fun x => (x - mean) * (x - mean)) xs) / (n - 1))%Q.

(** 2023-11-14 22:13:20 UTC, in microseconds. *)
Definition t0 : Z := (1700000000 * 1000000)%Z.
Definition second : Z := 1000000%Z.

Definition good_response (quote : string) (ids : list (string * Q))
  : Response Q :=
  mkResponse 200%Z
    (Some (JObject (map (fun ip => (fst ip, JObject [(quote, JNumber (snd ip))]))
                        ids))).

(** A price source that answers every group. *)
Definition net_ok : Network Q := fun req =>
  if String.eqb (req_vs_currencies req) "usd" then
    Some (good_response "usd"
            [("bitcoin", 50000#1); ("ethereum", 2000#1); ("solana", 100#1);
             ("polkadot", 7#1); ("cardano", 1#2)]%Q)
  else if String.eqb (req_vs_currencies req) "eur" then
    Some (good_response "eur" [("ethereum-classic", 20#1)]%Q)
  else
    Some (good_response "btc" [("ethereum", 1#25); ("bancor", 1#100000)]%Q).

Definition two_prices : dict Q :=
  [("btc/usd", 50000#1); ("eth/usd", 2000#1)]%Q.

(** Two batches one second apart. *)
Definition two_batches : list (Row Q) :=
  [ mkRow "btc/usd" (50000#1)%Q t0;
    mkRow "eth/usd" (2000#1)%Q t0;
    mkRow "btc/usd" (51000#1)%Q (t0 + second);
    mkRow "eth/usd" (2000#1)%Q (t0 + second) ].

(** Two samples that are exactly 24 hours old at [t0]. *)
Definition day_old : list (Row Q) :=
  [ mkRow "btc/usd" (50000#1)%Q (t0 - 24 * usec_per_hour);
    mkRow "btc/usd" (51000#1)%Q (t0 - 24 * usec_per_hour) ].

(** A service that read the history and the rank of [btc/usd] at [t0] on
    an empty table and stored two batches afterwards. *)
Definition stale_service : State Q :=
  let s1 := snd (get_price_history t0 None "btc/usd" None (new_service [])) in
  let s2 := snd (get_volatility_rank sample_variance Qle_bool t0 None
                   "btc/usd" s1) in
  let s3 := snd (store_prices t0 None
                   [("btc/usd", 50000#1); ("eth/usd", 2000#1)]%Q s2) in
  snd (store_prices (t0 + second) None
         [("btc/usd", 51000#1); ("eth/usd", 2000#1)]%Q s3).

(** A price source whose [eur] group answers 503. *)
Definition net_eur_down : Network Q := fun req =>
  if String.eqb (req_vs_currencies req) "eur" then Some (mkResponse 503%Z None)
  else net_ok req.

(** A price source that sends the bodies of [net_ok] under status 302,
    with no [Location] to follow: [requests.get] returns such a response
    as it is. *)
Definition net_found : Network Q := fun req =>
  match net_ok req with
  | Some response => Some (mkResponse 302%Z (body response))
  | None => None
  end.

(** ** The guard of [PriceService.__init__] *)

(** [s.startswith(p)]. *)
Fixpoint startswith (s p : string) : bool :=
  match p, s with
  | EmptyString, _ => true
  | String a p', String b s' => Ascii.eqb a b && startswith s' p'
  | String _ _, EmptyString => false
  end.

(** [sub in s]. *)
Fixpoint contains (s sub : string) : bool :=
  startswith s sub
  || match s with
     | EmptyString => false
     | String _ rest => contains rest sub
     end.

(** The first statement of [__init__]; the engine is created after it. *)
Definition check_db_url (db_url : string) : result unit :=
  if String.eqb db_url ""
     || (negb (startswith db_url "sqlite")
         && negb (contains db_url "postgresql"))
  then Raise (ValueError "Invalid database URL")
  else Ok tt.


(** ** Sequences of calls on one service *)

Section Driver.

Context {float : Type}.
Variable STDDEV : list float -> float.
Variable float_le : float -> float -> bool.

Inductive call : Type :=
| CallFetch (net : Network float)
| CallStore (now : Z) (f : fault) (prices : dict float)
| CallHistory (now : Z) (f : fault) (pair : string) (hours : option Z)
| CallRank (now : Z) (f : fault) (pair : string)
| CallCurrentRoute (net : Network float)
                   (base_currency quote_currency : string)
| CallHistoryRoute (now1 now2 : Z) (f1 f2 : fault)
                   (base_currency quote_currency : string).

(** The service after one call, whatever the call returned or raised. *)
Definition step (c : call) (s : State float) : State float :=
  match c with
  | CallFetch net => snd (fetch_prices net s)
  | CallStore now f prices => snd (store_prices now f prices s)
  | CallHistory now f p hours => snd (get_price_history now f p hours s)
  | CallRank now f p => snd (get_volatility_rank STDDEV float_le now f p s)
  | CallCurrentRoute net b q => snd (routes_get_current_price net b q s)
  | CallHistoryRoute now1 now2 f1 f2 b q =>
      snd (routes_get_price_history STDDEV float_le now1 now2 f1 f2 b q s)
  end.

Definition run (calls : list call) (s : State float) : State float :=
  fold_left (fun s' c => step c s') calls s.

(** What the response to the request of a group holds for one of its
    bases: [data[id][quote]], once the request, the status and the
    decoding have gone through. *)
Definition quoted_price (net : Network float) (quote : string)
  (bases : list string) (b : string) : result (json float) :=
  match net (group_request quote (group_ids bases)) with
  | None => Raise RequestException
  | Some response =>
      do _ <- raise_for_status response;
      do data <- response_json response;
      do id <- get_coingecko_id b;
      do entry <- json_getitem data id;
      json_getitem entry quote
  end.

(** The entries that one group contributes, in the order of its bases;
    the first lookup that fails decides the exception. *)
Definition group_prices (net : Network float) (quote : string)
  (bases : list string) : result (dict (json float)) :=
  map_result (fun b => do v <- quoted_price net quote bases b;
                       Ok ((b ++ "/" ++ quote)%string, v))
             bases.

(** [v] is what a decoded body holds at [data[id][quote]]: the body is
    an object, its field [id] an object, and [v] the field [quote] of
    that. *)
Definition quoted_in (data : json float) (id quote : string)
  (v : json float) : Prop :=
  exists fields inner,
    data = JObject fields /\
    dict_get fields id = Some (JObject inner) /\
    dict_get inner quote = Some v.

(** The bound that [maxsize] puts on the cache of [get_volatility_rank]:
    at most that many entries, no pair twice. *)
Definition rank_cache_bounded (c : list (string * option nat)) : Prop :=
  (List.length c <= maxsize)%nat /\ NoDup (map fst c).

(** [{pair: service.get_volatility_rank(pair) for pair in PAIRS}], the
    way the dashboard reads the ranks (src/ui/streamlit_app.py, line
    134): one call per pair on a healthy database, in order. *)
Fixpoint rank_each (now : Z) (pairs : list string) (s : State float)
  : list (string * result (option nat)) * State float :=
  match pairs with
  | [] => ([], s)
  | p :: rest =>
      let (r, s1) := get_volatility_rank STDDEV float_le now None p s in
      let (rs, s2) := rank_each now rest s1 in
      ((p, r) :: rs, s2)
  end.

(** [t] with some of its rows older than [bound] deleted gives [t']. *)
Inductive pruned (bound : Z) : list (Row float) -> list (Row float) -> Prop :=
| pruned_nil : pruned bound [] []
| pruned_keep (r : Row float) (t t' : list (Row float)) :
    pruned bound t t' -> pruned bound (r :: t) (r :: t')
| pruned_drop (r : Row float) (t t' : list (Row float)) :
    (row_timestamp r < bound)%Z ->
    pruned bound t t' -> pruned bound (r :: t) t'.

End Driver.

Arguments call : clear implicits.

(** ** The dashboard's cycle on exact rationals *)

Definition first_batch : dict Q :=
  [("btc/usd", 50000#1); ("eth/usd", 2000#1); ("sol/usd", 100#1);
   ("dot/usd", 7#1); ("ada/usd", 1#2); ("etc/eur", 20#1);
   ("eth/btc", 1#25); ("bnt/btc", 1#100000)]%Q.

Definition second_batch : dict Q :=
  [("btc/usd", 51000#1); ("eth/usd", 2100#1); ("sol/usd", 110#1);
   ("dot/usd", 7#1); ("ada/usd", 1#2); ("etc/eur", 21#1);
   ("eth/btc", 1#25); ("bnt/btc", 1#100000)]%Q.

(** A service after two cycles of the dashboard, 90 seconds apart: each
    stores a batch of the eight pairs, and the first one then reads the
    rank of every pair. *)
Definition dashboard_service : State Q :=
  let s1 := snd (store_prices t0 None first_batch (new_service [])) in
  let s2 := snd (rank_each sample_variance Qle_bool t0 PAIRS s1) in
  snd (store_prices (t0 + 90 * second) None second_batch s2).

(** A service that read the rank of [btc/usd] two seconds after the
    first of two batches. *)
Definition ranked_service : State Q :=
  snd (get_volatility_rank sample_variance Qle_bool (t0 + 2 * second) None
         "btc/usd" (new_service two_batches)).

(** * Properties *)

(** ** The pair catalog *)

Lemma in_list_In (x : string) (l : list string) :
  in_list x l = true <-> In x l.
Proof.
  unfold in_list. rewrite existsb_exists. split.
  - intros [y [Hy Heq]]. apply String.eqb_eq in Heq. now subst.
  - intros H. exists x. split; [assumption | apply String.eqb_refl].
Qed.

Lemma CoinGeckoId_getitem_name (m : CoinGeckoId) :
  CoinGeckoId_getitem (CoinGeckoId_name m) = Some m.
Proof. destruct m; reflexivity. Qed.

Lemma CoinGeckoId_getitem_Some (name : string) (m : CoinGeckoId) :
  CoinGeckoId_getitem name = Some m -> name = CoinGeckoId_name m.
Proof.
  unfold CoinGeckoId_getitem. intros H.
  apply find_some in H. destruct H as [_ H]. now apply String.eqb_eq.
Qed.

(** C7. [get_coingecko_id] is a function of the symbol alone.  A symbol
    whose upper-case form names a member of the external-identifier
    enumeration gets that member's identifier; every other symbol fails
    with [ValueError "Unsupported currency: <symbol>"]. *)
Theorem get_coingecko_id_total (currency : string) :
  (forall m, upper currency = CoinGeckoId_name m ->
             get_coingecko_id currency = Ok (CoinGeckoId_value m)) /\
  ((forall m, upper currency <> CoinGeckoId_name m) ->
   get_coingecko_id currency
   = Raise (ValueError ("Unsupported currency: " ++ currency))).
Proof.
  unfold get_coingecko_id. split.
  - intros m Hm. rewrite Hm, CoinGeckoId_getitem_name. reflexivity.
  - intros Hnone.
    destruct (CoinGeckoId_getitem (upper currency)) as [m|] eqn:E.
    + apply CoinGeckoId_getitem_Some in E. now elim (Hnone m).
    + reflexivity.
Qed.

Lemma get_coingecko_id_total_witness :
  get_coingecko_id "btc" = Ok "bitcoin" /\
  get_coingecko_id "xyz" = Raise (ValueError "Unsupported currency: xyz").
Proof.
  split.
  - apply (proj1 (get_coingecko_id_total "btc") BTC). reflexivity.
  - apply (proj2 (get_coingecko_id_total "xyz")).
    intros m; destruct m; discriminate.
Defined.

(** U+017F, the long s, upper-cases to [S]: the symbol made of it and
    [ol] is in the mapping. *)
Example get_coingecko_id_long_s :
  get_coingecko_id (String "197" (String "191" "ol")) = Ok "solana".
Proof. reflexivity. Qed.

(** Every base currency of the catalog has an external identifier. *)
Lemma base_currencies_supported (b : BaseCurrency) :
  exists m, get_coingecko_id (BaseCurrency_value b) = Ok (CoinGeckoId_value m)
            /\ CoinGeckoId_name m = upper (BaseCurrency_value b).
Proof.
  destruct b;
    [exists BTC | exists ETH | exists SOL | exists ETC | exists DOT
    | exists ADA | exists BNT]; split; reflexivity.
Qed.

(** ** The routes *)

Section Routes.

Context {float : Type}.
Variable STDDEV : list float -> float.
Variable float_le : float -> float -> bool.

(** C8. For a pair string outside the catalog both endpoints raise the
    404 "Pair not found" and leave the service as it was: nothing is sent
    to the database, nothing to the price source. *)
Theorem routes_unknown_pair (net : Network float) (now1 now2 : Z)
  (f1 f2 : fault) (base_currency quote_currency : string) (s : State float) :
  ~ In (base_currency ++ "/" ++ quote_currency)%string PAIRS ->
  routes_get_current_price net base_currency quote_currency s
  = (Raise (HTTPException 404 "Pair not found"), s) /\
  routes_get_price_history STDDEV float_le now1 now2 f1 f2
    base_currency quote_currency s
  = (Raise (HTTPException 404 "Pair not found"), s).
Proof.
  intros Hnot.
  assert (E : in_list (base_currency ++ "/" ++ quote_currency)%string PAIRS
              = false).
  { destruct (in_list _ PAIRS) eqn:E; [|reflexivity].
    apply in_list_In in E. contradiction. }
  unfold routes_get_current_price, routes_get_price_history.
  rewrite E. simpl. split; reflexivity.
Qed.

End Routes.

Lemma routes_unknown_pair_witness :
  routes_get_current_price net_ok "xyz" "usd" (new_service [])
  = (Raise (HTTPException 404 "Pair not found"), new_service []) /\
  routes_get_price_history sample_variance Qle_bool t0 t0 None None
    "xyz" "usd" (new_service [])
  = (Raise (HTTPException 404 "Pair not found"), new_service []).
Proof.
  apply routes_unknown_pair.
  intros H. apply in_list_In in H. discriminate.
Defined.

(** ** store_prices *)

Section Store.

Context {float : Type}.

Lemma insert_rows_table (f : fault) (timestamp : Z) (items : dict float) :
  forall k txn (s : State float),
    table (snd (insert_rows f k timestamp items txn s)) = table s.
Proof.
  induction items as [|[p x] rest IH]; intros k txn s; simpl.
  - reflexivity.
  - destruct (fails f k); simpl; [reflexivity|].
    rewrite IH. reflexivity.
Qed.

Lemma insert_rows_last_update (f : fault) (timestamp : Z)
  (items : dict float) :
  forall k txn (s : State float),
    last_update (snd (insert_rows f k timestamp items txn s))
    = last_update s.
Proof.
  induction items as [|[p x] rest IH]; intros k txn s; simpl.
  - reflexivity.
  - destruct (fails f k); simpl; [reflexivity|].
    rewrite IH. reflexivity.
Qed.

Lemma insert_rows_raises (f : fault) (timestamp : Z) (items : dict float) :
  forall k txn (s : State float) e s',
    insert_rows f k timestamp items txn s = (Raise e, s') ->
    e = SQLAlchemyError.
Proof.
  induction items as [|[p x] rest IH]; intros k txn s e s'; simpl.
  - discriminate.
  - destruct (fails f k).
    + intros H; inversion H; reflexivity.
    + apply IH.
Qed.

(** Without a fault the loop leaves every row of the batch in the
    transaction and one [Insert] per row in the log. *)
Lemma insert_rows_ok (f : fault) (timestamp : Z) (items : dict float) :
  forall k txn (s : State float),
    (forall j, (j < List.length items)%nat -> fails f (k + j) = false) ->
    insert_rows f k timestamp items txn s
    = (Ok (txn ++ batch_rows timestamp items),
       mkState (table s)
               (db_log s ++ map (@Insert float) (batch_rows timestamp items))
               (sent s) (last_update s) (history_cache s) (rank_cache s)
               (logged s)).
Proof.
  induction items as [|[p x] rest IH]; intros k txn s Hok; simpl.
  - rewrite !app_nil_r. destruct s; reflexivity.
  - assert (H0 : fails f k = false).
    { specialize (Hok 0%nat). rewrite Nat.add_0_r in Hok.
      apply Hok. simpl. lia. }
    rewrite H0. rewrite IH.
    + simpl. rewrite <- !app_assoc. reflexivity.
    + intros j Hj. replace (S k + j)%nat with (k + S j)%nat by lia.
      apply Hok. simpl. lia.
Qed.

(** With a fault at one of its operations the loop raises. *)
Lemma insert_rows_fault (timestamp : Z) (items : dict float) :
  forall k n txn (s : State float),
    (k <= n < k + List.length items)%nat ->
    fst (insert_rows (Some n) k timestamp items txn s)
    = Raise SQLAlchemyError.
Proof.
  induction items as [|[p x] rest IH]; intros k n txn s Hn; simpl in *.
  - lia.
  - destruct (Nat.eqb n k) eqn:E.
    + reflexivity.
    + apply Nat.eqb_neq in E. apply IH. lia.
Qed.

Lemma fails_faultless (f : fault) (n k : nat) :
  faultless f n -> (k <= n)%nat -> fails f k = false.
Proof.
  intros Hf Hk. destruct f as [m|]; simpl; [|reflexivity].
  apply Nat.eqb_neq. specialize (Hf m eq_refl). lia.
Qed.

(** C9. [store_prices] records the batch timestamp in [_last_update]
    before it touches the database: whenever the call raises, the table
    holds the rows it held before and [_last_update] is the new
    timestamp all the same. *)
Theorem store_prices_failure_keeps_last_update (now : Z) (f : fault)
  (prices : dict float) (s : State float) (e : exn) :
  fst (store_prices now f prices s) = Raise e ->
  last_update (snd (store_prices now f prices s)) = Some now /\
  table (snd (store_prices now f prices s)) = table s.
Proof.
  unfold store_prices.
  destruct (fails f 0); simpl; [split; reflexivity|].
  pose proof (insert_rows_table f now prices 1 []
                (log_db Connect (set_last_update now s))) as Ht.
  pose proof (insert_rows_last_update f now prices 1 []
                (log_db Connect (set_last_update now s))) as Hl.
  destruct (insert_rows f 1 now prices [] _) as [[txn|e'] s1];
    simpl in Ht, Hl.
  - unfold commit. destruct txn as [|r txn]; [discriminate|].
    destruct (fails f (S (List.length prices))); simpl.
    + intros _. split; assumption.
    + discriminate.
  - intros _. split; assumption.
Qed.

Lemma batch_rows_shape (now : Z) (prices : dict float) :
  map (@row_pair float) (batch_rows now prices) = dict_keys prices /\
  map (@row_price float) (batch_rows now prices) = map snd prices /\
  Forall (fun r => row_timestamp r = now) (batch_rows now prices).
Proof.
  unfold batch_rows, dict_keys. rewrite !map_map. simpl.
  repeat split. apply Forall_forall. intros r Hr.
  apply in_map_iff in Hr. destruct Hr as [item [<- _]]. reflexivity.
Qed.

(** Without a fault the call commits the whole batch. *)
Lemma store_prices_ok (now : Z) (f : fault) (prices : dict float)
  (s : State float) :
  faultless f (last_operation prices) ->
  store_prices now f prices s
  = (Ok tt,
     mkState (table s ++ batch_rows now prices)
             (db_log s ++ Connect :: map (@Insert float)
                                         (batch_rows now prices)
                                  ++ commit_events prices)
             (sent s) (Some now) (history_cache s) (rank_cache s)
             (logged s)).
Proof.
  intros Hf. unfold store_prices.
  rewrite (fails_faultless f _ 0 Hf) by lia.
  destruct prices as [|item rest].
  - simpl. rewrite app_nil_r. reflexivity.
  - rewrite insert_rows_ok.
    2:{ intros j Hj. apply (fails_faultless f _ _ Hf).
        unfold last_operation. lia. }
    unfold commit. cbn [batch_rows map app].
    rewrite (fails_faultless f _ (S (List.length (item :: rest))) Hf)
      by (unfold last_operation; lia).
    unfold set_table, log_db. simpl. rewrite <- !app_assoc. reflexivity.
Qed.

(** C4. Without a database fault [store_prices] appends to the table one
    row per item of the batch, each carrying the pair, the price and the
    one timestamp [now], and sends one [Connect], the [Insert]s and, for
    a batch that is not empty, one [Commit].  With a fault at any
    operation of the call (the connect, one of the inserts, the commit)
    it raises [SQLAlchemyError] and the table is the table from before
    the call.  An empty batch has the connect as its one operation: no
    statement opens a transaction, and [commit()] then sends nothing. *)
Theorem store_prices_all_or_nothing (now : Z) (f : fault)
  (prices : dict float) (s : State float) :
  let out := store_prices now f prices s in
  let rows := batch_rows now prices in
  (faultless f (last_operation prices) ->
   fst out = Ok tt /\
   table (snd out) = table s ++ rows /\
   db_log (snd out)
   = db_log s ++ Connect :: map (@Insert float) rows
                         ++ commit_events prices /\
   map (@row_pair float) rows = dict_keys prices /\
   map (@row_price float) rows = map snd prices /\
   Forall (fun r => row_timestamp r = now) rows) /\
  (forall k, f = Some k -> (k <= last_operation prices)%nat ->
   fst out = Raise SQLAlchemyError /\ table (snd out) = table s).
Proof.
  cbv zeta. split.
  - intros Hf. rewrite (store_prices_ok now f prices s Hf). simpl.
    repeat split; apply batch_rows_shape.
  - intros k -> Hk. unfold store_prices.
    destruct k as [|k]; [simpl; split; reflexivity|].
    replace (fails (Some (S k)) 0) with false by reflexivity.
    destruct prices as [|item rest]; [simpl in Hk; lia|].
    unfold last_operation in Hk.
    set (prices := item :: rest) in *.
    assert (Hlen : List.length prices = S (List.length rest))
      by reflexivity.
    pose proof (insert_rows_table (Some (S k)) now prices 1 []
                  (log_db Connect (set_last_update now s))) as Ht.
    destruct (Nat.eq_dec k (List.length prices)) as [->|Hne].
    + rewrite insert_rows_ok.
      2:{ intros j Hj. unfold fails. apply Nat.eqb_neq. lia. }
      unfold commit, prices. cbn [batch_rows map app].
      cbn [fails]. rewrite Nat.eqb_refl. simpl.
      split; reflexivity.
    + pose proof (insert_rows_fault now prices 1 (S k) []
                    (log_db Connect (set_last_update now s))) as Hr.
      destruct (insert_rows (Some (S k)) 1 now prices [] _)
        as [[txn|e'] s1]; simpl in Ht, Hr.
      * assert (H : @Ok (list (Row float)) txn = Raise SQLAlchemyError)
          by (apply Hr; lia).
        discriminate.
      * assert (H : @Raise (list (Row float)) e' = Raise SQLAlchemyError)
          by (apply Hr; lia).
        inversion H; subst. simpl. split; [reflexivity | assumption].
Qed.

End Store.

Lemma store_prices_all_or_nothing_witness :
  fst (store_prices t0 None [("btc/usd", 50000#1); ("eth/usd", 2000#1)]%Q
         (new_service []))
  = Ok tt /\
  fst (store_prices t0 (Some 2%nat)
         [("btc/usd", 50000#1); ("eth/usd", 2000#1)]%Q (new_service []))
  = Raise SQLAlchemyError.
Proof.
  pose proof (store_prices_all_or_nothing t0 None
                [("btc/usd", 50000#1); ("eth/usd", 2000#1)]%Q
                (new_service [])) as [Hok _].
  pose proof (store_prices_all_or_nothing t0 (Some 2%nat)
                [("btc/usd", 50000#1); ("eth/usd", 2000#1)]%Q
                (new_service [])) as [_ Hfail].
  split.
  - apply Hok. intros k Hk. discriminate.
  - apply (Hfail 2%nat); [reflexivity | simpl; lia].
Defined.

Lemma store_prices_failure_keeps_last_update_witness :
  last_update (snd (store_prices t0 (Some 2%nat)
                      [("btc/usd", 50000#1); ("eth/usd", 2000#1)]%Q
                      (new_service [])))
  = Some t0 /\
  table (snd (store_prices t0 (Some 2%nat)
                [("btc/usd", 50000#1); ("eth/usd", 2000#1)]%Q
                (new_service [])))
  = [].
Proof.
  apply (store_prices_failure_keeps_last_update t0 (Some 2%nat)
           [("btc/usd", 50000#1); ("eth/usd", 2000#1)]%Q
           (new_service []) SQLAlchemyError).
  reflexivity.
Defined.

(** ** fetch_prices *)

Section Fetch.

Context {float : Type}.

Lemma dict_get_set {V : Type} (d : dict V) (k k' : string) (v : V) :
  dict_get (dict_set d k v) k'
  = if String.eqb k' k then Some v else dict_get d k'.
Proof.
  induction d as [|[k0 v0] rest IH]; simpl.
  - reflexivity.
  - destruct (String.eqb k k0) eqn:E; simpl.
    + apply String.eqb_eq in E. subst k0.
      destruct (String.eqb k' k); reflexivity.
    + rewrite IH. destruct (String.eqb k' k0) eqn:E0; [|reflexivity].
      apply String.eqb_eq in E0. subst k0.
      destruct (String.eqb k' k) eqn:E1; [|reflexivity].
      apply String.eqb_eq in E1. subst k'.
      rewrite String.eqb_refl in E. discriminate.
Qed.

Lemma same_store_refl (s : State float) : same_store s s.
Proof. repeat split. Qed.

Lemma fetch_group_frame (net : Network float) (quote : string)
  (bases : list string) (cp : dict (json float)) (s : State float) :
  same_store s (snd (fetch_group net quote bases cp s)).
Proof.
  unfold fetch_group.
  destruct (map_result get_coingecko_id bases); [|apply same_store_refl].
  destruct (net _); repeat split.
Qed.

Lemma fetch_groups_frame (net : Network float)
  (groups : dict (list string)) :
  forall cp (s : State float),
    same_store s (snd (fetch_groups net groups cp s)).
Proof.
  induction groups as [|[quote bases] rest IH]; intros cp s; simpl.
  - apply same_store_refl.
  - pose proof (fetch_group_frame net quote bases cp s) as Hg.
    destruct (fetch_group net quote bases cp s) as [[cp'|e] s1];
      simpl in Hg; [|exact Hg].
    specialize (IH cp' s1).
    destruct Hg as (H1 & H2 & H3 & H4 & H5).
    destruct IH as (I1 & I2 & I3 & I4 & I5).
    repeat split; congruence.
Qed.

Lemma fetch_prices_frame (net : Network float) (s : State float) :
  same_store s (snd (fetch_prices net s)).
Proof.
  unfold fetch_prices.
  destruct (build_quote_groups PAIRS []) as [groups|e];
    [|apply same_store_refl].
  pose proof (fetch_groups_frame net groups [] s) as H.
  destruct (fetch_groups net groups [] s) as [[m|e] s1]; exact H.
Qed.

(** A failed request makes the iteration of its group raise. *)
Lemma fetch_group_failed (net : Network float) (quote : string)
  (bases ids : list string) (cp : dict (json float)) (s : State float) :
  map_result get_coingecko_id bases = Ok ids ->
  request_failed (net (group_request quote ids)) ->
  exists e, fst (fetch_group net quote bases cp s) = Raise e.
Proof.
  intros Hids Hfail. unfold fetch_group. rewrite Hids.
  destruct (net (group_request quote ids)) as [response|]; simpl in *.
  - unfold raise_for_status, response_json.
    destruct Hfail as [[Hlo Hhi]|Hbody].
    + apply Z.leb_le in Hlo. apply Z.ltb_lt in Hhi.
      rewrite Hlo, Hhi. simpl. eexists; reflexivity.
    + rewrite Hbody.
      destruct ((400 <=? status_code response)
                && (status_code response <? 600))%Z;
        simpl; eexists; reflexivity.
  - eexists; reflexivity.
Qed.

Lemma fetch_groups_failed (net : Network float) (quote : string)
  (bases ids : list string) (groups : dict (list string)) :
  In (quote, bases) groups ->
  map_result get_coingecko_id bases = Ok ids ->
  request_failed (net (group_request quote ids)) ->
  forall cp (s : State float),
    exists e, fst (fetch_groups net groups cp s) = Raise e.
Proof.
  intros Hin Hids Hfail.
  induction groups as [|[q bs] rest IH]; intros cp s; simpl.
  - contradiction.
  - destruct (fetch_group net q bs cp s) as [[cp'|e] s1] eqn:E.
    + destruct Hin as [Heq|Hin].
      * inversion Heq; subst q bs.
        destruct (fetch_group_failed net quote bases ids cp s Hids Hfail)
          as [e He].
        rewrite E in He. discriminate.
      * apply IH. exact Hin.
    + exists e. reflexivity.
Qed.

Lemma request_failed_error (r : option (Response float)) :
  request_failed r -> exists e, request_error r = Some e.
Proof.
  destruct r as [response|]; simpl; [|intros _; eexists; reflexivity].
  intros [[Hlo Hhi]|Hbody].
  - apply Z.leb_le in Hlo. apply Z.ltb_lt in Hhi. rewrite Hlo, Hhi.
    eexists. reflexivity.
  - rewrite Hbody. destruct (_ && _)%bool; eexists; reflexivity.
Qed.

(** The iteration of a group whose request fails raises the exception of
    the request, right after sending it. *)
Lemma fetch_group_request_error (net : Network float) (quote : string)
  (bases ids : list string) (cp : dict (json float)) (s : State float)
  (e : exn) :
  map_result get_coingecko_id bases = Ok ids ->
  request_error (net (group_request quote ids)) = Some e ->
  fetch_group net quote bases cp s
  = (Raise e, log_request (group_request quote ids) s).
Proof.
  intros Hids He. unfold fetch_group. rewrite Hids.
  destruct (net (group_request quote ids)) as [response|]; simpl in He.
  - unfold raise_for_status, response_json.
    destruct ((400 <=? status_code response)
              && (status_code response <? 600))%Z.
    + inversion He. reflexivity.
    + destruct (body response); [discriminate|]. inversion He. reflexivity.
  - inversion He. reflexivity.
Qed.

Lemma fetch_groups_app (net : Network float) (g1 g2 : dict (list string)) :
  forall cp (s : State float),
    fetch_groups net (g1 ++ g2) cp s
    = match fetch_groups net g1 cp s with
      | (Ok cp', s') => fetch_groups net g2 cp' s'
      | (Raise e, s') => (Raise e, s')
      end.
Proof.
  induction g1 as [|[q bs] rest IH]; intros cp s; simpl; [reflexivity|].
  destruct (fetch_group net q bs cp s) as [[cp'|e] s1]; [apply IH|].
  reflexivity.
Qed.

Lemma fetch_groups_logged (net : Network float)
  (groups : dict (list string)) :
  forall cp (s : State float),
    logged (snd (fetch_groups net groups cp s)) = logged s.
Proof.
  induction groups as [|[q bs] rest IH]; intros cp s; simpl; [reflexivity|].
  assert (Hg : logged (snd (fetch_group net q bs cp s)) = logged s).
  { unfold fetch_group.
    destruct (map_result get_coingecko_id bs); [|reflexivity].
    destruct (net _); reflexivity. }
  destruct (fetch_group net q bs cp s) as [[cp'|e] s1]; simpl in Hg.
  - rewrite IH. exact Hg.
  - exact Hg.
Qed.

(** What a failing loop raises is what the iteration of one of the
    groups raised. *)
Lemma fetch_groups_raises (net : Network float)
  (groups : dict (list string)) :
  forall cp (s : State float) e,
    fst (fetch_groups net groups cp s) = Raise e ->
    exists q bs cp' s',
      In (q, bs) groups /\ fst (fetch_group net q bs cp' s') = Raise e.
Proof.
  induction groups as [|[q bs] rest IH]; intros cp s e; simpl.
  - discriminate.
  - destruct (fetch_group net q bs cp s) as [[cp'|e'] s1] eqn:E.
    + intros H. destruct (IH cp' s1 e H) as (q' & bs' & c & s' & Hin & Hr).
      exists q', bs', c, s'. split; [right; exact Hin | exact Hr].
    + simpl. intros H. inversion H; subst e'.
      exists q, bs, cp, s. split; [left; reflexivity|].
      rewrite E. reflexivity.
Qed.

(** C3. When the request of some quote group fails (the call itself
    raises, the status is a 4xx or 5xx status, or the body is not
    JSON), [fetch_prices] returns no mapping.  It raises the exception
    that the iteration of one of the groups raised, unchanged, and
    leaves one line in the error log; the table and the database log are
    those from before the call.  When the groups before the failing one
    were fetched, the exception is the one of the failed request
    ([RequestException], [HTTPError] with the status, or
    [JSONDecodeError]), raised right after that request and before any
    later one. *)
Theorem fetch_prices_aborts_on_failure (net : Network float)
  (s : State float) (groups : dict (list string)) (quote : string)
  (bases ids : list string) :
  build_quote_groups PAIRS [] = Ok groups ->
  In (quote, bases) groups ->
  map_result get_coingecko_id bases = Ok ids ->
  request_failed (net (group_request quote ids)) ->
  (exists e q' bases' prices' s',
     fst (fetch_prices net s) = Raise e /\
     In (q', bases') groups /\
     fst (fetch_group net q' bases' prices' s') = Raise e) /\
  table (snd (fetch_prices net s)) = table s /\
  db_log (snd (fetch_prices net s)) = db_log s /\
  logged (snd (fetch_prices net s))
  = logged s ++ ["Error fetching prices"] /\
  (forall before after prices s1,
     groups = before ++ (quote, bases) :: after ->
     fetch_groups net before [] s = (Ok prices, s1) ->
     exists e,
       request_error (net (group_request quote ids)) = Some e /\
       fetch_prices net s
       = (Raise e,
          log_error "Error fetching prices"
            (log_request (group_request quote ids) s1))).
Proof.
  intros Hgroups Hin Hids Hfail.
  assert (Hraise : exists e, fst (fetch_groups net groups [] s) = Raise e)
    by exact (fetch_groups_failed net quote bases ids groups Hin Hids Hfail
                [] s).
  destruct Hraise as [e He].
  split; [|split; [|split; [|split]]].
  - destruct (fetch_groups_raises net groups [] s e He)
      as (q' & bs' & cp' & s' & Hin' & Hr).
    exists e, q', bs', cp', s'. split; [|split; assumption].
    unfold fetch_prices. rewrite Hgroups.
    destruct (fetch_groups net groups [] s) as [[m|e'] s1]; simpl in He;
      [discriminate|].
    exact He.
  - exact (proj1 (fetch_prices_frame net s)).
  - exact (proj1 (proj2 (fetch_prices_frame net s))).
  - unfold fetch_prices. rewrite Hgroups.
    pose proof (fetch_groups_logged net groups [] s) as Hl.
    destruct (fetch_groups net groups [] s) as [[m|e'] s1]; simpl in He;
      [discriminate|].
    simpl in *. rewrite Hl. reflexivity.
  - intros before after prices s1 -> Hbefore.
    destruct (request_failed_error _ Hfail) as [e0 He0].
    exists e0. split; [exact He0|].
    unfold fetch_prices. rewrite Hgroups, fetch_groups_app, Hbefore.
    cbn [fetch_groups].
    rewrite (fetch_group_request_error net quote bases ids prices s1 e0
               Hids He0).
    reflexivity.
Qed.

Lemma read_group_keys (data : json float) (quote : string)
  (bases : list string) :
  forall cp m,
    read_group data quote bases cp = Ok m ->
    (forall k, dict_get cp k <> None -> dict_get m k <> None) /\
    (forall b, In b bases -> dict_get m (b ++ "/" ++ quote) <> None).
Proof.
  induction bases as [|b rest IH]; intros cp m H; simpl in H.
  - inversion H; subst. split; [auto | intros b []].
  - destruct (get_coingecko_id b) as [id|]; simpl in H; [|discriminate].
    destruct (json_getitem data id) as [entry|]; simpl in H;
      [|discriminate].
    destruct (json_getitem entry quote) as [price|]; simpl in H;
      [|discriminate].
    destruct (IH _ _ H) as [Hold Hnew]. split.
    + intros k Hk. apply Hold. rewrite dict_get_set.
      match goal with
      | |- context [String.eqb ?x ?y] => destruct (String.eqb x y)
      end; [discriminate | exact Hk].
    + intros b' [<-|Hb'].
      * apply Hold. rewrite dict_get_set.
        change (b ++ String "/" quote)%string with (b ++ "/" ++ quote)%string.
        rewrite String.eqb_refl. discriminate.
      * apply Hnew. exact Hb'.
Qed.

Lemma fetch_group_ok (net : Network float) (quote : string)
  (bases : list string) (cp m : dict (json float)) (s s' : State float) :
  fetch_group net quote bases cp s = (Ok m, s') ->
  sent s' = sent s ++ [group_request quote (group_ids bases)] /\
  (forall k, dict_get cp k <> None -> dict_get m k <> None) /\
  (forall b, In b bases -> dict_get m (b ++ "/" ++ quote) <> None).
Proof.
  unfold fetch_group, group_ids.
  destruct (map_result get_coingecko_id bases) as [ids|];
    [|discriminate].
  destruct (net (group_request quote ids)) as [response|]; [|discriminate].
  destruct (raise_for_status response); simpl; [|discriminate].
  destruct (response_json response) as [data|]; simpl; [|discriminate].
  intros H. inversion H as [[Hm Hs]]. split; [reflexivity|].
  exact (read_group_keys data quote bases cp m Hm).
Qed.

Lemma fetch_groups_ok (net : Network float) (groups : dict (list string)) :
  forall cp m (s s' : State float),
    fetch_groups net groups cp s = (Ok m, s') ->
    sent s' = sent s ++ requests_of groups /\
    (forall k, dict_get cp k <> None -> dict_get m k <> None) /\
    (forall q bases b, In (q, bases) groups -> In b bases ->
                       dict_get m (b ++ "/" ++ q) <> None).
Proof.
  induction groups as [|[quote bases] rest IH]; intros cp m s s' H;
    simpl in H.
  - inversion H; subst. rewrite app_nil_r.
    split; [reflexivity|]. split; [auto|]. intros q bs b [].
  - destruct (fetch_group net quote bases cp s) as [[cp'|e] s1] eqn:E;
      [|discriminate].
    apply fetch_group_ok in E. destruct E as (Hs1 & Hold1 & Hnew1).
    apply IH in H. destruct H as (Hs' & Hold & Hnew).
    split; [|split].
    + rewrite Hs', Hs1. simpl. rewrite <- app_assoc. reflexivity.
    + intros k Hk. apply Hold, Hold1, Hk.
    + intros q bs b [Heq|Hin] Hb.
      * inversion Heq; subst q bs. apply Hold, Hnew1, Hb.
      * apply (Hnew q bs b Hin Hb).
Qed.

(** Whatever the outcome, the requests sent are the requests of the first
    groups, one for each. *)
Lemma fetch_groups_sent_prefix (net : Network float)
  (groups : dict (list string)) :
  forall cp (s : State float),
    exists n,
      sent (snd (fetch_groups net groups cp s))
      = sent s ++ firstn n (requests_of groups).
Proof.
  induction groups as [|[quote bases] rest IH]; intros cp s; simpl.
  - exists 0%nat. simpl. rewrite app_nil_r. reflexivity.
  - unfold fetch_group, group_ids.
    destruct (map_result get_coingecko_id bases) as [ids|e]; simpl.
    + destruct (net (group_request quote ids)) as [response|]; simpl.
      * destruct (do _ <- raise_for_status response;
                  do data <- response_json response;
                  read_group data quote bases cp) as [cp'|e]; simpl.
        -- destruct (IH cp' (log_request (group_request quote ids) s))
             as [n Hn].
           exists (S n). rewrite Hn. simpl. rewrite <- app_assoc.
           reflexivity.
        -- exists 1%nat. reflexivity.
      * exists 1%nat. reflexivity.
    + exists 0%nat. simpl. rewrite app_nil_r. reflexivity.
Qed.

(** The partition of the catalog by quote currency. *)
Lemma quote_groups_of_PAIRS :
  build_quote_groups PAIRS []
  = Ok [("usd", ["btc"; "eth"; "sol"; "dot"; "ada"]);
        ("eur", ["etc"]);
        ("btc", ["eth"; "bnt"])].
Proof. reflexivity. Qed.

Lemma read_group_as_lookup (net : Network float) (quote : string)
  (bases : list string) (response : Response float) (data : json float) :
  net (group_request quote (group_ids bases)) = Some response ->
  raise_for_status response = Ok tt ->
  response_json response = Ok data ->
  forall bs cp,
    read_group data quote bs cp
    = do kvs <- map_result
                  (fun b => do v <- quoted_price net quote bases b;
                            Ok ((b ++ "/" ++ quote)%string, v)) bs;
      Ok (fold_left (fun d kv => dict_set d (fst kv) (snd kv)) kvs cp).
Proof.
  intros Hnet Hstatus Hjson.
  induction bs as [|b rest IH]; intros cp; [reflexivity|].
  cbn [read_group map_result].
  unfold quoted_price at 1. rewrite Hnet, Hstatus, Hjson.
  cbn [bind].
  destruct (get_coingecko_id b) as [id|e]; cbn [bind]; [|reflexivity].
  destruct (json_getitem data id) as [entry|e]; cbn [bind]; [|reflexivity].
  destruct (json_getitem entry quote) as [price|e]; cbn [bind];
    [|reflexivity].
  rewrite IH.
  destruct (map_result _ rest) as [kvs|e]; reflexivity.
Qed.

(** One iteration of the loop sends the request of its group and then
    either adds the group's entries or raises what the first failing
    lookup raises. *)
Lemma fetch_group_as_lookup (net : Network float) (quote b : string)
  (rest ids : list string) (cp : dict (json float)) (s : State float) :
  map_result get_coingecko_id (b :: rest) = Ok ids ->
  fetch_group net quote (b :: rest) cp s
  = (do kvs <- group_prices net quote (b :: rest);
     Ok (fold_left (fun d kv => dict_set d (fst kv) (snd kv)) kvs cp),
     log_request (group_request quote (group_ids (b :: rest))) s).
Proof.
  intros Hids. unfold fetch_group, group_prices.
  assert (Hg : group_ids (b :: rest) = ids)
    by (unfold group_ids; rewrite Hids; reflexivity).
  rewrite Hids, Hg.
  destruct (net (group_request quote ids)) as [response|] eqn:Hnet.
  - destruct (raise_for_status response) as [[]|e] eqn:Hstatus.
    + destruct (response_json response) as [data|e] eqn:Hjson.
      * cbn [bind]. f_equal.
        rewrite <- Hg in Hnet.
        apply (read_group_as_lookup net quote (b :: rest) response data
                 Hnet Hstatus Hjson).
      * cbn [bind map_result]. unfold quoted_price at 1.
        rewrite Hg, Hnet, Hstatus, Hjson. reflexivity.
    + cbn [bind map_result]. unfold quoted_price at 1.
      rewrite Hg, Hnet, Hstatus. reflexivity.
  - cbn [map_result]. unfold quoted_price at 1.
    rewrite Hg, Hnet. reflexivity.
Qed.

Lemma group_prices_keys (net : Network float) (quote : string)
  (bases : list string) (kvs : dict (json float)) :
  group_prices net quote bases = Ok kvs ->
  map fst kvs = map (fun b => (b ++ "/" ++ quote)%string) bases.
Proof.
  unfold group_prices. generalize bases at 1 as all.
  intros all. revert kvs.
  induction bases as [|b rest IH]; intros kvs H; simpl in H.
  - inversion H. reflexivity.
  - destruct (quoted_price net quote all b) as [v|]; simpl in H;
      [|discriminate].
    destruct (map_result _ rest) as [kvs'|] eqn:E; simpl in H;
      [|discriminate].
    inversion H; subst. simpl. f_equal. apply IH. reflexivity.
Qed.

Lemma group_prices_values (net : Network float) (quote : string)
  (bases : list string) (kvs : dict (json float)) :
  group_prices net quote bases = Ok kvs ->
  forall k v, In (k, v) kvs ->
    exists b, In b bases /\ k = (b ++ "/" ++ quote)%string /\
              quoted_price net quote bases b = Ok v.
Proof.
  unfold group_prices.
  assert (G : forall all bs kvs',
             map_result (fun b => do v <- quoted_price net quote all b;
                                  Ok ((b ++ "/" ++ quote)%string, v)) bs
             = Ok kvs' ->
             forall k v, In (k, v) kvs' ->
               exists b, In b bs /\ k = (b ++ "/" ++ quote)%string /\
                         quoted_price net quote all b = Ok v).
  { intros all. induction bs as [|b rest IH]; intros kvs' H k v Hin;
      simpl in H.
    - inversion H; subst. contradiction.
    - destruct (quoted_price net quote all b) as [v0|] eqn:Eq; simpl in H;
        [|discriminate].
      destruct (map_result _ rest) as [kvs''|] eqn:E; simpl in H;
        [|discriminate].
      inversion H; subst. destruct Hin as [Heq|Hin].
      + inversion Heq; subst. exists b. simpl. tauto.
      + destruct (IH kvs'' eq_refl k v Hin) as (b' & Hb' & Hk & Hv).
        exists b'. simpl. tauto. }
  apply G.
Qed.

Lemma dict_get_of_In {V : Type} (d : dict V) (k : string) (v : V) :
  NoDup (map fst d) -> In (k, v) d -> dict_get d k = Some v.
Proof.
  induction d as [|[k0 v0] rest IH]; simpl; intros Hnd Hin.
  - contradiction.
  - inversion Hnd as [|? ? Hnotin Hnd']; subst.
    destruct Hin as [Heq|Hin].
    + inversion Heq; subst. rewrite String.eqb_refl. reflexivity.
    + destruct (String.eqb k k0) eqn:E; [|apply IH; assumption].
      apply String.eqb_eq in E. subst k0. exfalso. apply Hnotin.
      apply in_map_iff. exists (k, v). split; [reflexivity | exact Hin].
Qed.

(** A lookup that succeeds has read [data[id][quote]] in a response of
    the group's request whose status is no error status. *)
Lemma quoted_price_ok (net : Network float) (quote : string)
  (bases : list string) (b : string) (v : json float) :
  quoted_price net quote bases b = Ok v ->
  exists response data id,
    net (group_request quote (group_ids bases)) = Some response /\
    ~ (400 <= status_code response < 600)%Z /\
    body response = Some data /\
    get_coingecko_id b = Ok id /\
    quoted_in data id quote v.
Proof.
  unfold quoted_price.
  destruct (net _) as [response|]; [|discriminate].
  unfold raise_for_status, response_json.
  destruct ((400 <=? status_code response)
            && (status_code response <? 600))%Z eqn:Es; [discriminate|].
  destruct (body response) as [data|] eqn:Eb; [|discriminate].
  cbn [bind].
  destruct (get_coingecko_id b) as [id|]; [|discriminate].
  cbn [bind]. unfold json_getitem.
  destruct data as [| | | | |fields]; try discriminate.
  destruct (dict_get fields id) as [entry|] eqn:Ef; [|discriminate].
  cbn [bind].
  destruct entry as [| | | | |inner]; try discriminate.
  destruct (dict_get inner quote) as [price|] eqn:Ei; [|discriminate].
  intros H. inversion H; subst price.
  exists response, (JObject fields), id.
  split; [reflexivity|]. split.
  - intros [Hlo Hhi]. apply Z.leb_le in Hlo. apply Z.ltb_lt in Hhi.
    rewrite Hlo, Hhi in Es. discriminate.
  - split; [exact Eb|]. split; [reflexivity|].
    exists fields, inner. repeat split; assumption.
Qed.

Lemma group_prices_entry (net : Network float) (quote : string)
  (bases : list string) (kvs : dict (json float)) (b : string) :
  group_prices net quote bases = Ok kvs -> In b bases ->
  exists v, quoted_price net quote bases b = Ok v /\
            In ((b ++ "/" ++ quote)%string, v) kvs.
Proof.
  unfold group_prices.
  assert (G : forall all bs kvs',
             map_result (fun b => do v <- quoted_price net quote all b;
                                  Ok ((b ++ "/" ++ quote)%string, v)) bs
             = Ok kvs' ->
             In b bs ->
             exists v, quoted_price net quote all b = Ok v /\
                       In ((b ++ "/" ++ quote)%string, v) kvs').
  { intros all. induction bs as [|b0 rest IH]; intros kvs' H Hin;
      simpl in H.
    - contradiction.
    - destruct (quoted_price net quote all b0) as [v0|] eqn:E0;
        simpl in H; [|discriminate].
      destruct (map_result _ rest) as [kvs''|] eqn:E; simpl in H;
        [|discriminate].
      inversion H; subst. destruct Hin as [<-|Hin].
      + exists v0. split; [exact E0 | left; reflexivity].
      + destruct (IH kvs'' eq_refl Hin) as (v & Hv & Hkv).
        exists v. split; [exact Hv | right; exact Hkv]. }
  apply G.
Qed.

(** A call that returns has fetched the three groups; its mapping is
    their entries, one after the other. *)
Lemma fetch_prices_returns (net : Network float) (s s' : State float)
  (prices : dict (json float)) :
  fetch_prices net s = (Ok prices, s') ->
  exists kv1 kv2 kv3,
    group_prices net "usd" ["btc"; "eth"; "sol"; "dot"; "ada"] = Ok kv1 /\
    group_prices net "eur" ["etc"] = Ok kv2 /\
    group_prices net "btc" ["eth"; "bnt"] = Ok kv3 /\
    prices = kv1 ++ kv2 ++ kv3 /\
    dict_keys prices
    = ["btc/usd"; "eth/usd"; "sol/usd"; "dot/usd"; "ada/usd"; "etc/eur";
       "eth/btc"; "bnt/btc"].
Proof.
  intros H. unfold fetch_prices in H.
  rewrite quote_groups_of_PAIRS in H. cbn [fetch_groups] in H.
  rewrite (fetch_group_as_lookup net "usd" "btc" _
             ["bitcoin"; "ethereum"; "solana"; "polkadot"; "cardano"])
    in H by reflexivity.
  destruct (group_prices net "usd" _) as [kv1|e] eqn:E1; cbn [bind] in H;
    [|discriminate].
  rewrite (fetch_group_as_lookup net "eur" "etc" _ ["ethereum-classic"])
    in H by reflexivity.
  destruct (group_prices net "eur" _) as [kv2|e] eqn:E2; cbn [bind] in H;
    [|discriminate].
  rewrite (fetch_group_as_lookup net "btc" "eth" _ ["ethereum"; "bancor"])
    in H by reflexivity.
  destruct (group_prices net "btc" _) as [kv3|e] eqn:E3; cbn [bind] in H;
    [|discriminate].
  inversion H as [[Hprices Hs]]. clear H Hs.
  exists kv1, kv2, kv3.
  split; [reflexivity|]. split; [reflexivity|]. split; [reflexivity|].
  apply group_prices_keys in E1, E2, E3.
  destruct kv1 as [|[k1 v1] [|[k2 v2] [|[k3 v3] [|[k4 v4] [|[k5 v5] [|? ?]]]]]];
    try discriminate E1.
  destruct kv2 as [|[k6 v6] [|? ?]]; try discriminate E2.
  destruct kv3 as [|[k7 v7] [|[k8 v8] [|? ?]]]; try discriminate E3.
  simpl in E1, E2, E3.
  inversion E1; inversion E2; inversion E3; subst.
  split; reflexivity.
Qed.

(** C6. The catalog falls into the three groups [usd], [eur] and [btc].
    Every call of [fetch_prices] sends the requests of the first groups
    only, one for each, in this order; a call that returns has sent
    exactly one request per group, each with the comma-joined external
    identifiers of the group's bases.  The mapping it returns has the
    eight pairs of the catalog as its keys, and under each pair the
    value that the response to the request of the pair's quote currency,
    a response without an error status, holds in its decoded body at
    [data[id][quote]], [id] being the external identifier of the pair's
    base. *)
Theorem fetch_prices_one_request_per_quote (net : Network float)
  (s : State float) :
  let requests :=
    [ mkRequest base_url "bitcoin,ethereum,solana,polkadot,cardano" "usd"
                "application/json";
      mkRequest base_url "ethereum-classic" "eur" "application/json";
      mkRequest base_url "ethereum,bancor" "btc" "application/json" ] in
  build_quote_groups PAIRS []
  = Ok [("usd", ["btc"; "eth"; "sol"; "dot"; "ada"]);
        ("eur", ["etc"]);
        ("btc", ["eth"; "bnt"])] /\
  (exists n, sent (snd (fetch_prices net s)) = sent s ++ firstn n requests) /\
  (forall prices s',
     fetch_prices net s = (Ok prices, s') ->
     sent s' = sent s ++ requests /\
     dict_keys prices
     = ["btc/usd"; "eth/usd"; "sol/usd"; "dot/usd"; "ada/usd"; "etc/eur";
        "eth/btc"; "bnt/btc"] /\
     forall pair, In pair PAIRS ->
       exists b q request response data id v,
         split_pair pair = Ok (b, q) /\
         In request requests /\ req_vs_currencies request = q /\
         net request = Some response /\
         ~ (400 <= status_code response < 600)%Z /\
         body response = Some data /\
         get_coingecko_id b = Ok id /\
         quoted_in data id q v /\
         dict_get prices pair = Some v).
Proof.
  cbv zeta. split; [exact quote_groups_of_PAIRS|]. split.
  { unfold fetch_prices. rewrite quote_groups_of_PAIRS.
    match goal with
    | |- context [fetch_groups net ?g [] s] =>
        destruct (fetch_groups_sent_prefix net g [] s) as [n Hn];
        destruct (fetch_groups net g [] s) as [[m|e] s1]
    end; exists n; exact Hn. }
  intros prices s' H.
  destruct (fetch_prices_returns net s s' prices H)
    as (kv1 & kv2 & kv3 & E1 & E2 & E3 & Hall & Hkeys).
  split.
  { unfold fetch_prices in H. rewrite quote_groups_of_PAIRS in H.
    destruct (fetch_groups net _ [] s) as [[m|e] s1] eqn:E; [|discriminate].
    inversion H; subst m s1.
    apply fetch_groups_ok in E. exact (proj1 E). }
  split; [exact Hkeys|].
  assert (Hnd : NoDup (map fst prices)).
  { change (map fst prices) with (dict_keys prices). rewrite Hkeys.
    repeat (constructor; [simpl; intuition discriminate|]). constructor. }
  assert (Hentry : forall q bases kvs b,
             group_prices net q bases = Ok kvs ->
             (forall kv, In kv kvs -> In kv prices) ->
             In b bases ->
             exists response data id v,
               net (group_request q (group_ids bases)) = Some response /\
               ~ (400 <= status_code response < 600)%Z /\
               body response = Some data /\
               get_coingecko_id b = Ok id /\
               quoted_in data id q v /\
               dict_get prices (b ++ "/" ++ q) = Some v).
  { intros q bases kvs b Hg Hsub Hb.
    destruct (group_prices_entry net q bases kvs b Hg Hb) as (v & Hv & Hkv).
    destruct (quoted_price_ok net q bases b v Hv)
      as (response & data & id & Hnet & Hstatus & Hbody & Hid & Hq).
    exists response, data, id, v.
    repeat (split; [assumption|]).
    apply dict_get_of_In; [exact Hnd | apply Hsub, Hkv]. }
  assert (S1 : forall kv, In kv kv1 -> In kv prices)
    by (intros kv Hkv; rewrite Hall; apply in_or_app; left; exact Hkv).
  assert (S2 : forall kv, In kv kv2 -> In kv prices)
    by (intros kv Hkv; rewrite Hall; apply in_or_app; right;
        apply in_or_app; left; exact Hkv).
  assert (S3 : forall kv, In kv kv3 -> In kv prices)
    by (intros kv Hkv; rewrite Hall; apply in_or_app; right;
        apply in_or_app; right; exact Hkv).
  intros pair Hpair.
  assert (Hcases :
            (exists b, In b ["btc"; "eth"; "sol"; "dot"; "ada"] /\
                       pair = (b ++ "/" ++ "usd")%string) \/
            (exists b, In b ["etc"] /\ pair = (b ++ "/" ++ "eur")%string) \/
            (exists b, In b ["eth"; "bnt"] /\
                       pair = (b ++ "/" ++ "btc")%string)).
  { simpl in Hpair.
    destruct Hpair as [<-|[<-|[<-|[<-|[<-|[<-|[<-|[<-|[]]]]]]]]].
    - left. exists "btc". simpl. tauto.
    - left. exists "eth". simpl. tauto.
    - left. exists "sol". simpl. tauto.
    - right. left. exists "etc". simpl. tauto.
    - left. exists "dot". simpl. tauto.
    - left. exists "ada". simpl. tauto.
    - right. right. exists "eth". simpl. tauto.
    - right. right. exists "bnt". simpl. tauto. }
  destruct Hcases as [(b & Hb & ->)|[(b & Hb & ->)|(b & Hb & ->)]].
  - destruct (Hentry "usd" _ kv1 b E1 S1 Hb)
      as (response & data & id & v & Hnet & Hst & Hbody & Hid & Hq & Hget).
    exists b, "usd", (group_request "usd"
                        (group_ids ["btc"; "eth"; "sol"; "dot"; "ada"])),
      response, data, id, v.
    split.
    { simpl in Hb. destruct Hb as [<-|[<-|[<-|[<-|[<-|[]]]]]];
        reflexivity. }
    split; [left; reflexivity|]. split; [reflexivity|].
    repeat (split; [assumption|]). exact Hget.
  - destruct (Hentry "eur" _ kv2 b E2 S2 Hb)
      as (response & data & id & v & Hnet & Hst & Hbody & Hid & Hq & Hget).
    exists b, "eur", (group_request "eur" (group_ids ["etc"])),
      response, data, id, v.
    split.
    { simpl in Hb. destruct Hb as [<-|[]]; reflexivity. }
    split; [right; left; reflexivity|]. split; [reflexivity|].
    repeat (split; [assumption|]). exact Hget.
  - destruct (Hentry "btc" _ kv3 b E3 S3 Hb)
      as (response & data & id & v & Hnet & Hst & Hbody & Hid & Hq & Hget).
    exists b, "btc", (group_request "btc" (group_ids ["eth"; "bnt"])),
      response, data, id, v.
    split.
    { simpl in Hb. destruct Hb as [<-|[<-|[]]]; reflexivity. }
    split; [right; right; left; reflexivity|]. split; [reflexivity|].
    repeat (split; [assumption|]). exact Hget.
Qed.

End Fetch.

Lemma fetch_prices_aborts_on_failure_witness :
  fetch_prices net_eur_down (new_service [])
  = (Raise (HTTPError 503),
     mkState [] []
       [ mkRequest base_url "bitcoin,ethereum,solana,polkadot,cardano" "usd"
                   "application/json";
         mkRequest base_url "ethereum-classic" "eur" "application/json" ]
       None [] [] ["Error fetching prices"]).
Proof.
  destruct (fetch_prices_aborts_on_failure net_eur_down (new_service [])
              [("usd", ["btc"; "eth"; "sol"; "dot"; "ada"]);
               ("eur", ["etc"]);
               ("btc", ["eth"; "bnt"])]
              "eur" ["etc"] ["ethereum-classic"])
    as (_ & _ & _ & _ & Hfirst).
  - reflexivity.
  - simpl. tauto.
  - reflexivity.
  - simpl. left. lia.
  - edestruct (Hfirst [("usd", ["btc"; "eth"; "sol"; "dot"; "ada"])]
                      [("btc", ["eth"; "bnt"])])
      as (e & He & Hcall).
    + reflexivity.
    + vm_compute. reflexivity.
    + vm_compute in He. inversion He; subst e. rewrite Hcall.
      reflexivity.
Defined.

(** C3, as stated, fails: a status outside 2xx is not a failure unless
    it is a 4xx or 5xx status.  Every response of [net_found] carries
    status 302, and [fetch_prices] returns the mapping it returns on
    [net_ok], with nothing in the error log. *)
Lemma non_2xx_status_accepted :
  (forall req, exists response,
     net_found req = Some response /\ status_code response = 302%Z /\
     ~ (200 <= status_code response < 300)%Z) /\
  fst (fetch_prices net_found (new_service []))
  = fst (fetch_prices net_ok (new_service [])) /\
  exists prices s',
    fetch_prices net_found (new_service []) = (Ok prices, s') /\
    dict_keys prices
    = ["btc/usd"; "eth/usd"; "sol/usd"; "dot/usd"; "ada/usd"; "etc/eur";
       "eth/btc"; "bnt/btc"] /\
    logged s' = [].
Proof.
  split; [|split].
  - intros req. unfold net_found, net_ok.
    repeat match goal with
           | |- context [if ?b then _ else _] => destruct b
           end; eexists; (split; [reflexivity|]); simpl; split;
      [reflexivity | lia | reflexivity | lia | reflexivity | lia].
  - vm_compute. reflexivity.
  - eexists. eexists. split; [vm_compute; reflexivity|].
    split; reflexivity.
Qed.

Lemma fetch_prices_one_request_per_quote_witness :
  exists prices s',
    fetch_prices net_ok (new_service []) = (Ok prices, s') /\
    List.length (sent s') = 3%nat /\
    dict_get prices "eth/btc" = Some (JNumber (1#25)%Q) /\
    dict_get prices "eth/usd" = Some (JNumber (2000#1)%Q).
Proof.
  destruct (fetch_prices net_ok (new_service [])) as [r s'] eqn:E.
  assert (Hr : exists m, r = Ok m).
  { vm_compute in E. inversion E. eexists; reflexivity. }
  destruct Hr as [m ->].
  destruct (fetch_prices_one_request_per_quote net_ok (new_service []))
    as (_ & _ & Hok).
  destruct (Hok m s' E) as (Hsent & _ & Hvalues).
  exists m, s'. split; [reflexivity|]. split.
  { simpl. rewrite Hsent. reflexivity. }
  assert (Hread : forall pair b0 q0 (x : Q),
             In pair PAIRS ->
             split_pair pair = Ok (b0, q0) ->
             (forall request response data id v,
                In request
                   [ mkRequest base_url
                       "bitcoin,ethereum,solana,polkadot,cardano" "usd"
                       "application/json";
                     mkRequest base_url "ethereum-classic" "eur"
                       "application/json";
                     mkRequest base_url "ethereum,bancor" "btc"
                       "application/json" ] ->
                req_vs_currencies request = q0 ->
                net_ok request = Some response ->
                body response = Some data ->
                get_coingecko_id b0 = Ok id ->
                quoted_in data id q0 v -> v = JNumber x) ->
             dict_get m pair = Some (JNumber x)).
  { intros pair b0 q0 x Hpair Hsplit Hx.
    destruct (Hvalues pair Hpair)
      as (b & q & request & response & data & id & v & Hs & Hin & Hq &
          Hnet & _ & Hbody & Hid & Hquoted & Hget).
    rewrite Hsplit in Hs. injection Hs as Hb0 Hq0.
    rewrite <- Hb0 in Hid. rewrite <- Hq0 in Hq, Hquoted.
    rewrite Hget. f_equal.
    exact (Hx request response data id v Hin Hq Hnet Hbody Hid Hquoted). }
  split.
  - apply (Hread "eth/btc" "eth" "btc" (1#25)%Q);
      [simpl; tauto | reflexivity|].
    intros request response data id v Hin Hq Hnet Hbody Hid
           (fields & inner & Hdata & Hf & Hi).
    simpl in Hin. destruct Hin as [<-|[<-|[<-|[]]]]; try discriminate Hq.
    vm_compute in Hnet. injection Hnet as <-.
    cbn in Hbody. injection Hbody as <-.
    injection Hdata as <-.
    vm_compute in Hid. injection Hid as <-.
    vm_compute in Hf. injection Hf as <-.
    vm_compute in Hi. injection Hi as <-. reflexivity.
  - apply (Hread "eth/usd" "eth" "usd" (2000#1)%Q);
      [simpl; tauto | reflexivity|].
    intros request response data id v Hin Hq Hnet Hbody Hid
           (fields & inner & Hdata & Hf & Hi).
    simpl in Hin. destruct Hin as [<-|[<-|[<-|[]]]]; try discriminate Hq.
    vm_compute in Hnet. injection Hnet as <-.
    cbn in Hbody. injection Hbody as <-.
    injection Hdata as <-.
    vm_compute in Hid. injection Hid as <-.
    vm_compute in Hf. injection Hf as <-.
    vm_compute in Hi. injection Hi as <-. reflexivity.
Defined.

(** ** get_price_history *)

Section History.

Context {float : Type}.

Lemma insert_by_timestamp_perm (r : Row float) (l : list (Row float)) :
  Permutation (r :: l) (insert_by_timestamp r l).
Proof.
  induction l as [|x rest IH]; simpl.
  - apply Permutation_refl.
  - destruct (row_timestamp x <? row_timestamp r)%Z.
    + apply Permutation_refl.
    + eapply perm_trans; [apply perm_swap|]. apply perm_skip, IH.
Qed.

Lemma insert_by_timestamp_sorted (r : Row float) (l : list (Row float)) :
  StronglySorted newer_or_equal l ->
  StronglySorted newer_or_equal (insert_by_timestamp r l).
Proof.
  induction 1 as [|x rest Hsorted IH Hall]; simpl.
  - constructor; constructor.
  - destruct (row_timestamp x <? row_timestamp r)%Z eqn:E.
    + apply Z.ltb_lt in E. constructor.
      * constructor; assumption.
      * constructor.
        -- unfold newer_or_equal. lia.
        -- eapply Forall_impl; [|exact Hall].
           unfold newer_or_equal. intros a Ha. lia.
    + apply Z.ltb_ge in E. constructor; [exact IH|].
      eapply Permutation_Forall; [apply insert_by_timestamp_perm|].
      constructor; [exact E | exact Hall].
Qed.

Lemma order_by_timestamp_desc_perm (rows : list (Row float)) :
  Permutation rows (order_by_timestamp_desc rows).
Proof.
  induction rows as [|r rest IH]; simpl.
  - constructor.
  - eapply perm_trans; [apply perm_skip, IH|].
    apply insert_by_timestamp_perm.
Qed.

Lemma order_by_timestamp_desc_sorted (rows : list (Row float)) :
  StronglySorted newer_or_equal (order_by_timestamp_desc rows).
Proof.
  induction rows as [|r rest IH]; simpl.
  - constructor.
  - apply insert_by_timestamp_sorted, IH.
Qed.

Lemma select_history_In (pair : string) (since : Z) (t : list (Row float))
  (r : Row float) :
  In r (select_history pair since t) <->
  In r t /\ row_pair r = pair /\ (since < row_timestamp r)%Z.
Proof.
  unfold select_history. split.
  - intros H.
    apply (Permutation_in _
             (Permutation_sym (order_by_timestamp_desc_perm _))) in H.
    apply filter_In in H. destruct H as [Hin Hc].
    apply andb_true_iff in Hc. destruct Hc as [Hp Ht].
    apply String.eqb_eq in Hp. apply Z.ltb_lt in Ht. tauto.
  - intros (Hin & Hp & Ht).
    apply (Permutation_in _ (order_by_timestamp_desc_perm _)).
    apply filter_In. split; [exact Hin|].
    apply andb_true_iff. split;
      [apply String.eqb_eq; exact Hp | apply Z.ltb_lt; exact Ht].
Qed.

Lemma newest_first_map (l : list (Row float)) :
  StronglySorted newer_or_equal l -> newest_first (map Price_of_row l).
Proof.
  unfold newest_first. induction 1 as [|x rest Hs IH Hall]; simpl.
  - constructor.
  - constructor; [exact IH|].
    apply Forall_map. exact Hall.
Qed.

Lemma window_start_value (now hours since : Z) :
  window_start now hours = Ok since ->
  since = (now - hours * usec_per_hour)%Z.
Proof.
  unfold window_start, timedelta_hours, datetime_sub.
  destruct (_ && _); simpl; [|discriminate].
  destruct (_ && _); [|discriminate].
  intros H. inversion H. reflexivity.
Qed.

(** A call that is not served from the cache and meets no fault returns
    the rows that the [SELECT] yields and stores them under its key. *)
Lemma get_price_history_miss (now : Z) (pair : string) (hours : option Z)
  (since : Z) (s : State float) :
  lru_find history_key_eqb (pair, hours) (history_cache s) = None ->
  window_start now (match hours with Some h => h | None => default_hours end)
  = Ok since ->
  get_price_history now None pair hours s
  = (Ok (map Price_of_row (select_history pair since (table s))),
     mkState (table s)
             (db_log s ++ [Connect; SelectHistory pair since])
             (sent s) (last_update s)
             [((pair, hours),
               map Price_of_row (select_history pair since (table s)))]
             (rank_cache s) (logged s)).
Proof.
  intros Hmiss Hsince. unfold get_price_history. rewrite Hmiss.
  unfold get_price_history_body. simpl fails. cbv iota.
  rewrite Hsince. simpl.
  unfold set_history_cache, log_db, lru_store. simpl.
  rewrite <- app_assoc. reflexivity.
Qed.

Lemma store_prices_history_cache (now : Z) (f : fault)
  (prices : dict float) (s : State float) :
  history_cache (snd (store_prices now f prices s)) = history_cache s /\
  rank_cache (snd (store_prices now f prices s)) = rank_cache s.
Proof.
  unfold store_prices.
  destruct (fails f 0); simpl; [split; reflexivity|].
  assert (Hc : forall items k txn (s0 : State float),
             history_cache (snd (insert_rows f k now items txn s0))
             = history_cache s0 /\
             rank_cache (snd (insert_rows f k now items txn s0))
             = rank_cache s0).
  { induction items as [|[p x] rest IH]; intros k txn s0; simpl.
    - split; reflexivity.
    - destruct (fails f k); simpl; [split; reflexivity|].
      destruct (IH (S k) (txn ++ [mkRow p x now])
                   (log_db (Insert (mkRow p x now)) s0)) as [H1 H2].
      split; assumption. }
  specialize (Hc prices 1%nat [] (log_db Connect (set_last_update now s))).
  destruct (insert_rows f 1 now prices [] _) as [[txn|e] s1]; simpl in Hc.
  - unfold commit. destruct txn as [|r txn]; [exact Hc|].
    destruct (fails f (S (List.length prices))); simpl; exact Hc.
  - exact Hc.
Qed.

Lemma filter_window_all (pair : string) (since : Z) (t : list (Row float)) :
  (forall r, In r (samples_of pair t) -> (since < row_timestamp r)%Z) ->
  filter (fun r => String.eqb (row_pair r) pair
                   && (since <? row_timestamp r)%Z) t
  = samples_of pair t.
Proof.
  unfold samples_of. induction t as [|r rest IH]; simpl; intros Hwindow.
  - reflexivity.
  - destruct (String.eqb (row_pair r) pair) eqn:E; simpl.
    + assert (Hr : (since <? row_timestamp r)%Z = true).
      { apply Z.ltb_lt, Hwindow. left. reflexivity. }
      rewrite Hr. f_equal. apply IH.
      intros r' Hr'. apply Hwindow. right. exact Hr'.
    + apply IH. exact Hwindow.
Qed.

(** X26. On a service that holds no memoized history for the arguments,
    storing a batch and then reading the history of a pair over a window
    that starts before every sample of the pair returns the stored
    samples of the pair, those of the batch included: the same pairs,
    prices and timestamps, each sample once, newest first. *)
Lemma store_then_read_history (s : State float) (now1 now2 : Z)
  (prices : dict float) (pair : string) (hours : option Z) (since : Z) :
  lru_find history_key_eqb (pair, hours) (history_cache s) = None ->
  window_start now2
    (match hours with Some h => h | None => default_hours end) = Ok since ->
  (forall r, In r (samples_of pair (table s ++ batch_rows now1 prices)) ->
             (since < row_timestamp r)%Z) ->
  exists l s2,
    get_price_history now2 None pair hours
      (snd (store_prices now1 None prices s)) = (Ok l, s2) /\
    Permutation l
      (map Price_of_row (samples_of pair (table s ++ batch_rows now1 prices)))
    /\ newest_first l /\
    (forall x, In (pair, x) prices -> In (mkPrice pair x now1) l).
Proof.
  intros Hmiss Hsince Hwindow.
  assert (Htable : table (snd (store_prices now1 None prices s))
                   = table s ++ batch_rows now1 prices).
  { rewrite store_prices_ok; [reflexivity | intros k Hk; discriminate]. }
  destruct (store_prices_history_cache now1 None prices s) as [Hcache _].
  set (s1 := snd (store_prices now1 None prices s)) in *.
  rewrite <- Hcache in Hmiss.
  rewrite (get_price_history_miss now2 pair hours since s1 Hmiss Hsince).
  rewrite Htable.
  assert (Hperm : Permutation
                    (select_history pair since
                       (table s ++ batch_rows now1 prices))
                    (samples_of pair (table s ++ batch_rows now1 prices))).
  { unfold select_history.
    eapply perm_trans;
      [apply Permutation_sym, order_by_timestamp_desc_perm|].
    rewrite (filter_window_all pair since _ Hwindow). apply Permutation_refl. }
  eexists. eexists. split; [reflexivity|]. split; [|split].
  - apply Permutation_map. exact Hperm.
  - apply newest_first_map. unfold select_history.
    apply order_by_timestamp_desc_sorted.
  - intros x Hx.
    change (mkPrice pair x now1) with (Price_of_row (mkRow pair x now1)).
    apply in_map.
    apply (Permutation_in _ (Permutation_sym Hperm)).
    unfold samples_of. apply filter_In. split.
    + apply in_or_app. right. unfold batch_rows.
      apply in_map_iff. exists (pair, x). split; [reflexivity | exact Hx].
    + simpl. apply String.eqb_refl.
Qed.

End History.

Lemma store_then_read_history_example :
  let s1 := snd (store_prices t0 None [("btc/usd", 50000#1)]%Q
                   (new_service [])) in
  exists l s3,
    get_price_history (t0 + 2 * second) None "btc/usd" None
      (snd (store_prices (t0 + second) None [("btc/usd", 51000#1)]%Q s1))
    = (Ok l, s3) /\
    map (@Price_price Q) l = [51000#1; 50000#1]%Q.
Proof.
  intros s1.
  destruct (store_then_read_history s1 (t0 + second) (t0 + 2 * second)
              [("btc/usd", 51000#1)]%Q "btc/usd" None
              (t0 + 2 * second - 24 * usec_per_hour))
    as (l & s3 & Hcall & _).
  - reflexivity.
  - reflexivity.
  - intros r Hr. simpl in Hr.
    destruct Hr as [<-|[<-|[]]]; vm_compute; reflexivity.
  - exists l, s3. split; [exact Hcall|].
    vm_compute in Hcall. inversion Hcall. reflexivity.
Defined.

(** ** get_volatility_rank *)

Section Rank.

Context {float : Type}.
Variable STDDEV : list float -> float.
Variable float_le : float -> float -> bool.

Hypothesis float_le_total :
  forall x y, float_le x y = true \/ float_le y x = true.
Hypothesis float_le_trans :
  forall x y z, float_le x y = true -> float_le y z = true ->
                float_le x z = true.

Lemma float_le_refl (x : float) : float_le x x = true.
Proof. destruct (float_le_total x x); assumption. Qed.

Lemma higher_le (x y : float) :
  higher float_le x y = true -> float_le y x = true.
Proof.
  unfold higher. intros H. apply negb_true_iff in H.
  destruct (float_le_total x y) as [H'|H']; [congruence | exact H'].
Qed.

(** *** Grouping *)

Lemma dict_get_append {A : Type} (d : dict (list A)) (k k' : string)
  (v : A) :
  dict_get (dict_append d k v) k'
  = if String.eqb k' k
    then Some (match dict_get d k with
               | Some vs => vs ++ [v]
               | None => [v]
               end)
    else dict_get d k'.
Proof.
  induction d as [|[k0 vs0] rest IH]; simpl.
  - reflexivity.
  - destruct (String.eqb k k0) eqn:E; simpl.
    + apply String.eqb_eq in E. subst k0.
      destruct (String.eqb k' k); reflexivity.
    + rewrite IH. destruct (String.eqb k' k0) eqn:E0.
      * apply String.eqb_eq in E0. subst k0.
        destruct (String.eqb k' k) eqn:E1; [|reflexivity].
        apply String.eqb_eq in E1. subst k'.
        rewrite String.eqb_refl in E. discriminate.
      * reflexivity.
Qed.

Lemma dict_get_None_keys {V : Type} (d : dict V) (k : string) :
  dict_get d k = None <-> ~ In k (dict_keys d).
Proof.
  induction d as [|[k0 v0] rest IH]; simpl.
  - tauto.
  - destruct (String.eqb k k0) eqn:E.
    + apply String.eqb_eq in E. subst. split; [discriminate|tauto].
    + apply String.eqb_neq in E. rewrite IH. split.
      * intros H [H'|H']; [congruence|tauto].
      * tauto.
Qed.

Lemma dict_append_keys {A : Type} (d : dict (list A)) (k : string) (v : A) :
  dict_keys (dict_append d k v)
  = match dict_get d k with
    | Some _ => dict_keys d
    | None => dict_keys d ++ [k]
    end.
Proof.
  induction d as [|[k0 vs0] rest IH]; simpl.
  - reflexivity.
  - destruct (String.eqb k k0) eqn:E; simpl; [reflexivity|].
    rewrite IH. destruct (dict_get rest k); reflexivity.
Qed.

Lemma dict_append_NoDup {A : Type} (d : dict (list A)) (k : string)
  (v : A) :
  NoDup (dict_keys d) -> NoDup (dict_keys (dict_append d k v)).
Proof.
  intros H. rewrite dict_append_keys.
  destruct (dict_get d k) eqn:E; [exact H|].
  apply dict_get_None_keys in E.
  apply NoDup_app; [exact H | repeat constructor; intros [] |].
  intros x Hx [<-|[]]. contradiction.
Qed.

Lemma dict_get_In {V : Type} (d : dict V) (k : string) (v : V) :
  NoDup (dict_keys d) ->
  (In (k, v) d <-> dict_get d k = Some v).
Proof.
  induction d as [|[k0 v0] rest IH]; simpl; intros Hnd.
  - split; [tauto | discriminate].
  - inversion Hnd as [|? ? Hnotin Hnd']; subst.
    destruct (String.eqb k k0) eqn:E.
    + apply String.eqb_eq in E. subst k0. split.
      * intros [H|H]; [congruence|].
        exfalso. apply Hnotin. unfold dict_keys.
        apply in_map_iff. exists (k, v). split; [reflexivity | exact H].
      * intros H. left. congruence.
    + apply String.eqb_neq in E. rewrite <- (IH Hnd'). split.
      * intros [H|H]; [congruence | exact H].
      * tauto.
Qed.

Lemma group_fold_get (pair : string) (rows : list (Row float)) :
  forall groups,
    dict_get
      (fold_left (fun g r => dict_append g (row_pair r) (row_price r))
                 rows groups) pair
    = combine_group (dict_get groups pair) (prices_of pair rows).
Proof.
  unfold prices_of.
  induction rows as [|r rest IH]; intros groups; simpl.
  - destruct (dict_get groups pair); simpl;
      [rewrite app_nil_r|]; reflexivity.
  - rewrite IH, dict_get_append.
    destruct (String.eqb (row_pair r) pair) eqn:E.
    + apply String.eqb_eq in E. subst pair. rewrite String.eqb_refl.
      simpl. destruct (dict_get groups (row_pair r)); simpl.
      * rewrite <- app_assoc. reflexivity.
      * reflexivity.
    + rewrite String.eqb_sym, E. reflexivity.
Qed.

Lemma group_fold_NoDup (rows : list (Row float)) :
  forall groups : dict (list float),
    NoDup (dict_keys groups) ->
    NoDup (dict_keys
             (fold_left (fun g r => dict_append g (row_pair r) (row_price r))
                        rows groups)).
Proof.
  induction rows as [|r rest IH]; intros groups H; simpl.
  - exact H.
  - apply IH, dict_append_NoDup, H.
Qed.

Lemma group_by_pair_get (pair : string) (rows : list (Row float)) :
  dict_get (group_by_pair rows) pair
  = match prices_of pair rows with
    | [] => None
    | vs => Some vs
    end.
Proof.
  unfold group_by_pair. rewrite group_fold_get. simpl.
  destruct (prices_of pair rows); reflexivity.
Qed.

Lemma group_by_pair_NoDup (rows : list (Row float)) :
  NoDup (dict_keys (group_by_pair rows)).
Proof. apply group_fold_NoDup. constructor. Qed.

(** *** The rows of [pair_stddev] *)

Lemma pair_stddev_In (now : Z) (t : list (Row float)) (pair : string)
  (x : float) :
  In (pair, x) (pair_stddev STDDEV now t) <->
  (2 <= List.length (window_prices now t pair))%nat /\
  x = window_std_dev STDDEV now t pair.
Proof.
  unfold pair_stddev, window_std_dev, window_prices.
  fold (prices_of pair (filter (in_trailing_window now) t)).
  rewrite in_map_iff. split.
  - intros [[p vs] [Heq Hin]]. simpl in Heq. inversion Heq; subst p x.
    apply filter_In in Hin. destruct Hin as [Hin Hlen]. simpl in Hlen.
    apply (dict_get_In _ _ _ (group_by_pair_NoDup _)) in Hin.
    rewrite group_by_pair_get in Hin.
    destruct (prices_of pair _) as [|v vs'] eqn:E; [discriminate|].
    inversion Hin; subst vs. apply Nat.ltb_lt in Hlen.
    split; [lia | reflexivity].
  - intros [Hlen ->].
    exists (pair, prices_of pair (filter (in_trailing_window now) t)).
    split; [reflexivity|]. apply filter_In. split.
    + apply (dict_get_In _ _ _ (group_by_pair_NoDup _)).
      rewrite group_by_pair_get.
      destruct (prices_of pair _); [simpl in Hlen; lia | reflexivity].
    + simpl. apply Nat.ltb_lt. lia.
Qed.

Lemma NoDup_filter_keys {V : Type} (keep : string * V -> bool)
  (d : dict V) :
  NoDup (dict_keys d) -> NoDup (dict_keys (filter keep d)).
Proof.
  unfold dict_keys. induction d as [|[k v] rest IH]; simpl; intros H.
  - constructor.
  - inversion H as [|? ? Hnotin Hnd]; subst.
    destruct (keep (k, v)); simpl; [|apply IH, Hnd].
    constructor; [|apply IH, Hnd].
    intros Hin. apply Hnotin. apply in_map_iff in Hin.
    destruct Hin as [y [Hy Hin]]. apply filter_In in Hin.
    apply in_map_iff. exists y. tauto.
Qed.

Lemma pair_stddev_NoDup (now : Z) (t : list (Row float)) :
  NoDup (map fst (pair_stddev STDDEV now t)).
Proof.
  unfold pair_stddev. rewrite map_map. simpl.
  apply (NoDup_filter_keys _ _ (group_by_pair_NoDup _)).
Qed.

(** *** Ordering and ranking *)

Lemma insert_by_std_dev_perm (x : string * float)
  (l : list (string * float)) :
  Permutation (x :: l) (insert_by_std_dev float_le x l).
Proof.
  induction l as [|y rest IH]; simpl.
  - apply Permutation_refl.
  - destruct (float_le (snd x) (snd y)).
    + eapply perm_trans; [apply perm_swap|]. apply perm_skip, IH.
    + apply Permutation_refl.
Qed.

Lemma order_by_std_dev_desc_perm (rows : list (string * float)) :
  Permutation rows (order_by_std_dev_desc float_le rows).
Proof.
  induction rows as [|r rest IH]; simpl.
  - constructor.
  - eapply perm_trans; [apply perm_skip, IH|].
    apply insert_by_std_dev_perm.
Qed.

Lemma insert_by_std_dev_sorted (x : string * float)
  (l : list (string * float)) :
  StronglySorted (std_dev_desc float_le) l ->
  StronglySorted (std_dev_desc float_le) (insert_by_std_dev float_le x l).
Proof.
  induction 1 as [|y rest Hsorted IH Hall]; simpl.
  - constructor; constructor.
  - destruct (float_le (snd x) (snd y)) eqn:E.
    + constructor; [exact IH|].
      eapply Permutation_Forall; [apply insert_by_std_dev_perm|].
      constructor; [exact E | exact Hall].
    + assert (Hyx : float_le (snd y) (snd x) = true).
      { destruct (float_le_total (snd x) (snd y)); congruence. }
      constructor.
      * constructor; assumption.
      * constructor; [exact Hyx|].
        eapply Forall_impl; [|exact Hall].
        intros z Hz. unfold std_dev_desc in *.
        eapply float_le_trans; eassumption.
Qed.

Lemma order_by_std_dev_desc_sorted (rows : list (string * float)) :
  StronglySorted (std_dev_desc float_le)
                 (order_by_std_dev_desc float_le rows).
Proof.
  induction rows as [|r rest IH]; simpl.
  - constructor.
  - apply insert_by_std_dev_sorted, IH.
Qed.

Lemma sorted_middle (pre rest : list (string * float))
  (a : string * float) :
  StronglySorted (std_dev_desc float_le) (pre ++ a :: rest) ->
  Forall (fun z => float_le (snd a) (snd z) = true) pre /\
  Forall (fun z => float_le (snd z) (snd a) = true) rest.
Proof.
  induction pre as [|b pre IH]; simpl; intros H.
  - inversion H; subst. split; [constructor | assumption].
  - inversion H as [|? ? Hs Hall]; subst.
    destruct (IH Hs) as [H1 H2]. split; [|exact H2].
    constructor; [|exact H1].
    rewrite Forall_forall in Hall. apply Hall.
    apply in_or_app. right. left. reflexivity.
Qed.

Lemma count_higher_app (x : float) (l1 l2 : list (string * float)) :
  count_higher float_le x (l1 ++ l2)
  = (count_higher float_le x l1 + count_higher float_le x l2)%nat.
Proof. unfold count_higher. rewrite filter_app, length_app. reflexivity. Qed.

Lemma count_higher_none (x : float) (l : list (string * float)) :
  Forall (fun z => float_le (snd z) x = true) l ->
  count_higher float_le x l = 0%nat.
Proof.
  unfold count_higher, higher. induction 1 as [|z rest Hz _ IH]; simpl.
  - reflexivity.
  - rewrite Hz. simpl. exact IH.
Qed.

Lemma count_higher_all (x : float) (l : list (string * float)) :
  Forall (fun z => float_le (snd z) x = false) l ->
  count_higher float_le x l = List.length l.
Proof.
  unfold count_higher, higher. induction 1 as [|z rest Hz _ IH]; simpl.
  - reflexivity.
  - rewrite Hz. simpl. f_equal. exact IH.
Qed.

Lemma count_higher_perm (x : float) (l l' : list (string * float)) :
  Permutation l l' -> count_higher float_le x l = count_higher float_le x l'.
Proof.
  intros H. unfold count_higher. apply Permutation_length.
  induction H; simpl.
  - constructor.
  - destruct (higher float_le (snd x0) x); [apply perm_skip|]; assumption.
  - destruct (higher float_le (snd x0) x), (higher float_le (snd y) x);
      try apply Permutation_refl. apply perm_swap.
  - eapply perm_trans; eassumption.
Qed.

Lemma higher_peers (x y z : float) :
  peers float_le x y = true ->
  higher float_le z x = higher float_le z y.
Proof.
  unfold peers, higher. intros H. apply andb_true_iff in H.
  destruct H as [Hxy Hyx]. f_equal.
  destruct (float_le z x) eqn:E1, (float_le z y) eqn:E2; try reflexivity.
  - rewrite (float_le_trans z x y E1 Hxy) in E2. discriminate.
  - rewrite (float_le_trans z y x E2 Hyx) in E1. discriminate.
Qed.

Lemma count_higher_peers (x y : float) (l : list (string * float)) :
  peers float_le x y = true ->
  count_higher float_le x l = count_higher float_le y l.
Proof.
  intros H. unfold count_higher. f_equal. apply filter_ext.
  intros z. apply higher_peers, H.
Qed.

Lemma filter_length_lt {A : Type} (f g : A -> bool) (l : list A) (a : A) :
  (forall z, f z = true -> g z = true) ->
  In a l -> f a = false -> g a = true ->
  (List.length (filter f l) < List.length (filter g l))%nat.
Proof.
  intros Hfg. 
  assert (Hle : forall l', (List.length (filter f l')
                            <= List.length (filter g l'))%nat).
  { induction l' as [|z rest IH]; simpl; [lia|].
    destruct (f z) eqn:E.
    - rewrite (Hfg z E). simpl. lia.
    - destruct (g z); simpl; lia. }
  induction l as [|z rest IH]; simpl; intros Hin Hf Hg.
  - contradiction.
  - destruct Hin as [->|Hin].
    + rewrite Hf, Hg. simpl. specialize (Hle rest). lia.
    + specialize (IH Hin Hf Hg). destruct (f z) eqn:E.
      * rewrite (Hfg z E). simpl. lia.
      * destruct (g z); simpl; lia.
Qed.

Lemma count_higher_lt (x y : float) (p : string)
  (l : list (string * float)) :
  In (p, x) l -> higher float_le x y = true ->
  (count_higher float_le x l < count_higher float_le y l)%nat.
Proof.
  intros Hin Hxy. unfold count_higher.
  apply (filter_length_lt _ _ l (p, x)).
  - intros z Hz. unfold higher in *.
    apply negb_true_iff in Hz. apply negb_true_iff.
    destruct (float_le (snd z) y) eqn:E; [|reflexivity].
    rewrite (float_le_trans _ _ _ E (higher_le x y Hxy)) in Hz.
    discriminate.
  - exact Hin.
  - simpl. unfold higher. rewrite float_le_refl. reflexivity.
  - exact Hxy.
Qed.

(** [RANK()]: over rows in descending order, the rank of a row is one
    more than the number of rows with a strictly higher value. *)
Lemma rank_rows_spec (rest : list (string * float)) :
  forall (pre : list (string * float)) (prev : option (float * nat)),
    StronglySorted (std_dev_desc float_le) (pre ++ rest) ->
    match prev with
    | None => pre = []
    | Some (y, ry) =>
        (exists q, In (q, y) pre) /\
        Forall (fun z => float_le y (snd z) = true) pre /\
        ry = S (count_higher float_le y pre)
    end ->
    rank_rows float_le (S (List.length pre)) prev rest
    = map (fun row => (fst row,
                       S (count_higher float_le (snd row) (pre ++ rest))))
          rest.
Proof.
  induction rest as [|[p x] rest IH]; intros pre prev Hsorted Hprev.
  - reflexivity.
  - destruct (sorted_middle pre rest (p, x) Hsorted) as [Hpre Hrest].
    simpl in Hpre, Hrest.
    set (r := match prev with
              | Some (y, ry) =>
                  if peers float_le x y then ry else S (List.length pre)
              | None => S (List.length pre)
              end).
    assert (Hr : r = S (count_higher float_le x pre)).
    { subst r. destruct prev as [[y ry]|].
      - destruct Hprev as ([q Hq] & Hmin & ->).
        destruct (peers float_le x y) eqn:E.
        + f_equal. symmetry. apply count_higher_peers, E.
        + f_equal. symmetry. apply count_higher_all.
          rewrite Forall_forall in *. intros z Hz.
          destruct (float_le (snd z) x) eqn:Ez; [|reflexivity].
          exfalso. unfold peers in E.
          pose proof (Hpre (q, y) Hq) as Hxy. simpl in Hxy.
          rewrite Hxy in E. simpl in E.
          rewrite (float_le_trans _ _ _ (Hmin z Hz) Ez) in E.
          discriminate.
      - subst pre. reflexivity. }
    assert (Htotal : count_higher float_le x (pre ++ (p, x) :: rest)
                     = count_higher float_le x pre).
    { rewrite count_higher_app.
      change ((p, x) :: rest) with ([(p, x)] ++ rest).
      rewrite count_higher_app, (count_higher_none x rest Hrest).
      unfold count_higher at 2. simpl. unfold higher.
      rewrite float_le_refl. simpl. lia. }
    simpl. fold r. rewrite Htotal, <- Hr. f_equal.
    specialize (IH (pre ++ [(p, x)]) (Some (x, r))).
    rewrite length_app, Nat.add_1_r, <- app_assoc in IH. simpl in IH.
    apply IH; [exact Hsorted|].
    split; [|split].
    + exists p. apply in_or_app. right. left. reflexivity.
    + apply Forall_app. split; [exact Hpre|].
      constructor; [apply float_le_refl | constructor].
    + rewrite Hr, count_higher_app. unfold count_higher at 3. simpl.
      unfold higher. rewrite float_le_refl. simpl. lia.
Qed.

Lemma pair_ranks_spec (now : Z) (t : list (Row float)) :
  pair_ranks STDDEV float_le now t
  = map (fun row =>
           (fst row,
            S (count_higher float_le (snd row) (pair_stddev STDDEV now t))))
        (order_by_std_dev_desc float_le (pair_stddev STDDEV now t)).
Proof.
  unfold pair_ranks.
  rewrite (rank_rows_spec _ [] None); simpl.
  - apply map_ext. intros row. f_equal. f_equal.
    apply count_higher_perm, Permutation_sym, order_by_std_dev_desc_perm.
  - apply order_by_std_dev_desc_sorted.
  - reflexivity.
Qed.

(** *** The selected row *)

Lemma filter_key_unique {V : Type} (l : list (string * V)) (k : string)
  (v : V) :
  NoDup (map fst l) -> In (k, v) l ->
  filter (fun row => String.eqb (fst row) k) l = [(k, v)].
Proof.
  induction l as [|[k0 v0] rest IH]; simpl; intros Hnd Hin.
  - contradiction.
  - inversion Hnd as [|? ? Hnotin Hnd']; subst.
    destruct Hin as [Heq|Hin].
    + inversion Heq; subst k0 v0. rewrite String.eqb_refl. f_equal.
      clear IH Hnd Hnd'. induction rest as [|[k1 v1] rest IH]; simpl.
      * reflexivity.
      * simpl in Hnotin. destruct (String.eqb k1 k) eqn:E.
        -- apply String.eqb_eq in E. tauto.
        -- apply IH. tauto.
    + destruct (String.eqb k0 k) eqn:E.
      * apply String.eqb_eq in E. subst k0. exfalso. apply Hnotin.
        apply in_map_iff. exists (k, v). split; [reflexivity | exact Hin].
      * apply IH; assumption.
Qed.

Lemma filter_key_absent {V : Type} (l : list (string * V)) (k : string) :
  ~ In k (map fst l) ->
  filter (fun row => String.eqb (fst row) k) l = [].
Proof.
  induction l as [|[k0 v0] rest IH]; simpl; intros Hnot.
  - reflexivity.
  - destruct (String.eqb k0 k) eqn:E.
    + apply String.eqb_eq in E. tauto.
    + apply IH. tauto.
Qed.

Lemma filter_map_key {V W : Type} (g : string * V -> string * W)
  (k : string) (l : list (string * V)) :
  (forall row, fst (g row) = fst row) ->
  filter (fun pr => String.eqb (fst pr) k) (map g l)
  = map g (filter (fun row => String.eqb (fst row) k) l).
Proof.
  intros Hg. induction l as [|row rest IH]; simpl; [reflexivity|].
  rewrite Hg. destruct (String.eqb (fst row) k); simpl; [f_equal|]; exact IH.
Qed.

(** The query yields one row for a pair with two or more samples in the
    window and none for any other pair. *)
Lemma select_rank_spec (now : Z) (t : list (Row float)) (pair : string) :
  select_rank STDDEV float_le now t pair
  = if (2 <=? List.length (window_prices now t pair))%nat
    then [S (count_higher float_le (window_std_dev STDDEV now t pair)
                          (pair_stddev STDDEV now t))]
    else [].
Proof.
  unfold select_rank. rewrite pair_ranks_spec.
  set (rank_of := fun row : string * float =>
                    (fst row,
                     S (count_higher float_le (snd row)
                          (pair_stddev STDDEV now t)))).
  set (sorted := order_by_std_dev_desc float_le (pair_stddev STDDEV now t)).
  assert (Hperm : Permutation (pair_stddev STDDEV now t) sorted)
    by apply order_by_std_dev_desc_perm.
  rewrite (filter_map_key rank_of) by reflexivity.
  destruct (2 <=? List.length (window_prices now t pair))%nat eqn:E.
  - apply Nat.leb_le in E.
    assert (Hin : In (pair, window_std_dev STDDEV now t pair) sorted).
    { apply (Permutation_in _ Hperm). apply pair_stddev_In. tauto. }
    assert (Hnd : NoDup (map fst sorted)).
    { apply (Permutation_NoDup (Permutation_map fst Hperm)).
      apply pair_stddev_NoDup. }
    rewrite (filter_key_unique sorted pair _ Hnd Hin). reflexivity.
  - apply Nat.leb_gt in E.
    rewrite filter_key_absent; [reflexivity|].
    intros Hin. apply in_map_iff in Hin.
    destruct Hin as [[p x] [Hp Hin]]. simpl in Hp. subst p.
    apply (Permutation_in _ (Permutation_sym Hperm)) in Hin.
    apply pair_stddev_In in Hin. lia.
Qed.

(** A call that is not served from the cache and meets no fault runs the
    query against the table. *)
Lemma get_volatility_rank_miss (now : Z) (pair : string)
  (s : State float) :
  lru_find String.eqb pair (rank_cache s) = None ->
  get_volatility_rank STDDEV float_le now None pair s
  = (Ok (fetchone (select_rank STDDEV float_le now (table s) pair)),
     set_rank_cache
       (lru_store String.eqb maxsize pair
          (fetchone (select_rank STDDEV float_le now (table s) pair))
          (rank_cache s))
       (log_db (SelectRank pair) (log_db Connect s))).
Proof.
  intros Hmiss. unfold get_volatility_rank. rewrite Hmiss. reflexivity.
Qed.

(** A call of [get_volatility_rank] that is not served
    from the cache and meets no database fault returns no rank exactly
    when the pair has fewer than two samples in the trailing 24-hour
    window.  Otherwise it returns a rank of at least 1, one more than the
    number of ranked pairs whose standard deviation is strictly higher:
    against any other pair ranked by such a call, a strictly higher
    standard deviation gives a strictly lower rank and an equal one the
    same rank. *)
Theorem get_volatility_rank_ranks (now : Z) (pair : string)
  (s : State float) :
  lru_find String.eqb pair (rank_cache s) = None ->
  exists r s',
    get_volatility_rank STDDEV float_le now None pair s = (Ok r, s') /\
    (r = None <->
     (List.length (window_prices now (table s) pair) < 2)%nat) /\
    (forall k, r = Some k ->
       (1 <= k)%nat /\
       k = S (count_higher float_le
                (window_std_dev STDDEV now (table s) pair)
                (pair_stddev STDDEV now (table s))) /\
       forall q kq sq,
         lru_find String.eqb q (rank_cache s) = None ->
         get_volatility_rank STDDEV float_le now None q s
         = (Ok (Some kq), sq) ->
         (higher float_le (window_std_dev STDDEV now (table s) pair)
                 (window_std_dev STDDEV now (table s) q) = true ->
          (k < kq)%nat) /\
         (peers float_le (window_std_dev STDDEV now (table s) pair)
                (window_std_dev STDDEV now (table s) q) = true ->
          k = kq)).
Proof.
  intros Hmiss. rewrite (get_volatility_rank_miss now pair s Hmiss).
  eexists. eexists. split; [reflexivity|].
  rewrite select_rank_spec.
  destruct (2 <=? List.length (window_prices now (table s) pair))%nat
    eqn:E; simpl.
  - apply Nat.leb_le in E. split.
    + split; [discriminate | lia].
    + intros k Hk. inversion Hk as [Hk']. clear Hk.
      split; [lia|]. split; [reflexivity|].
      intros q kq sq Hq Hcall.
      rewrite (get_volatility_rank_miss now q s Hq) in Hcall.
      rewrite select_rank_spec in Hcall.
      destruct (2 <=? List.length (window_prices now (table s) q))%nat
        eqn:Eq; simpl in Hcall; [|discriminate].
      inversion Hcall as [[Hkq Hsq]]. clear Hcall. subst k. split.
      * intros Hhigher.
        apply -> Nat.succ_lt_mono.
        apply (count_higher_lt _ _ pair); [|exact Hhigher].
        apply pair_stddev_In. split; [exact E | reflexivity].
      * intros Hpeers. f_equal. apply count_higher_peers, Hpeers.
  - apply Nat.leb_gt in E. split.
    + split; [intros _; exact E | reflexivity].
    + intros k Hk. discriminate.
Qed.

(** *** The two window bounds *)

Lemma get_price_history_body_result (now : Z) (f : fault) (pair : string)
  (hours : Z) (s s' : State float) (l : list (Price float)) :
  get_price_history_body now f pair hours s = (Ok l, s') ->
  exists since,
    window_start now hours = Ok since /\
    l = map Price_of_row (select_history pair since (table s)).
Proof.
  unfold get_price_history_body.
  destruct (fails f 0); [discriminate|].
  destruct (window_start now hours) as [since|]; [|discriminate].
  destruct (fails f 1); [discriminate|].
  simpl. intros H. inversion H. exists since. split; reflexivity.
Qed.

Lemma filter_twice {A : Type} (f g : A -> bool) (l : list A) :
  filter g (filter f l) = filter (fun a => f a && g a) l.
Proof.
  induction l as [|a rest IH]; cbn [filter]; [reflexivity|].
  destruct (f a); cbn [filter andb].
  - destruct (g a); rewrite IH; reflexivity.
  - exact IH.
Qed.

Lemma filter_length_le {A : Type} (f g : A -> bool) (l : list A) :
  (forall z, f z = true -> g z = true) ->
  (List.length (filter f l) <= List.length (filter g l))%nat.
Proof.
  intros Hfg. induction l as [|z rest IH]; cbn [filter]; [lia|].
  destruct (f z) eqn:E.
  - rewrite (Hfg z E). simpl. lia.
  - destruct (g z); simpl; lia.
Qed.

Lemma boundary_in_window (now : Z) (t : list (Row float))
  (pair : string) :
  (List.length (samples_at_boundary now t pair)
   <= List.length (window_prices now t pair))%nat.
Proof.
  unfold samples_at_boundary, window_prices.
  rewrite length_map, filter_twice.
  apply filter_length_le. intros r Hr. unfold in_trailing_window.
  apply andb_true_iff in Hr. destruct Hr as [Hp Ht].
  apply Z.eqb_eq in Ht. rewrite Hp, andb_true_r.
  apply Z.leb_le. lia.
Qed.

Lemma rank_rows_fst (rows : list (string * float)) :
  forall n prev, map fst (rank_rows float_le n prev rows) = map fst rows.
Proof.
  induction rows as [|[p x] rest IH]; intros n prev; simpl.
  - reflexivity.
  - rewrite IH. reflexivity.
Qed.

Lemma filter_key_present {V : Type} (l : list (string * V)) (k : string) :
  In k (map fst l) ->
  exists v, fetchone (map snd (filter (fun row => String.eqb (fst row) k) l))
            = Some v.
Proof.
  induction l as [|[k0 v0] rest IH]; simpl; intros Hin.
  - contradiction.
  - destruct (String.eqb k0 k) eqn:E.
    + exists v0. reflexivity.
    + apply String.eqb_neq in E. destruct Hin as [Heq|Hin];
        [contradiction | apply IH, Hin].
Qed.

(** A pair with two samples in the window has a row in [pair_ranks],
    whatever the ordering of the values. *)
Lemma select_rank_ranked (now : Z) (t : list (Row float)) (pair : string) :
  (2 <= List.length (window_prices now t pair))%nat ->
  exists k, fetchone (select_rank STDDEV float_le now t pair) = Some k.
Proof.
  intros Hlen. unfold select_rank. apply filter_key_present.
  unfold pair_ranks. rewrite rank_rows_fst.
  apply (Permutation_in _
           (Permutation_map fst (order_by_std_dev_desc_perm _))).
  apply in_map_iff. exists (pair, window_std_dev STDDEV now t pair).
  split; [reflexivity|]. apply pair_stddev_In. tauto.
Qed.

(** C10. The two windows treat their boundary differently.  The
    [SELECT] of [get_price_history] keeps [timestamp > since]: every
    sample the function returns is strictly newer than [now] minus the
    requested hours, so a sample exactly that old is left out.  The
    query of [get_volatility_rank] keeps [timestamp >= NOW() - 24h]: a
    sample exactly 24 hours old lies in the window, and a pair with two
    such samples is ranked. *)
Theorem window_bounds_differ (now : Z) (pair : string) (s : State float) :
  (forall f hours l s',
     get_price_history_body now f pair hours s = (Ok l, s') ->
     forall p, In p l ->
       (now - hours * usec_per_hour < Price_timestamp p)%Z) /\
  (forall r : Row float,
     row_timestamp r = (now - 24 * usec_per_hour)%Z ->
     in_trailing_window now r = true) /\
  ((2 <= List.length (samples_at_boundary now (table s) pair))%nat ->
   exists k s',
     get_volatility_rank_body STDDEV float_le now None pair s
     = (Ok (Some k), s')).
Proof.
  split; [|split].
  - intros f hours l s' Hcall p Hp.
    destruct (get_price_history_body_result now f pair hours s s' l Hcall)
      as (since & Hsince & ->).
    apply window_start_value in Hsince. rewrite <- Hsince.
    apply in_map_iff in Hp. destruct Hp as [r [<- Hr]].
    apply select_history_In in Hr. simpl. tauto.
  - intros r Hr. unfold in_trailing_window. apply Z.leb_le. lia.
  - intros Hboundary. unfold get_volatility_rank_body. simpl.
    pose proof (boundary_in_window now (table s) pair) as Hle.
    destruct (select_rank_ranked now (table s) pair) as [k Hk]; [lia|].
    rewrite Hk. eexists. eexists. reflexivity.
Qed.

End Rank.

Lemma Qle_bool_total (x y : Q) : Qle_bool x y = true \/ Qle_bool y x = true.
Proof.
  rewrite !Qle_bool_iff.
  destruct (Qlt_le_dec x y) as [H|H]; [left; apply Qlt_le_weak, H | right; exact H].
Qed.

Lemma Qle_bool_trans (x y z : Q) :
  Qle_bool x y = true -> Qle_bool y z = true -> Qle_bool x z = true.
Proof. rewrite !Qle_bool_iff. apply Qle_trans. Qed.

Lemma get_volatility_rank_ranks_witness :
  exists r s',
    get_volatility_rank sample_variance Qle_bool (t0 + 2 * second) None
      "btc/usd" (new_service two_batches) = (Ok r, s') /\
    r = Some 1%nat.
Proof.
  destruct (get_volatility_rank_ranks sample_variance Qle_bool
              Qle_bool_total Qle_bool_trans (t0 + 2 * second) "btc/usd"
              (new_service two_batches))
    as (r & s' & Hcall & _ & Hrank).
  - reflexivity.
  - exists r, s'. split; [exact Hcall|].
    destruct r as [k|].
    + destruct (Hrank k eq_refl) as (_ & -> & _). reflexivity.
    + vm_compute in Hcall. discriminate.
Defined.

(** C2.  A memoized call returns the result of the pair's first read,
    whatever the trailing window holds by now.  On the dashboard's
    cycle every pair has one sample at the first read of its rank; 90
    seconds later every pair has two samples in the window, and the read
    of the ranks returns no rank for any pair, where the decorated
    function returns the ranks 1, 2, 3, 4 and four times 5 (the four
    pairs whose price did not move are peers).  The other way round, a
    rank of 1 read two seconds after a pair's samples is still returned
    25 hours later, when the window holds no sample of the pair and the
    decorated function returns no rank. *)
Theorem stale_rank_ignores_window :
  let later := (t0 + 90 * second)%Z in
  let next_day := (t0 + 25 * usec_per_hour)%Z in
  map (fun pair => List.length (window_prices later (table dashboard_service)
                                  pair)) PAIRS
  = [2; 2; 2; 2; 2; 2; 2; 2]%nat /\
  fst (rank_each sample_variance Qle_bool later PAIRS dashboard_service)
  = map (fun pair => (pair, Ok None)) PAIRS /\
  db_log (snd (rank_each sample_variance Qle_bool later PAIRS
                 dashboard_service))
  = db_log dashboard_service /\
  map (fun pair => fst (get_volatility_rank_body sample_variance Qle_bool
                          later None pair dashboard_service)) PAIRS
  = map (fun k => Ok (Some k)) [1; 2; 3; 4; 5; 5; 5; 5]%nat /\
  window_prices next_day (table ranked_service) "btc/usd" = [] /\
  fst (get_volatility_rank sample_variance Qle_bool next_day None "btc/usd"
         ranked_service) = Ok (Some 1%nat) /\
  fst (get_volatility_rank_body sample_variance Qle_bool next_day None
         "btc/usd" ranked_service) = Ok None.
Proof. vm_compute. repeat split; reflexivity. Qed.

Lemma window_bounds_differ_witness :
  (forall l s',
     get_price_history_body t0 None "btc/usd" 24 (new_service day_old)
     = (Ok l, s') ->
     forall p, In p l -> (t0 - 24 * usec_per_hour < Price_timestamp p)%Z) /\
  exists k s',
    get_volatility_rank_body sample_variance Qle_bool t0 None "btc/usd"
      (new_service day_old) = (Ok (Some k), s').
Proof.
  destruct (window_bounds_differ sample_variance Qle_bool t0 "btc/usd"
              (new_service day_old)) as (Hhistory & _ & Hrank).
  split.
  - intros l s' Hcall p Hp.
    apply (Hhistory None 24%Z l s'); [exact Hcall | exact Hp].
  - apply Hrank. vm_compute. lia.
Defined.

(** ** The memoization *)

Section Cache.

Context {float : Type}.
Variable STDDEV : list float -> float.
Variable float_le : float -> float -> bool.

Lemma history_key_eqb_refl (k : history_key) : history_key_eqb k k = true.
Proof.
  destruct k as [p [h|]]; unfold history_key_eqb; simpl;
    rewrite String.eqb_refl; [apply Z.eqb_refl | reflexivity].
Qed.

Lemma lru_find_touch {K V : Type} (eqb : K -> K -> bool) (k : K) (v : V)
  (c : list (K * V)) :
  eqb k k = true -> lru_find eqb k (lru_touch eqb k v c) = Some v.
Proof. intros H. unfold lru_touch. simpl. rewrite H. reflexivity. Qed.

Lemma lru_find_store {K V : Type} (eqb : K -> K -> bool) (n : nat) (k : K)
  (v : V) (c : list (K * V)) :
  eqb k k = true -> lru_find eqb k c = None ->
  lru_find eqb k (lru_store eqb n k v c) = Some v.
Proof.
  intros H Hc. unfold lru_store. rewrite Hc.
  destruct (List.length c <? n)%nat; simpl; rewrite H; reflexivity.
Qed.

(** A call whose arguments are memoized returns the memoized value and
    sends nothing to the database, whatever the clock and the state of
    the database. *)
Lemma get_price_history_hit (now : Z) (f : fault) (pair : string)
  (hours : option Z) (s : State float) (l : list (Price float)) :
  lru_find history_key_eqb (pair, hours) (history_cache s) = Some l ->
  exists s',
    get_price_history now f pair hours s = (Ok l, s') /\
    table s' = table s /\ db_log s' = db_log s /\
    lru_find history_key_eqb (pair, hours) (history_cache s') = Some l.
Proof.
  intros Hhit. unfold get_price_history. rewrite Hhit.
  eexists. split; [reflexivity|]. simpl. repeat split.
  apply lru_find_touch, history_key_eqb_refl.
Qed.

Lemma get_volatility_rank_hit (now : Z) (f : fault) (pair : string)
  (s : State float) (r : option nat) :
  lru_find String.eqb pair (rank_cache s) = Some r ->
  exists s',
    get_volatility_rank STDDEV float_le now f pair s = (Ok r, s') /\
    table s' = table s /\ db_log s' = db_log s /\
    lru_find String.eqb pair (rank_cache s') = Some r.
Proof.
  intros Hhit. unfold get_volatility_rank. rewrite Hhit.
  eexists. split; [reflexivity|]. simpl. repeat split.
  apply lru_find_touch, String.eqb_refl.
Qed.

(** A call that returns leaves its result memoized under its arguments. *)
Lemma get_price_history_memoizes (now : Z) (f : fault) (pair : string)
  (hours : option Z) (s s' : State float) (l : list (Price float)) :
  get_price_history now f pair hours s = (Ok l, s') ->
  lru_find history_key_eqb (pair, hours) (history_cache s') = Some l.
Proof.
  unfold get_price_history.
  destruct (lru_find history_key_eqb (pair, hours) (history_cache s))
    as [v|] eqn:E.
  - intros H. inversion H; subst. simpl.
    apply lru_find_touch, history_key_eqb_refl.
  - unfold get_price_history_body.
    destruct (fails f 0); [discriminate|].
    destruct (window_start now _) as [since|]; [|discriminate].
    destruct (fails f 1); [discriminate|].
    intros H. inversion H; subst. simpl.
    rewrite history_key_eqb_refl. reflexivity.
Qed.

Lemma get_volatility_rank_memoizes (now : Z) (f : fault) (pair : string)
  (s s' : State float) (r : option nat) :
  get_volatility_rank STDDEV float_le now f pair s = (Ok r, s') ->
  lru_find String.eqb pair (rank_cache s') = Some r.
Proof.
  unfold get_volatility_rank.
  destruct (lru_find String.eqb pair (rank_cache s)) as [v|] eqn:E.
  - intros H. inversion H; subst. simpl.
    apply lru_find_touch, String.eqb_refl.
  - unfold get_volatility_rank_body.
    destruct (fails f 0); [discriminate|].
    destruct (fails f 1); [discriminate|].
    intros H. inversion H; subst. simpl.
    apply lru_find_store; [apply String.eqb_refl | exact E].
Qed.

(** The same for the history: the entry that a returning call stores
    answers every later call with the same arguments while it is there. *)
Lemma memoized_history_repeats (now1 now2 : Z) (f1 f2 : fault)
  (pair : string) (hours : option Z) (s s1 s2 : State float)
  (l : list (Price float)) :
  get_price_history now1 f1 pair hours s = (Ok l, s1) ->
  history_cache s2 = history_cache s1 ->
  exists s3,
    get_price_history now2 f2 pair hours s2 = (Ok l, s3) /\
    db_log s3 = db_log s2 /\ table s3 = table s2.
Proof.
  intros Hcall Hsame.
  apply get_price_history_memoizes in Hcall. rewrite <- Hsame in Hcall.
  destruct (get_price_history_hit now2 f2 pair hours s2 l Hcall)
    as (s3 & H & Ht & Hd & _).
  exists s3. tauto.
Qed.

(** Once a call of [get_volatility_rank] has returned,
    a later call for the same pair, on a service whose cache still holds
    that entry, returns the same result and sends nothing to the
    database, at any later time, in any state of the table and of the
    database: no passage of time makes the call compute again. *)
Theorem memoized_rank_never_expires (now1 now2 : Z) (f1 f2 : fault)
  (pair : string) (s s1 s2 : State float) (r : option nat) :
  get_volatility_rank STDDEV float_le now1 f1 pair s = (Ok r, s1) ->
  lru_find String.eqb pair (rank_cache s2)
  = lru_find String.eqb pair (rank_cache s1) ->
  exists s3,
    get_volatility_rank STDDEV float_le now2 f2 pair s2 = (Ok r, s3) /\
    db_log s3 = db_log s2 /\ table s3 = table s2.
Proof.
  intros Hcall Hsame.
  apply get_volatility_rank_memoizes in Hcall. rewrite <- Hsame in Hcall.
  destruct (get_volatility_rank_hit now2 f2 pair s2 r Hcall)
    as (s3 & H & Ht & Hd & _).
  exists s3. tauto.
Qed.

End Cache.

(** C1.  Neither memoized read expires.  The history and the rank of
    [btc/usd] are read on an empty table at [t0] and two batches are
    stored; 200 seconds after the first reads, more than the 90 seconds
    after which a read is to compute again, both reads still return
    what they returned at [t0] and send nothing to the database, where
    the decorated functions return the two samples and rank 1. *)
Theorem no_ttl_expiry :
  let later := (t0 + 200 * second)%Z in
  (90 * second < later - t0)%Z /\
  fst (get_price_history t0 None "btc/usd" None (new_service [] : State Q))
  = Ok [] /\
  fst (get_volatility_rank sample_variance Qle_bool t0 None "btc/usd"
         (new_service [])) = Ok None /\
  fst (get_price_history later None "btc/usd" None stale_service) = Ok [] /\
  db_log (snd (get_price_history later None "btc/usd" None stale_service))
  = db_log stale_service /\
  fst (get_volatility_rank sample_variance Qle_bool later None "btc/usd"
         stale_service) = Ok None /\
  db_log (snd (get_volatility_rank sample_variance Qle_bool later None
                 "btc/usd" stale_service))
  = db_log stale_service /\
  fst (get_price_history_body later None "btc/usd" default_hours
         stale_service)
  = Ok [mkPrice "btc/usd" (51000#1)%Q (t0 + second);
        mkPrice "btc/usd" (50000#1)%Q t0] /\
  fst (get_volatility_rank_body sample_variance Qle_bool later None
         "btc/usd" stale_service) = Ok (Some 1%nat).
Proof. vm_compute. repeat split; reflexivity. Qed.

Lemma memoized_rank_never_expires_witness :
  let s1 := snd (get_volatility_rank sample_variance Qle_bool t0 None
                   "btc/usd" (new_service [])) in
  exists s3,
    get_volatility_rank sample_variance Qle_bool (t0 + 200 * second) None
      "btc/usd" (snd (store_prices (t0 + second) None two_prices s1))
    = (Ok None, s3).
Proof.
  intros s1.
  destruct (memoized_rank_never_expires sample_variance Qle_bool
              t0 (t0 + 200 * second) None None "btc/usd"
              (new_service []) s1
              (snd (store_prices (t0 + second) None two_prices s1)) None)
    as (s3 & Hcall & _).
  - reflexivity.
  - reflexivity.
  - exists s3. exact Hcall.
Defined.

(** C5, as stated, fails on a read that repeats the arguments of the
    read before it.  The history of [btc/usd] is read on an empty table,
    a batch with a [btc/usd] sample is stored one second later, and the
    next read, with a window that covers the sample, returns the empty
    history and sends nothing to the database. *)
Theorem stale_history_after_store :
  let s1 := snd (get_price_history t0 None "btc/usd" None
                   (new_service [] : State Q)) in
  let s2 := snd (store_prices (t0 + second) None two_prices s1) in
  let later := (t0 + 2 * second)%Z in
  samples_of "btc/usd" (table s2)
  = [mkRow "btc/usd" (50000#1)%Q (t0 + second)] /\
  window_start later default_hours = Ok (later - 24 * usec_per_hour)%Z /\
  fst (get_price_history later None "btc/usd" None s2) = Ok [] /\
  db_log (snd (get_price_history later None "btc/usd" None s2)) = db_log s2 /\
  fst (get_price_history_body later None "btc/usd" default_hours s2)
  = Ok [mkPrice "btc/usd" (50000#1)%Q (t0 + second)].
Proof. vm_compute. repeat split; reflexivity. Qed.

(** * Further properties *)

(** ** Strings and the catalog *)








(** X2. The string form of a pair determines the pair: two pairs with
    the same string have the same base and the same quote. *)
Theorem CurrencyPair_str_injective (p1 p2 : CurrencyPair) :
  CurrencyPair_str p1 = CurrencyPair_str p2 -> p1 = p2.
Proof.
  destruct p1 as [b1 q1], p2 as [b2 q2].
  destruct b1, q1, b2, q2; intros H; try reflexivity; discriminate H.
Qed.

Lemma CurrencyPair_str_injective_witness :
  mkCurrencyPair Base_ETH Quote_BTC = mkCurrencyPair Base_ETH Quote_BTC.
Proof. apply CurrencyPair_str_injective. reflexivity. Defined.

Lemma split_pair_CurrencyPair_str (p : CurrencyPair) :
  split_pair (CurrencyPair_str p)
  = Ok (BaseCurrency_value (base p), QuoteCurrency_value (quote p)).
Proof. destruct p as [b q]. destruct b, q; reflexivity. Qed.

Lemma map_result_snoc {A B : Type} (f : A -> result B) (xs : list A)
  (x : A) (ys : list B) (y : B) :
  map_result f xs = Ok ys -> f x = Ok y ->
  map_result f (xs ++ [x]) = Ok (ys ++ [y]).
Proof.
  revert ys. induction xs as [|a rest IH]; simpl; intros ys Hxs Hx.
  - inversion Hxs; subst. rewrite Hx. reflexivity.
  - destruct (f a) as [b|]; simpl in *; [|discriminate].
    destruct (map_result f rest) as [bs|]; simpl in *; [|discriminate].
    inversion Hxs; subst. rewrite (IH bs eq_refl Hx). reflexivity.
Qed.

Lemma build_quote_groups_resolves (ps : list CurrencyPair) :
  forall acc : dict (list string),
    (forall q bases, In (q, bases) acc ->
                     exists ids, map_result get_coingecko_id bases = Ok ids) ->
    exists groups,
      build_quote_groups (map CurrencyPair_str ps) acc = Ok groups /\
      forall q bases, In (q, bases) groups ->
                      exists ids, map_result get_coingecko_id bases = Ok ids.
Proof.
  induction ps as [|p rest IH]; intros acc Hacc; simpl.
  - exists acc. split; [reflexivity | exact Hacc].
  - rewrite split_pair_CurrencyPair_str. simpl. apply IH.
    clear IH. induction acc as [|[k vs] acc' IHacc]; simpl.
    + intros q bases [Heq|[]]. inversion Heq; subst.
      destruct (base_currencies_supported (base p)) as [m [Hm _]].
      simpl. rewrite Hm. simpl. eexists; reflexivity.
    + destruct (String.eqb (QuoteCurrency_value (quote p)) k).
      * intros q bases [Heq|Hin].
        -- inversion Heq; subst q bases.
           destruct (Hacc k vs (or_introl eq_refl)) as [ids Hids].
           destruct (base_currencies_supported (base p)) as [m [Hm _]].
           exists (ids ++ [CoinGeckoId_value m]).
           apply map_result_snoc; assumption.
        -- apply (Hacc q bases). right. exact Hin.
      * intros q bases [Heq|Hin].
        -- inversion Heq; subst q bases. apply (Hacc k vs). left.
           reflexivity.
        -- apply (IHacc (fun q' bases' H' =>
                             Hacc q' bases' (or_intror H')) q bases Hin).
Qed.

(** X3. Whatever catalog is built from the two enumerations, the
    partition by quote currency goes through and every base of every
    group resolves to an external identifier: on such a catalog a fetch
    can only fail at the price source. *)
Theorem catalog_always_partitions (ps : list CurrencyPair) :
  exists groups,
    build_quote_groups (map CurrencyPair_str ps) [] = Ok groups /\
    forall q bases, In (q, bases) groups ->
                    exists ids, map_result get_coingecko_id bases = Ok ids.
Proof. apply build_quote_groups_resolves. intros q bases []. Qed.

Lemma ascii_upper_idempotent (c : ascii) :
  ascii_upper (ascii_upper c) = ascii_upper c.
Proof.
  destruct c as [[] [] [] [] [] [] [] []]; reflexivity.
Qed.

Lemma ascii_upper_high (c : ascii) :
  (128 <=? nat_of_ascii (ascii_upper c))%nat = true -> ascii_upper c = c.
Proof.
  destruct c as [[] [] [] [] [] [] [] []]; vm_compute;
    intros H; try reflexivity; discriminate H.
Qed.

Lemma upper_lead_high (c : ascii) :
  upper_lead c = true -> (128 <=? nat_of_ascii c)%nat = true.
Proof.
  destruct c as [[] [] [] [] [] [] [] []]; vm_compute;
    intros H; try reflexivity; discriminate H.
Qed.

Lemma upper_2_lead (c1 c2 : ascii) :
  upper_lead c1 = false -> upper_2 c1 c2 = None.
Proof.
  unfold upper_lead, upper_2. intros H.
  apply orb_false_iff in H. destruct H as [H H239].
  apply orb_false_iff in H. destruct H as [H H197].
  apply orb_false_iff in H. destruct H as [H195 H196].
  rewrite H195, H196, H197. reflexivity.
Qed.

Lemma upper_3_lead (c1 c2 c3 : ascii) :
  upper_lead c1 = false -> upper_3 c1 c2 c3 = None.
Proof.
  unfold upper_lead, upper_3. intros H.
  apply orb_false_iff in H. destruct H as [_ H239].
  rewrite H239. reflexivity.
Qed.

Lemma upper_cons_plain (c : ascii) (s : string) :
  upper_lead c = false ->
  upper (String c s) = String (ascii_upper c) (upper s).
Proof.
  intros H. destruct s as [|c2 [|c3 s3]]; cbn [upper].
  - reflexivity.
  - rewrite (upper_2_lead c c2 H). reflexivity.
  - rewrite (upper_2_lead c c2 H), (upper_3_lead c c2 c3 H). reflexivity.
Qed.

Ltac settle :=
  split;
  [ intros t; cbn [append];
    rewrite !upper_cons_plain by reflexivity; reflexivity
  | eexists; eexists; split; reflexivity ].

Lemma upper_2_settled (c1 c2 : ascii) (u : string) :
  upper_2 c1 c2 = Some u -> settled u.
Proof.
  unfold upper_2.
  repeat match goal with
         | |- context [if ?b then _ else _] => destruct b
         end; intros H; inversion H; subst; settle.
Qed.

Lemma upper_3_settled (c1 c2 c3 : ascii) (u : string) :
  upper_3 c1 c2 c3 = Some u -> settled u.
Proof.
  unfold upper_3.
  repeat match goal with
         | |- context [if ?b then _ else _] => destruct b
         end; intros H; inversion H; subst; settle.
Qed.

Lemma upper_2_bytes (c1 c2 : ascii) (u : string) :
  upper_2 c1 c2 = Some u ->
  (128 <=? nat_of_ascii c2)%nat = true /\ upper_lead c2 = false.
Proof.
  unfold upper_2.
  destruct (Ascii.eqb c1 "195" && Ascii.eqb c2 "159") eqn:E1.
  { apply andb_true_iff in E1. destruct E1 as [_ E].
    apply Ascii.eqb_eq in E. subst. intros _. split; reflexivity. }
  destruct (Ascii.eqb c1 "196" && Ascii.eqb c2 "177") eqn:E2.
  { apply andb_true_iff in E2. destruct E2 as [_ E].
    apply Ascii.eqb_eq in E. subst. intros _. split; reflexivity. }
  destruct (Ascii.eqb c1 "197" && Ascii.eqb c2 "191") eqn:E3.
  { apply andb_true_iff in E3. destruct E3 as [_ E].
    apply Ascii.eqb_eq in E. subst. intros _. split; reflexivity. }
  discriminate.
Qed.

Lemma upper_3_bytes (c1 c2 c3 : ascii) (u : string) :
  upper_3 c1 c2 c3 = Some u ->
  c2 = "172"%char /\ (128 <=? nat_of_ascii c3)%nat = true.
Proof.
  unfold upper_3.
  destruct (Ascii.eqb c1 "239" && Ascii.eqb c2 "172") eqn:E; [|discriminate].
  apply andb_true_iff in E. destruct E as [_ E].
  apply Ascii.eqb_eq in E. subst c2.
  repeat match goal with
         | |- context [if Ascii.eqb c3 ?x then _ else _] =>
             destruct (Ascii.eqb c3 x) eqn:?
         end; intros H; try discriminate H;
    match goal with
    | E : Ascii.eqb c3 _ = true |- _ => apply Ascii.eqb_eq in E; subst c3
    end; split; reflexivity.
Qed.

(** The step that [upper] takes at the head of a string. *)
Lemma upper_cons_cases (c : ascii) (s : string) :
  (upper (String c s) = String (ascii_upper c) (upper s) /\
   (forall c2 s2, s = String c2 s2 -> upper_2 c c2 = None) /\
   (forall c2 c3 s3, s = String c2 (String c3 s3) -> upper_3 c c2 c3 = None))
  \/ (exists u s', settled u /\ upper (String c s) = (u ++ upper s')%string /\
                   (String.length s' < String.length s)%nat).
Proof.
  destruct s as [|c2 s2]; cbn [upper].
  { left. split; [reflexivity|]. split; intros; discriminate. }
  destruct (upper_2 c c2) as [u|] eqn:E2.
  { right. exists u, s2. split; [exact (upper_2_settled _ _ _ E2)|].
    split; [reflexivity | simpl; lia]. }
  destruct s2 as [|c3 s3].
  { left. split; [reflexivity|]. split.
    - intros ? ? H. inversion H; subst. exact E2.
    - intros ? ? ? H. discriminate H. }
  destruct (upper_3 c c2 c3) as [u|] eqn:E3.
  { right. exists u, s3. split; [exact (upper_3_settled _ _ _ _ E3)|].
    split; [reflexivity | simpl; lia]. }
  left. split; [reflexivity|]. split.
  - intros ? ? H. inversion H; subst. exact E2.
  - intros ? ? ? H. inversion H; subst. exact E3.
Qed.

(** An output that starts with a byte outside ASCII starts with the byte
    the input started with. *)
Lemma upper_head_high (s : string) (d : ascii) (t : string) :
  upper s = String d t -> (128 <=? nat_of_ascii d)%nat = true ->
  exists s', s = String d s' /\ t = upper s'.
Proof.
  intros H Hd. destruct s as [|c s1]; [discriminate H|].
  destruct (upper_cons_cases c s1) as [(E & _ & _)|(u & s' & Hu & E & _)].
  - rewrite E in H. inversion H as [[Hc Ht]]. subst d.
    rewrite (ascii_upper_high c Hd). exists s1. split; reflexivity.
  - destruct Hu as (_ & a & u' & -> & Ha).
    rewrite E in H. inversion H; subst. congruence.
Qed.

Lemma upper_idempotent_length (n : nat) :
  forall s, (String.length s <= n)%nat -> upper (upper s) = upper s.
Proof.
  induction n as [|n IH]; intros s Hn.
  - destruct s; [reflexivity | simpl in Hn; lia].
  - destruct s as [|c s1]; [reflexivity|].
    simpl in Hn.
    destruct (upper_cons_cases c s1)
      as [(E & N2 & N3)|(u & s' & Hu & E & Hlen)].
    + rewrite E.
      destruct (upper_lead (ascii_upper c)) eqn:L.
      * pose proof (upper_lead_high _ L) as Hhigh.
        pose proof (ascii_upper_high c Hhigh) as Hc. rewrite Hc in *.
        destruct (upper_cons_cases c (upper s1))
          as [(E' & _ & _)|(u & s' & Hu & E' & _)].
        -- rewrite E', Hc, IH by lia. reflexivity.
        -- exfalso. clear IH.
           destruct (upper s1) as [|d2 t2] eqn:U1.
           { cbn [upper] in E'. destruct Hu as (_ & a & u' & -> & Ha).
             inversion E'; subst. congruence. }
           cbn [upper] in E'.
           destruct (upper_2 c d2) as [u0|] eqn:E2.
           { destruct (upper_2_bytes _ _ _ E2) as [Hd2 _].
             destruct (upper_head_high s1 d2 t2 U1 Hd2) as (s2 & -> & _).
             rewrite (N2 d2 s2 eq_refl) in E2. discriminate. }
           destruct t2 as [|d3 t3].
           { destruct Hu as (_ & a & u' & -> & Ha).
             inversion E'; subst. congruence. }
           destruct (upper_3 c d2 d3) as [u0|] eqn:E3.
           { destruct (upper_3_bytes _ _ _ _ E3) as [-> Hd3].
             destruct (upper_head_high s1 _ _ U1 eq_refl) as (s2 & -> & U2).
             symmetry in U2.
             destruct (upper_head_high s2 d3 t3 U2 Hd3) as (s3 & -> & _).
             rewrite (N3 _ d3 s3 eq_refl) in E3. discriminate. }
           destruct Hu as (_ & a & u' & -> & Ha).
           inversion E'; subst. congruence.
      * rewrite (upper_cons_plain _ _ L), ascii_upper_idempotent, IH by lia.
        reflexivity.
    + destruct Hu as (Hu & _). rewrite E, Hu, IH by lia. reflexivity.
Qed.

Lemma upper_idempotent (s : string) : upper (upper s) = upper s.
Proof. apply (upper_idempotent_length (String.length s)). lia. Qed.

(** X4. The lookup ignores letter case: a symbol gets an external
    identifier exactly when its upper-case form gets it. *)
Theorem get_coingecko_id_ignores_case (currency id : string) :
  get_coingecko_id currency = Ok id <->
  get_coingecko_id (upper currency) = Ok id.
Proof.
  unfold get_coingecko_id. rewrite upper_idempotent.
  destruct (CoinGeckoId_getitem (upper currency)); split;
    intros H; try exact H; discriminate.
Qed.

Lemma get_coingecko_id_ignores_case_witness :
  get_coingecko_id "Sol" = Ok "solana".
Proof.
  apply (proj2 (get_coingecko_id_ignores_case "Sol" "solana")).
  reflexivity.
Defined.

(** ** The guard of the constructor *)

Lemma startswith_spec (s p : string) :
  startswith s p = true <-> exists rest, s = (p ++ rest)%string.
Proof.
  revert s. induction p as [|a p' IH]; intros s; simpl.
  - destruct s; split; intros _; try reflexivity; eexists; reflexivity.
  - destruct s as [|b s']; simpl.
    + split; [discriminate | intros [rest H]; discriminate].
    + rewrite andb_true_iff, Ascii.eqb_eq, IH. split.
      * intros [-> [rest ->]]. exists rest. reflexivity.
      * intros [rest H]. inversion H; subst. split; [reflexivity|].
        exists rest. reflexivity.
Qed.

Lemma contains_spec (s sub : string) :
  contains s sub = true <->
  exists a b, s = (a ++ sub ++ b)%string.
Proof.
  induction s as [|c rest IH].
  - cbn [contains]. rewrite orb_false_r, startswith_spec. split.
    + intros [r H]. exists EmptyString, r. exact H.
    + intros [a [b H]]. destruct a as [|x a']; [|discriminate].
      exists b. exact H.
  - cbn [contains]. rewrite orb_true_iff, startswith_spec, IH. split.
    + intros [[r H]|[a [b H]]].
      * exists EmptyString, r. exact H.
      * exists (String c a), b. simpl. rewrite H. reflexivity.
    + intros [a [b H]]. destruct a as [|x a'].
      * left. exists b. exact H.
      * right. simpl in H. inversion H; subst. exists a', b. reflexivity.
Qed.

(** X5. The constructor's guard lets a database URL through exactly
    when it starts with [sqlite] or has [postgresql] somewhere inside;
    every other URL, the empty one included, ends in
    [ValueError "Invalid database URL"]. *)
Theorem check_db_url_spec (db_url : string) :
  (check_db_url db_url = Ok tt <->
   (exists rest, db_url = ("sqlite" ++ rest)%string) \/
   (exists a b, db_url = (a ++ "postgresql" ++ b)%string)) /\
  (check_db_url db_url <> Ok tt ->
   check_db_url db_url = Raise (ValueError "Invalid database URL")).
Proof.
  unfold check_db_url. split.
  - rewrite <- startswith_spec, <- contains_spec.
    destruct (String.eqb db_url "") eqn:E.
    + apply String.eqb_eq in E. subst. simpl.
      split; [discriminate | intros [H|H]; discriminate].
    + simpl. destruct (startswith db_url "sqlite"); simpl.
      * split; [intros _; left; reflexivity | reflexivity].
      * destruct (contains db_url "postgresql"); simpl.
        -- split; [intros _; right; reflexivity | reflexivity].
        -- split; [discriminate | intros [H|H]; discriminate].
  - destruct (_ || _); [reflexivity | intros H; now elim H].
Qed.

Lemma check_db_url_spec_witness :
  check_db_url "mysql://host/db" = Raise (ValueError "Invalid database URL")
  /\ check_db_url "sqlite:///:memory:" = Ok tt.
Proof.
  split.
  - apply (proj2 (check_db_url_spec "mysql://host/db")). discriminate.
  - apply (proj1 (check_db_url_spec "sqlite:///:memory:")).
    left. exists ":///:memory:". reflexivity.
Defined.

(** ** fetch_prices as a lookup in three responses *)

Section FetchLookup.

Context {float : Type}.

(** X6. [fetch_prices] is a lookup in the responses to three requests,
    [usd], [eur], [btc], in this order.  The first group with a lookup
    that fails ends the call with the exception of that lookup, after
    the request of that group and before any later request, and leaves
    one line in the error log.  When all lookups succeed the mapping
    holds the eight entries in the order of the groups, each with the
    value found at [data[id][quote]]. *)
Theorem fetch_prices_as_lookup (net : Network float) (s : State float) :
  let usd := ["btc"; "eth"; "sol"; "dot"; "ada"] in
  let eur := ["etc"] in
  let btc := ["eth"; "bnt"] in
  let r_usd := group_request "usd" (group_ids usd) in
  let r_eur := group_request "eur" (group_ids eur) in
  let r_btc := group_request "btc" (group_ids btc) in
  fetch_prices net s
  = match group_prices net "usd" usd with
    | Raise e =>
        (Raise e, log_error "Error fetching prices" (log_request r_usd s))
    | Ok kv1 =>
        match group_prices net "eur" eur with
        | Raise e =>
            (Raise e,
             log_error "Error fetching prices"
               (log_request r_eur (log_request r_usd s)))
        | Ok kv2 =>
            match group_prices net "btc" btc with
            | Raise e =>
                (Raise e,
                 log_error "Error fetching prices"
                   (log_request r_btc
                      (log_request r_eur (log_request r_usd s))))
            | Ok kv3 =>
                (Ok (kv1 ++ kv2 ++ kv3),
                 log_request r_btc
                   (log_request r_eur (log_request r_usd s)))
            end
        end
    end.
Proof.
  cbv zeta. unfold fetch_prices. rewrite quote_groups_of_PAIRS.
  cbn [fetch_groups].
  rewrite (fetch_group_as_lookup net "usd" "btc" _
             ["bitcoin"; "ethereum"; "solana"; "polkadot"; "cardano"])
    by reflexivity.
  destruct (group_prices net "usd" _) as [kv1|e] eqn:E1; cbn [bind];
    [|reflexivity].
  rewrite (fetch_group_as_lookup net "eur" "etc" _ ["ethereum-classic"])
    by reflexivity.
  destruct (group_prices net "eur" _) as [kv2|e] eqn:E2; cbn [bind];
    [|reflexivity].
  rewrite (fetch_group_as_lookup net "btc" "eth" _ ["ethereum"; "bancor"])
    by reflexivity.
  destruct (group_prices net "btc" _) as [kv3|e] eqn:E3; cbn [bind];
    [|reflexivity].
  f_equal. f_equal.
  apply group_prices_keys in E1, E2, E3.
  destruct kv1 as [|[k1 v1] [|[k2 v2] [|[k3 v3] [|[k4 v4] [|[k5 v5] [|? ?]]]]]];
    try discriminate E1.
  destruct kv2 as [|[k6 v6] [|? ?]]; try discriminate E2.
  destruct kv3 as [|[k7 v7] [|[k8 v8] [|? ?]]]; try discriminate E3.
  simpl in E1, E2, E3.
  inversion E1; inversion E2; inversion E3; subst. reflexivity.
Qed.

(** X7. What a returned mapping holds under a pair is what the response
    to the request of the pair's quote group holds at
    [data[id][quote]], and it holds nothing under a key that is not a
    pair of its groups. *)
Theorem fetch_prices_values (net : Network float) (s s' : State float)
  (prices : dict (json float)) (k : string) (v : json float) :
  fetch_prices net s = (Ok prices, s') ->
  In (k, v) prices ->
  exists q bases b,
    In (q, bases) [("usd", ["btc"; "eth"; "sol"; "dot"; "ada"]);
                   ("eur", ["etc"]); ("btc", ["eth"; "bnt"])] /\
    In b bases /\ k = (b ++ "/" ++ q)%string /\
    quoted_price net q bases b = Ok v.
Proof.
  intros H Hin. unfold fetch_prices in H.
  rewrite quote_groups_of_PAIRS in H. cbn [fetch_groups] in H.
  rewrite (fetch_group_as_lookup net "usd" "btc" _
             ["bitcoin"; "ethereum"; "solana"; "polkadot"; "cardano"])
    in H by reflexivity.
  destruct (group_prices net "usd" _) as [kv1|e] eqn:E1; cbn [bind] in H;
    [|discriminate].
  rewrite (fetch_group_as_lookup net "eur" "etc" _ ["ethereum-classic"])
    in H by reflexivity.
  destruct (group_prices net "eur" _) as [kv2|e] eqn:E2; cbn [bind] in H;
    [|discriminate].
  rewrite (fetch_group_as_lookup net "btc" "eth" _ ["ethereum"; "bancor"])
    in H by reflexivity.
  destruct (group_prices net "btc" _) as [kv3|e] eqn:E3; cbn [bind] in H;
    [|discriminate].
  inversion H as [[Hprices Hs]]. clear H Hs.
  pose proof (group_prices_keys _ _ _ _ E1) as K1.
  pose proof (group_prices_keys _ _ _ _ E2) as K2.
  pose proof (group_prices_keys _ _ _ _ E3) as K3.
  assert (Hall : prices = kv1 ++ kv2 ++ kv3).
  { rewrite <- Hprices.
    destruct kv1 as [|[k1 v1] [|[k2 v2] [|[k3 v3] [|[k4 v4] [|[k5 v5] [|? ?]]]]]];
      try discriminate K1.
    destruct kv2 as [|[k6 v6] [|? ?]]; try discriminate K2.
    destruct kv3 as [|[k7 v7] [|[k8 v8] [|? ?]]]; try discriminate K3.
    simpl in K1, K2, K3.
    inversion K1; inversion K2; inversion K3; subst. reflexivity. }
  rewrite Hall in Hin.
  apply in_app_or in Hin. destruct Hin as [Hin|Hin];
    [|apply in_app_or in Hin; destruct Hin as [Hin|Hin]].
  - destruct (group_prices_values _ _ _ _ E1 k v Hin) as (b & Hb & Hk & Hv).
    exists "usd", ["btc"; "eth"; "sol"; "dot"; "ada"], b.
    simpl. tauto.
  - destruct (group_prices_values _ _ _ _ E2 k v Hin) as (b & Hb & Hk & Hv).
    exists "eur", ["etc"], b. simpl. tauto.
  - destruct (group_prices_values _ _ _ _ E3 k v Hin) as (b & Hb & Hk & Hv).
    exists "btc", ["eth"; "bnt"], b. simpl. tauto.
Qed.

End FetchLookup.

Lemma fetch_prices_values_witness :
  exists q bases b,
    In (q, bases) [("usd", ["btc"; "eth"; "sol"; "dot"; "ada"]);
                   ("eur", ["etc"]); ("btc", ["eth"; "bnt"])] /\
    In b bases /\ "etc/eur" = (b ++ "/" ++ q)%string /\
    quoted_price net_ok q bases b = Ok (JNumber (20#1)%Q).
Proof.
  destruct (fetch_prices net_ok (new_service [])) as [r s'] eqn:E.
  assert (Hr : exists m, r = Ok m /\ In ("etc/eur", JNumber (20#1)%Q) m).
  { vm_compute in E. inversion E. eexists. split; [reflexivity|].
    simpl. tauto. }
  destruct Hr as (m & -> & Hin).
  exact (fetch_prices_values net_ok (new_service []) s' m _ _ E Hin).
Defined.

(** ** What a sequence of calls keeps *)

Section Sequences.

Context {float : Type}.
Variable STDDEV : list float -> float.
Variable float_le : float -> float -> bool.

Lemma store_prices_table_cases (now : Z) (f : fault) (prices : dict float)
  (s : State float) :
  table (snd (store_prices now f prices s)) = table s \/
  table (snd (store_prices now f prices s))
  = table s ++ batch_rows now prices.
Proof.
  unfold store_prices.
  destruct (fails f 0); simpl; [left; reflexivity|].
  pose proof (insert_rows_table f now prices 1 []
                (log_db Connect (set_last_update now s))) as Ht.
  destruct (insert_rows f 1 now prices [] _) as [[txn|e] s1] eqn:E;
    simpl in Ht.
  - unfold commit. destruct txn as [|r0 txn0]; [left; exact Ht|].
    set (txn := r0 :: txn0) in *.
    destruct (fails f (S (List.length prices))) eqn:Ef; simpl.
    + left. exact Ht.
    + right. rewrite Ht. f_equal.
      assert (Hok : forall j, (j < List.length prices)%nat ->
                              fails f (1 + j) = false).
      { intros j Hj. destruct f as [n|]; [|reflexivity]. simpl.
        apply Nat.eqb_neq. intros ->.
        pose proof (insert_rows_fault now prices 1 (S j) []
                      (log_db Connect (set_last_update now s))) as Hr.
        rewrite E in Hr. simpl in Hr.
        assert (H : @Ok (list (Row float)) txn = Raise SQLAlchemyError)
          by (apply Hr; lia).
        discriminate. }
      rewrite (insert_rows_ok f now prices 1 [] _ Hok) in E.
      inversion E. reflexivity.
  - left. exact Ht.
Qed.

Lemma get_price_history_table (now : Z) (f : fault) (pair : string)
  (hours : option Z) (s : State float) :
  let s' := snd (get_price_history now f pair hours s) in
  table s' = table s /\ last_update s' = last_update s /\
  sent s' = sent s /\ rank_cache s' = rank_cache s.
Proof.
  cbv zeta. unfold get_price_history.
  destruct (lru_find history_key_eqb (pair, hours) (history_cache s));
    [repeat split|].
  unfold get_price_history_body.
  destruct (fails f 0); [repeat split|].
  destruct (window_start now _); [|repeat split].
  destruct (fails f 1); repeat split.
Qed.

Lemma get_volatility_rank_table (now : Z) (f : fault) (pair : string)
  (s : State float) :
  let s' := snd (get_volatility_rank STDDEV float_le now f pair s) in
  table s' = table s /\ last_update s' = last_update s /\
  sent s' = sent s /\ history_cache s' = history_cache s.
Proof.
  cbv zeta. unfold get_volatility_rank.
  destruct (lru_find String.eqb pair (rank_cache s)); [repeat split|].
  unfold get_volatility_rank_body.
  destruct (fails f 0); [repeat split|].
  destruct (fails f 1); repeat split.
Qed.

(** X8. The two read methods never write: whatever the clock, the state
    of the database and of the caches, and whether they return or raise,
    the table, [_last_update] and the log of requests to the price
    source are the same after the call as before it. *)
Theorem reads_never_write (now : Z) (f : fault) (pair : string)
  (hours : option Z) (s : State float) :
  let h := snd (get_price_history now f pair hours s) in
  let r := snd (get_volatility_rank STDDEV float_le now f pair s) in
  (table h = table s /\ last_update h = last_update s /\ sent h = sent s) /\
  (table r = table s /\ last_update r = last_update s /\ sent r = sent s).
Proof.
  cbv zeta.
  pose proof (get_price_history_table now f pair hours s) as H.
  pose proof (get_volatility_rank_table now f pair s) as R.
  cbv zeta in H, R. tauto.
Qed.

Lemma routes_get_current_price_store (net : Network float)
  (b q : string) (s : State float) :
  same_store s (snd (routes_get_current_price net b q s)).
Proof.
  unfold routes_get_current_price.
  destruct (negb _); [apply same_store_refl|].
  pose proof (fetch_prices_frame net s) as H.
  destruct (fetch_prices net s) as [[prices|e] s1]; simpl in *; [|exact H].
  destruct (dict_get prices _); exact H.
Qed.

Lemma routes_get_price_history_table (now1 now2 : Z) (f1 f2 : fault)
  (b q : string) (s : State float) :
  table (snd (routes_get_price_history STDDEV float_le now1 now2 f1 f2 b q s))
  = table s.
Proof.
  unfold routes_get_price_history.
  destruct (negb _); [reflexivity|].
  pose proof (get_price_history_table now1 f1 (b ++ "/" ++ q) None s) as H.
  cbv zeta in H.
  destruct (get_price_history now1 f1 _ None s) as [[l|e] s1]; simpl in *;
    [|tauto].
  pose proof (get_volatility_rank_table now2 f2 (b ++ "/" ++ q) s1) as R.
  cbv zeta in R.
  destruct (get_volatility_rank STDDEV float_le now2 f2 _ s1)
    as [[r|e] s2]; simpl in *; destruct H as [H _], R as [R _]; congruence.
Qed.

Lemma step_table (c : call float) (s : State float) :
  exists added, table (step STDDEV float_le c s) = table s ++ added.
Proof.
  destruct c as [net|now f prices|now f p hours|now f p|net b q
                |now1 now2 f1 f2 b q]; simpl.
  - exists []. rewrite app_nil_r. apply (fetch_prices_frame net s).
  - destruct (store_prices_table_cases now f prices s) as [H|H].
    + exists []. rewrite app_nil_r. exact H.
    + exists (batch_rows now prices). exact H.
  - exists []. rewrite app_nil_r.
    apply (get_price_history_table now f p hours s).
  - exists []. rewrite app_nil_r.
    apply (get_volatility_rank_table now f p s).
  - exists []. rewrite app_nil_r.
    apply (routes_get_current_price_store net b q s).
  - exists []. rewrite app_nil_r. apply routes_get_price_history_table.
Qed.

(** X9. The table is append-only: after any sequence of calls of the
    service and of the two routes, in any order and with any outcome,
    the table is the table from before with rows added at its end; no
    call removes or changes a stored row. *)
Theorem table_append_only (calls : list (call float)) (s : State float) :
  exists added, table (run STDDEV float_le calls s) = table s ++ added.
Proof.
  unfold run. revert s. induction calls as [|c rest IH]; intros s; simpl.
  - exists []. rewrite app_nil_r. reflexivity.
  - destruct (step_table c s) as [a1 H1].
    destruct (IH (step STDDEV float_le c s)) as [a2 H2].
    exists (a1 ++ a2). rewrite H2, H1, app_assoc. reflexivity.
Qed.

(** *** The cache of get_price_history *)

Lemma lru_remove_length_found {K V : Type} (eqb : K -> K -> bool) (k : K)
  (c : list (K * V)) (v : V) :
  lru_find eqb k c = Some v ->
  S (List.length (lru_remove eqb k c)) = List.length c.
Proof.
  induction c as [|[k0 v0] rest IH]; simpl; [discriminate|].
  destruct (eqb k k0); [reflexivity|].
  intros H. simpl. rewrite (IH H). reflexivity.
Qed.

Lemma get_price_history_cache_size (now : Z) (f : fault) (pair : string)
  (hours : option Z) (s : State float) :
  (List.length (history_cache s) <= 1)%nat ->
  (List.length (history_cache (snd (get_price_history now f pair hours s)))
   <= 1)%nat.
Proof.
  intros Hlen. unfold get_price_history.
  destruct (lru_find history_key_eqb (pair, hours) (history_cache s))
    as [v|] eqn:E.
  - simpl. rewrite (lru_remove_length_found _ _ _ _ E). exact Hlen.
  - unfold get_price_history_body.
    destruct (fails f 0); [simpl; lia|].
    destruct (window_start now _); [|simpl; lia].
    destruct (fails f 1); simpl; lia.
Qed.

Lemma step_history_cache (c : call float) (s : State float) :
  (List.length (history_cache s) <= 1)%nat ->
  (List.length (history_cache (step STDDEV float_le c s)) <= 1)%nat.
Proof.
  intros Hlen.
  destruct c as [net|now f prices|now f p hours|now f p|net b q
                |now1 now2 f1 f2 b q]; simpl.
  - destruct (fetch_prices_frame net s) as (_ & _ & _ & H & _).
    rewrite H. exact Hlen.
  - destruct (store_prices_history_cache now f prices s) as [H _].
    rewrite H. exact Hlen.
  - apply get_price_history_cache_size, Hlen.
  - destruct (get_volatility_rank_table now f p s) as (_ & _ & _ & H).
    rewrite H. exact Hlen.
  - destruct (routes_get_current_price_store net b q s)
      as (_ & _ & _ & H & _).
    rewrite H. exact Hlen.
  - unfold routes_get_price_history.
    destruct (negb _); [exact Hlen|].
    pose proof (get_price_history_cache_size now1 f1 (b ++ "/" ++ q) None s
                  Hlen) as H1.
    destruct (get_price_history now1 f1 _ None s) as [[l|e] s1];
      simpl in *; [|exact H1].
    destruct (get_volatility_rank_table now2 f2 (b ++ "/" ++ q) s1)
      as (_ & _ & _ & H).
    destruct (get_volatility_rank STDDEV float_le now2 f2 _ s1)
      as [[r|e] s2]; simpl in *; rewrite H; exact H1.
Qed.

(** X10. The cache of [get_price_history] never holds more than one
    entry: on a service that starts with an empty cache, after any
    sequence of calls at most the arguments of one read are memoized. *)
Theorem history_cache_single_entry (calls : list (call float))
  (t : list (Row float)) :
  (List.length (history_cache (run STDDEV float_le calls (new_service t)))
   <= 1)%nat.
Proof.
  assert (G : forall cs s,
             (List.length (history_cache s) <= 1)%nat ->
             (List.length (history_cache (run STDDEV float_le cs s))
              <= 1)%nat).
  { unfold run. induction cs as [|c rest IH]; intros s Hs; simpl;
      [exact Hs|].
    apply IH, step_history_cache, Hs. }
  apply G. simpl. lia.
Qed.

End Sequences.

(** ** The cache of get_volatility_rank *)

Section RankCache.

Context {float : Type}.
Variable STDDEV : list float -> float.
Variable float_le : float -> float -> bool.

Lemma lru_find_None_keys {V : Type} (k : string) (c : list (string * V)) :
  lru_find String.eqb k c = None <-> ~ In k (map fst c).
Proof.
  induction c as [|[k0 v0] rest IH]; simpl; [tauto|].
  destruct (String.eqb k k0) eqn:E.
  - apply String.eqb_eq in E. subst. split; [discriminate | tauto].
  - apply String.eqb_neq in E. rewrite IH. split.
    + intros H [H'|H']; [congruence | tauto].
    + tauto.
Qed.

Lemma lru_remove_keys {V : Type} (k k' : string) (c : list (string * V)) :
  In k' (map fst (lru_remove String.eqb k c)) -> In k' (map fst c).
Proof.
  induction c as [|[k0 v0] rest IH]; simpl; [tauto|].
  destruct (String.eqb k k0); simpl; tauto.
Qed.

Lemma lru_remove_NoDup {V : Type} (k : string) (c : list (string * V)) :
  NoDup (map fst c) ->
  NoDup (map fst (lru_remove String.eqb k c)) /\
  ~ In k (map fst (lru_remove String.eqb k c)).
Proof.
  induction c as [|[k0 v0] rest IH]; simpl; intros H.
  - split; [constructor | tauto].
  - inversion H as [|? ? Hnotin Hnd]; subst.
    destruct (String.eqb k k0) eqn:E.
    + apply String.eqb_eq in E. subst. split; assumption.
    + apply String.eqb_neq in E. destruct (IH Hnd) as [H1 H2]. simpl.
      split.
      * constructor; [|exact H1].
        intros Hin. apply Hnotin. eapply lru_remove_keys, Hin.
      * intros [H'|H']; [congruence | tauto].
Qed.

Lemma removelast_bounded {V : Type} (c : list (string * V)) :
  c <> [] -> NoDup (map fst c) ->
  S (List.length (removelast c)) = List.length c /\
  NoDup (map fst (removelast c)) /\
  forall k, In k (map fst (removelast c)) -> In k (map fst c).
Proof.
  intros Hne Hnd.
  destruct (exists_last Hne) as (front & x & ->).
  rewrite removelast_last, length_app. simpl.
  rewrite map_app in Hnd. split; [lia|]. split.
  - apply NoDup_app_remove_r in Hnd. exact Hnd.
  - intros k Hk. rewrite map_app. apply in_or_app. left. exact Hk.
Qed.

Lemma get_volatility_rank_cache_bounded (now : Z) (f : fault)
  (pair : string) (s : State float) :
  rank_cache_bounded (rank_cache s) ->
  rank_cache_bounded
    (rank_cache (snd (get_volatility_rank STDDEV float_le now f pair s))).
Proof.
  intros [Hlen Hnd]. unfold get_volatility_rank.
  destruct (lru_find String.eqb pair (rank_cache s)) as [v|] eqn:E.
  - simpl. unfold rank_cache_bounded, lru_touch. simpl.
    rewrite (lru_remove_length_found _ _ _ _ E).
    destruct (lru_remove_NoDup pair (rank_cache s) Hnd) as [H1 H2].
    split; [exact Hlen | constructor; assumption].
  - unfold get_volatility_rank_body.
    destruct (fails f 0); [split; assumption|].
    destruct (fails f 1); [split; assumption|].
    simpl. unfold lru_store. rewrite E.
    apply lru_find_None_keys in E.
    destruct (List.length (rank_cache s) <? maxsize)%nat eqn:El.
    + apply Nat.ltb_lt in El. split; [simpl; lia|].
      simpl. constructor; assumption.
    + apply Nat.ltb_ge in El.
      assert (Hne : rank_cache s <> []).
      { intros H. rewrite H in El. unfold maxsize in El. simpl in El. lia. }
      destruct (removelast_bounded (rank_cache s) Hne Hnd)
        as (Hl & Hn & Hsub).
      split; [simpl; lia|].
      simpl. constructor; [|exact Hn].
      intros Hin. apply E, Hsub, Hin.
Qed.

Lemma step_rank_cache (c : call float) (s : State float) :
  rank_cache_bounded (rank_cache s) ->
  rank_cache_bounded (rank_cache (step STDDEV float_le c s)).
Proof.
  intros Hb.
  destruct c as [net|now f prices|now f p hours|now f p|net b q
                |now1 now2 f1 f2 b q]; simpl.
  - destruct (fetch_prices_frame net s) as (_ & _ & _ & _ & H).
    rewrite H. exact Hb.
  - destruct (store_prices_history_cache now f prices s) as [_ H].
    rewrite H. exact Hb.
  - destruct (get_price_history_table now f p hours s) as (_ & _ & _ & H).
    rewrite H. exact Hb.
  - apply get_volatility_rank_cache_bounded, Hb.
  - destruct (routes_get_current_price_store net b q s)
      as (_ & _ & _ & _ & H).
    rewrite H. exact Hb.
  - unfold routes_get_price_history.
    destruct (negb _); [exact Hb|].
    destruct (get_price_history_table now1 f1 (b ++ "/" ++ q) None s)
      as (_ & _ & _ & H).
    destruct (get_price_history now1 f1 _ None s) as [[l|e] s1];
      simpl in *; [|rewrite H; exact Hb].
    rewrite <- H in Hb.
    pose proof (get_volatility_rank_cache_bounded now2 f2
                  (b ++ "/" ++ q) s1 Hb) as H2.
    destruct (get_volatility_rank STDDEV float_le now2 f2 _ s1)
      as [[r|e] s2]; simpl in *; exact H2.
Qed.

(** X11. The cache of [get_volatility_rank] stays within its bound: on
    a service that starts with an empty cache, after any sequence of
    calls it holds at most 32 entries, each for a different pair. *)
Theorem rank_cache_stays_bounded (calls : list (call float))
  (t : list (Row float)) :
  let c := rank_cache (run STDDEV float_le calls (new_service t)) in
  (List.length c <= 32)%nat /\ NoDup (map fst c).
Proof.
  assert (G : forall cs s,
             rank_cache_bounded (rank_cache s) ->
             rank_cache_bounded (rank_cache (run STDDEV float_le cs s))).
  { unfold run. induction cs as [|c rest IH]; intros s Hs; simpl;
      [exact Hs|].
    apply IH, step_rank_cache, Hs. }
  apply G. split; simpl; [unfold maxsize; lia | constructor].
Qed.

End RankCache.

(** ** More on get_price_history *)

Section HistoryMore.

Context {float : Type}.

(** X12. What the decorated [get_price_history] returns: the rows of
    the table with the asked pair and a timestamp after [now] minus the
    hours, each row once, as [Price] values with the row's pair, price
    and timestamp, newest first. *)
Theorem get_price_history_body_spec (now : Z) (f : fault) (pair : string)
  (hours : Z) (s s' : State float) (l : list (Price float)) :
  get_price_history_body now f pair hours s = (Ok l, s') ->
  Permutation l
    (map Price_of_row
       (filter (fun r => String.eqb (row_pair r) pair
                         && (now - hours * usec_per_hour <? row_timestamp r)%Z)
               (table s))) /\
  newest_first l /\
  (forall p, In p l -> Price_pair p = pair) /\
  table s' = table s.
Proof.
  intros H.
  destruct (get_price_history_body_result now f pair hours s s' l H)
    as (since & Hsince & ->).
  apply window_start_value in Hsince. subst since.
  split; [|split; [|split]].
  - apply Permutation_map. unfold select_history.
    apply Permutation_sym, order_by_timestamp_desc_perm.
  - apply newest_first_map. unfold select_history.
    apply order_by_timestamp_desc_sorted.
  - intros p Hp. apply in_map_iff in Hp. destruct Hp as [r [<- Hr]].
    apply select_history_In in Hr. simpl. tauto.
  - revert H. unfold get_price_history_body.
    destruct (fails f 0); [discriminate|].
    destruct (window_start now hours); [|discriminate].
    destruct (fails f 1); [discriminate|].
    intros H. inversion H. reflexivity.
Qed.

(** X13. A longer window never loses a sample: every sample returned
    for [hours1] is returned for any [hours2] that is not shorter. *)
Theorem longer_window_keeps_samples (now : Z) (f1 f2 : fault)
  (pair : string) (hours1 hours2 : Z) (s s1 s2 : State float)
  (l1 l2 : list (Price float)) :
  (hours1 <= hours2)%Z ->
  get_price_history_body now f1 pair hours1 s = (Ok l1, s1) ->
  get_price_history_body now f2 pair hours2 s = (Ok l2, s2) ->
  incl l1 l2.
Proof.
  intros Hle H1 H2.
  destruct (get_price_history_body_result _ _ _ _ _ _ _ H1)
    as (since1 & Hs1 & ->).
  destruct (get_price_history_body_result _ _ _ _ _ _ _ H2)
    as (since2 & Hs2 & ->).
  apply window_start_value in Hs1, Hs2. subst since1 since2.
  intros p Hp. apply in_map_iff in Hp. destruct Hp as [r [<- Hr]].
  apply in_map. apply select_history_In in Hr. apply select_history_In.
  unfold usec_per_hour in *. repeat split; try tauto. nia.
Qed.

(** X14. A window of zero or fewer hours starts at [now] or later: when
    no stored sample carries a timestamp after [now], the function
    returns the empty list. *)
Theorem empty_window_returns_nothing (now : Z) (f : fault) (pair : string)
  (hours : Z) (s s' : State float) (l : list (Price float)) :
  (hours <= 0)%Z ->
  (forall r, In r (table s) -> (row_timestamp r <= now)%Z) ->
  get_price_history_body now f pair hours s = (Ok l, s') ->
  l = [].
Proof.
  intros Hh Hpast H.
  destruct (get_price_history_body_result _ _ _ _ _ _ _ H)
    as (since & Hs & ->).
  apply window_start_value in Hs. subst since.
  destruct (select_history pair _ (table s)) as [|r rest] eqn:E;
    [reflexivity|].
  assert (Hr : In r (select_history pair (now - hours * usec_per_hour)
                       (table s))) by (rewrite E; left; reflexivity).
  apply select_history_In in Hr. destruct Hr as (Hin & _ & Ht).
  specialize (Hpast r Hin). unfold usec_per_hour in Ht. nia.
Qed.

(** X15. A window that no [timedelta] or [datetime] can express ends
    the read in [OverflowError]: with 24 000 000 000 hours or more, or
    with a start before the year 1, an uncached call on a reachable
    database raises it after the connect, sends no [SELECT], writes
    nothing to the error log and leaves the cache empty. *)
Theorem unrepresentable_window_overflows (now : Z) (f : fault)
  (pair : string) (hours : option Z) (s : State float) :
  let h := match hours with Some h => h | None => default_hours end in
  lru_find history_key_eqb (pair, hours) (history_cache s) = None ->
  fails f 0 = false ->
  (24000000000 <= h)%Z \/ (now - h * usec_per_hour < datetime_min)%Z ->
  get_price_history now f pair hours s
  = (Raise OverflowError,
     mkState (table s) (db_log s ++ [Connect]) (sent s) (last_update s)
             [] (rank_cache s) (logged s)).
Proof.
  cbv zeta. intros Hmiss Hconnect Hbig.
  unfold get_price_history. rewrite Hmiss.
  unfold get_price_history_body. simpl. rewrite Hconnect.
  assert (Hw : window_start now
                 (match hours with Some h => h | None => default_hours end)
               = Raise OverflowError).
  { set (h := match hours with Some h => h | None => default_hours end)
      in *.
    unfold window_start, timedelta_hours.
    destruct ((-999999999 <=? h * usec_per_hour / usec_per_day)
              && (h * usec_per_hour / usec_per_day <=? 999999999))%Z
      eqn:Ed; cbn [bind]; [|reflexivity].
    unfold datetime_sub.
    destruct ((datetime_min <=? now - h * usec_per_hour)
              && (now - h * usec_per_hour <=? datetime_max))%Z
      eqn:Es; [|reflexivity].
    exfalso. apply andb_true_iff in Ed, Es.
    destruct Ed as [_ Ed], Es as [Es _].
    apply Z.leb_le in Ed, Es.
    destruct Hbig as [Hbig|Hbig]; [|lia].
    unfold usec_per_day, usec_per_hour in Ed.
    assert (Hd : (1000000000 <=
                  h * (3600 * 1000000) / (24 * (3600 * 1000000)))%Z).
    { apply Z.div_le_lower_bound; lia. }
    lia. }
  rewrite Hw. reflexivity.
Qed.

(** X16. A read that raises leaves nothing memoized: after an uncached
    [get_price_history] call has raised, for a database fault or for an
    overflow, the cache is empty, also of the entry that an earlier read
    with other arguments had left, and the table is as before. *)
Theorem failed_read_empties_cache (now : Z) (f : fault) (pair : string)
  (hours : option Z) (s : State float) (e : exn) :
  fst (get_price_history now f pair hours s) = Raise e ->
  history_cache (snd (get_price_history now f pair hours s)) = [] /\
  table (snd (get_price_history now f pair hours s)) = table s /\
  (e = SQLAlchemyError \/ e = OverflowError).
Proof.
  unfold get_price_history.
  destruct (lru_find history_key_eqb (pair, hours) (history_cache s));
    [discriminate|].
  unfold get_price_history_body.
  destruct (fails f 0).
  { simpl. intros H. inversion H. tauto. }
  destruct (window_start now _) as [since|e0] eqn:Ew.
  - destruct (fails f 1); simpl; [|discriminate].
    intros H. inversion H. tauto.
  - simpl. intros H. inversion H; subst e0.
    repeat split. right.
    unfold window_start, timedelta_hours in Ew.
    match type of Ew with
    | context [if ?c then _ else _] => destruct c
    end; cbn [bind] in Ew; [|congruence].
    unfold datetime_sub in Ew.
    match type of Ew with
    | context [if ?c then _ else _] => destruct c
    end; congruence.
Qed.

End HistoryMore.

Lemma get_price_history_body_spec_witness :
  exists l s',
    get_price_history_body (t0 + 2 * second) None "btc/usd" 24
      (new_service two_batches) = (Ok l, s') /\
    newest_first l /\ List.length l = 2%nat.
Proof.
  destruct (get_price_history_body (t0 + 2 * second) None "btc/usd" 24
              (new_service two_batches)) as [r s'] eqn:E.
  assert (Hr : exists l, r = Ok l /\ List.length l = 2%nat).
  { vm_compute in E. inversion E. eexists. split; reflexivity. }
  destruct Hr as (l & -> & Hlen).
  exists l, s'. split; [reflexivity|]. split; [|exact Hlen].
  exact (proj1 (proj2 (get_price_history_body_spec _ _ _ _ _ _ _ E))).
Defined.

Lemma longer_window_keeps_samples_witness :
  incl [mkPrice "btc/usd" (51000#1)%Q (t0 + second)]
       [mkPrice "btc/usd" (51000#1)%Q (t0 + second);
        mkPrice "btc/usd" (50000#1)%Q t0].
Proof.
  apply (longer_window_keeps_samples (t0 + 3600 * second) None None
           "btc/usd" 1 24 (new_service two_batches)
           (snd (get_price_history_body (t0 + 3600 * second) None "btc/usd"
                   1 (new_service two_batches)))
           (snd (get_price_history_body (t0 + 3600 * second) None "btc/usd"
                   24 (new_service two_batches)))).
  - lia.
  - reflexivity.
  - reflexivity.
Defined.

Lemma empty_window_returns_nothing_witness :
  fst (get_price_history_body (t0 + 2 * second) None "btc/usd" 0
         (new_service two_batches)) = Ok [].
Proof.
  destruct (get_price_history_body (t0 + 2 * second) None "btc/usd" 0
              (new_service two_batches)) as [r s'] eqn:E.
  assert (Hr : exists l, r = Ok l).
  { vm_compute in E. inversion E. eexists. reflexivity. }
  destruct Hr as (l & ->). simpl. f_equal.
  apply (empty_window_returns_nothing (t0 + 2 * second) None "btc/usd" 0
           (new_service two_batches) s' l).
  - lia.
  - intros r Hr. simpl in Hr.
    destruct Hr as [<-|[<-|[<-|[<-|[]]]]]; vm_compute; discriminate.
  - exact E.
Defined.

Lemma unrepresentable_window_overflows_witness :
  fst (get_price_history t0 None "btc/usd" (Some 24000000000%Z)
         (new_service two_batches)) = Raise OverflowError.
Proof.
  rewrite (unrepresentable_window_overflows t0 None "btc/usd"
             (Some 24000000000%Z) (new_service two_batches)).
  - reflexivity.
  - reflexivity.
  - reflexivity.
  - left. lia.
Defined.

Lemma failed_read_empties_cache_witness :
  history_cache
    (snd (get_price_history (t0 + second) (Some 1%nat) "eth/usd" None
            (snd (get_price_history t0 None "btc/usd" None
                    (new_service two_batches))))) = [].
Proof.
  apply (failed_read_empties_cache (t0 + second) (Some 1%nat) "eth/usd" None
           (snd (get_price_history t0 None "btc/usd" None
                   (new_service two_batches))) SQLAlchemyError).
  reflexivity.
Defined.

(** ** More on get_volatility_rank *)

Section RankMore.

Context {float : Type}.
Variable STDDEV : list float -> float.
Variable float_le : float -> float -> bool.

(** X17. A failure is not memoized: a [get_volatility_rank] call that
    raises has raised [SQLAlchemyError], has left the cache and the
    table as they were, and the next call for the pair on a healthy
    database runs the query and returns its result. *)
Theorem failed_rank_is_retried (now1 now2 : Z) (f : fault) (pair : string)
  (s : State float) (e : exn) :
  fst (get_volatility_rank STDDEV float_le now1 f pair s) = Raise e ->
  let s1 := snd (get_volatility_rank STDDEV float_le now1 f pair s) in
  e = SQLAlchemyError /\
  rank_cache s1 = rank_cache s /\ table s1 = table s /\
  logged s1 = logged s ++ ["Database error"] /\
  fst (get_volatility_rank STDDEV float_le now2 None pair s1)
  = Ok (fetchone (select_rank STDDEV float_le now2 (table s) pair)).
Proof.
  cbv zeta. intros H.
  assert (Hmiss : lru_find String.eqb pair (rank_cache s) = None).
  { unfold get_volatility_rank in H.
    destruct (lru_find String.eqb pair (rank_cache s));
      [discriminate | reflexivity]. }
  assert (Hs1 : e = SQLAlchemyError /\
                rank_cache (snd (get_volatility_rank STDDEV float_le now1 f
                                   pair s)) = rank_cache s /\
                table (snd (get_volatility_rank STDDEV float_le now1 f
                              pair s)) = table s /\
                logged (snd (get_volatility_rank STDDEV float_le now1 f
                               pair s)) = logged s ++ ["Database error"]).
  { revert H. unfold get_volatility_rank. rewrite Hmiss.
    unfold get_volatility_rank_body.
    destruct (fails f 0).
    - simpl. intros H. inversion H. repeat split.
    - destruct (fails f 1); simpl; [|discriminate].
      intros H. inversion H. repeat split. }
  destruct Hs1 as (He & Hc & Ht & Hl).
  split; [exact He|]. split; [exact Hc|]. split; [exact Ht|].
  split; [exact Hl|].
  rewrite get_volatility_rank_miss by (rewrite Hc; exact Hmiss).
  simpl. rewrite Ht. reflexivity.
Qed.

Lemma pruned_window (now : Z) (t t' : list (Row float)) :
  pruned (now - 24 * usec_per_hour) t t' ->
  filter (in_trailing_window now) t = filter (in_trailing_window now) t'.
Proof.
  induction 1 as [|r t t' _ IH|r t t' Hold _ IH]; cbn [filter].
  - reflexivity.
  - rewrite IH. reflexivity.
  - assert (E : in_trailing_window now r = false)
      by (unfold in_trailing_window; apply Z.leb_gt; exact Hold).
    rewrite E. exact IH.
Qed.

(** X18. Deleting samples that are more than 24 hours old changes no
    rank: on a table from which any rows with a timestamp before
    [NOW() - 24h] have been removed, wherever they stood, the decorated
    [get_volatility_rank] returns for every pair what it returns on the
    full table. *)
Theorem rank_ignores_old_samples (now : Z) (f : fault) (pair : string)
  (s : State float) (t' : list (Row float)) :
  pruned (now - 24 * usec_per_hour) (table s) t' ->
  fst (get_volatility_rank_body STDDEV float_le now f pair (set_table t' s))
  = fst (get_volatility_rank_body STDDEV float_le now f pair s).
Proof.
  intros Hpruned. unfold get_volatility_rank_body.
  destruct (fails f 0); [reflexivity|].
  destruct (fails f 1); [reflexivity|].
  cbn [fst log_db set_table table].
  unfold select_rank, pair_ranks, pair_stddev.
  rewrite (pruned_window now (table s) t' Hpruned). reflexivity.
Qed.

Lemma pair_ranks_NoDup (now : Z) (t : list (Row float)) :
  NoDup (map fst (pair_ranks STDDEV float_le now t)).
Proof.
  unfold pair_ranks. rewrite rank_rows_fst.
  apply (Permutation_NoDup
           (Permutation_map fst (order_by_std_dev_desc_perm float_le _))).
  apply pair_stddev_NoDup.
Qed.

(** X19. Rank 1 is always taken: as soon as some pair has two samples in
    the trailing window, there is a pair for which the decorated
    [get_volatility_rank] returns 1 on a healthy database. *)
Theorem some_pair_has_rank_one (now : Z) (pair : string)
  (s : State float) :
  (2 <= List.length (window_prices now (table s) pair))%nat ->
  exists top s',
    get_volatility_rank_body STDDEV float_le now None top s
    = (Ok (Some 1%nat), s').
Proof.
  intros Hlen. unfold get_volatility_rank_body. simpl.
  pose proof (pair_ranks_NoDup now (table s)) as Hnd.
  assert (Hne : order_by_std_dev_desc float_le
                  (pair_stddev STDDEV now (table s)) <> []).
  { intros H.
    assert (Hin : In (pair, window_std_dev STDDEV now (table s) pair)
                     (pair_stddev STDDEV now (table s)))
      by (apply pair_stddev_In; tauto).
    apply (Permutation_in _ (order_by_std_dev_desc_perm float_le _)) in Hin.
    rewrite H in Hin. contradiction. }
  unfold select_rank. unfold pair_ranks in *.
  destruct (order_by_std_dev_desc float_le _) as [|[p x] rest];
    [now elim Hne|].
  cbn [rank_rows] in *.
  exists p. eexists.
  rewrite (filter_key_unique _ p 1%nat Hnd (or_introl eq_refl)).
  reflexivity.
Qed.

Hypothesis float_le_total :
  forall x y, float_le x y = true \/ float_le y x = true.
Hypothesis float_le_trans :
  forall x y z, float_le x y = true -> float_le y z = true ->
                float_le x z = true.

(** X20. A rank never exceeds the number of ranked pairs: what the
    decorated [get_volatility_rank] returns for a pair lies between 1
    and the number of pairs with two or more samples in the window. *)
Theorem rank_within_ranked_pairs (now : Z) (f : fault) (pair : string)
  (s s' : State float) (k : nat) :
  get_volatility_rank_body STDDEV float_le now f pair s
  = (Ok (Some k), s') ->
  (1 <= k <= List.length (pair_stddev STDDEV now (table s)))%nat.
Proof.
  unfold get_volatility_rank_body.
  destruct (fails f 0); [discriminate|].
  destruct (fails f 1); [discriminate|].
  simpl. rewrite (select_rank_spec STDDEV float_le float_le_total
                    float_le_trans).
  destruct (2 <=? List.length (window_prices now (table s) pair))%nat
    eqn:E; simpl; [|discriminate].
  intros H. inversion H as [[Hk Hs]]. clear H Hs.
  apply Nat.leb_le in E. split; [lia|].
  assert (Hin : In (pair, window_std_dev STDDEV now (table s) pair)
                   (pair_stddev STDDEV now (table s)))
    by (apply pair_stddev_In; tauto).
  unfold count_higher.
  assert (Hlt : (List.length
                   (filter (fun row => higher float_le (snd row)
                              (window_std_dev STDDEV now (table s) pair))
                           (pair_stddev STDDEV now (table s)))
                 < List.length
                     (filter (fun _ => true)
                             (pair_stddev STDDEV now (table s))))%nat).
  { apply (filter_length_lt _ _ _ _ (fun _ _ => eq_refl) Hin);
      [|reflexivity].
    simpl. unfold higher.
    rewrite (float_le_refl float_le float_le_total). reflexivity. }
  assert (Hall : forall l : list (string * float),
             filter (fun _ => true) l = l).
  { induction l as [|a l' IH]; simpl; [|rewrite IH]; reflexivity. }
  rewrite Hall in Hlt. lia.
Qed.

End RankMore.

Lemma failed_rank_is_retried_witness :
  fst (get_volatility_rank sample_variance Qle_bool (t0 + 3 * second) None
         "btc/usd"
         (snd (get_volatility_rank sample_variance Qle_bool (t0 + 2 * second)
                 (Some 1%nat) "btc/usd" (new_service two_batches))))
  = Ok (Some 1%nat).
Proof.
  destruct (failed_rank_is_retried sample_variance Qle_bool
              (t0 + 2 * second) (t0 + 3 * second) (Some 1%nat) "btc/usd"
              (new_service two_batches) SQLAlchemyError)
    as (_ & _ & _ & _ & H).
  - reflexivity.
  - rewrite H. reflexivity.
Defined.

Lemma rank_ignores_old_samples_witness :
  let old := mkRow "btc/usd" (1#1)%Q (t0 - 25 * usec_per_hour) in
  fst (get_volatility_rank_body sample_variance Qle_bool (t0 + 2 * second)
         None "btc/usd"
         (set_table two_batches (new_service (old :: two_batches))))
  = fst (get_volatility_rank_body sample_variance Qle_bool (t0 + 2 * second)
           None "btc/usd" (new_service (old :: two_batches))).
Proof.
  intros old.
  apply (rank_ignores_old_samples sample_variance Qle_bool (t0 + 2 * second)
           None "btc/usd" (new_service (old :: two_batches)) two_batches).
  apply pruned_drop; [vm_compute; reflexivity|].
  repeat apply pruned_keep. apply pruned_nil.
Defined.

Lemma some_pair_has_rank_one_witness :
  exists top s',
    get_volatility_rank_body sample_variance Qle_bool (t0 + 2 * second) None
      top (new_service two_batches) = (Ok (Some 1%nat), s').
Proof.
  apply (some_pair_has_rank_one sample_variance Qle_bool (t0 + 2 * second)
           "eth/usd" (new_service two_batches)).
  vm_compute. lia.
Defined.

Lemma rank_within_ranked_pairs_witness :
  (1 <= 2 <= List.length (pair_stddev sample_variance (t0 + 2 * second)
                            (table (new_service two_batches))))%nat.
Proof.
  apply (rank_within_ranked_pairs sample_variance Qle_bool Qle_bool_total
           Qle_bool_trans (t0 + 2 * second) None "eth/usd"
           (new_service two_batches)
           (snd (get_volatility_rank_body sample_variance Qle_bool
                   (t0 + 2 * second) None "eth/usd"
                   (new_service two_batches)))).
  reflexivity.
Defined.

(** ** How the operations compose *)

Section Composition.

Context {float : Type}.
Variable STDDEV : list float -> float.
Variable float_le : float -> float -> bool.

Lemma window_prices_app (now : Z) (a b : list (Row float)) (pair : string) :
  window_prices now (a ++ b) pair
  = window_prices now a pair ++ window_prices now b pair.
Proof.
  unfold window_prices. rewrite !filter_app, map_app. reflexivity.
Qed.

Lemma window_prices_batch (now stored : Z) (prices : dict float)
  (pair : string) (x : float) :
  In (pair, x) prices ->
  (now - 24 * usec_per_hour <= stored)%Z ->
  (1 <= List.length (window_prices now (batch_rows stored prices) pair))%nat.
Proof.
  intros Hin Hnew.
  assert (Hx : In x (window_prices now (batch_rows stored prices) pair)).
  { unfold window_prices. apply in_map_iff.
    exists (mkRow pair x stored). split; [reflexivity|].
    apply filter_In. split; [|simpl; apply String.eqb_refl].
    apply filter_In. split.
    - unfold batch_rows. apply in_map_iff. exists (pair, x).
      split; [reflexivity | exact Hin].
    - unfold in_trailing_window. simpl. apply Z.leb_le. exact Hnew. }
  destruct (window_prices now (batch_rows stored prices) pair);
    [contradiction | simpl; lia].
Qed.

(** X21. The second sample gets a pair ranked: after two batches that
    both hold the pair have been stored, a [get_volatility_rank] call
    for the pair that is not memoized, made while both capture times
    lie within the last 24 hours, returns a rank. *)
Theorem second_sample_ranks_pair (now1 now2 now : Z)
  (prices1 prices2 : dict float) (pair : string) (x1 x2 : float)
  (s : State float) :
  lru_find String.eqb pair (rank_cache s) = None ->
  In (pair, x1) prices1 -> In (pair, x2) prices2 ->
  (now - 24 * usec_per_hour <= now1)%Z ->
  (now - 24 * usec_per_hour <= now2)%Z ->
  exists k s',
    get_volatility_rank STDDEV float_le now None pair
      (snd (store_prices now2 None prices2
              (snd (store_prices now1 None prices1 s))))
    = (Ok (Some k), s').
Proof.
  intros Hmiss H1 H2 Hn1 Hn2.
  assert (Hf : forall n, faultless None n) by (intros n k Hk; discriminate).
  rewrite (store_prices_ok now1 None prices1 s (Hf _)). simpl.
  rewrite store_prices_ok by apply Hf. simpl.
  rewrite get_volatility_rank_miss by exact Hmiss. simpl.
  destruct (select_rank_ranked STDDEV float_le now
              ((table s ++ batch_rows now1 prices1)
               ++ batch_rows now2 prices2) pair) as [k Hk].
  { rewrite !window_prices_app, !length_app.
    pose proof (window_prices_batch now now1 prices1 pair x1 H1 Hn1).
    pose proof (window_prices_batch now now2 prices2 pair x2 H2 Hn2).
    lia. }
  rewrite Hk. eexists. eexists. reflexivity.
Qed.

(** X22. An empty batch reaches the database with its connect alone:
    no [INSERT] begins a transaction, so [commit()] has nothing to send
    and nothing that could fail.  Unless the connect itself raises, the
    call returns, whatever later operation the fault would have hit; it
    writes no row and moves [_last_update] to its timestamp. *)
Theorem empty_batch_writes_nothing (now : Z) (f : fault) (s : State float) :
  fails f 0 = false ->
  store_prices now f [] s
  = (Ok tt,
     mkState (table s) (db_log s ++ [Connect]) (sent s) (Some now)
             (history_cache s) (rank_cache s) (logged s)).
Proof.
  intros Hf. unfold store_prices. rewrite Hf. reflexivity.
Qed.

(** *** The routes *)

Lemma fetch_prices_has_all_pairs (net : Network float) (s s' : State float)
  (prices : dict (json float)) (pair : string) :
  fetch_prices net s = (Ok prices, s') ->
  In pair PAIRS -> dict_get prices pair <> None.
Proof.
  intros H Hpair. unfold fetch_prices in H.
  rewrite quote_groups_of_PAIRS in H.
  destruct (fetch_groups net _ [] s) as [[m|e] s1] eqn:E; [|discriminate].
  inversion H; subst m s1. clear H.
  apply fetch_groups_ok in E. destruct E as (_ & _ & Hkeys).
  simpl in Hpair.
  repeat (destruct Hpair as [<-|Hpair];
          [ first
              [ apply (Hkeys "usd" ["btc"; "eth"; "sol"; "dot"; "ada"]);
                simpl; tauto
              | apply (Hkeys "eur" ["etc"]); simpl; tauto
              | apply (Hkeys "btc" ["eth"; "bnt"]); simpl; tauto ]
          | ]).
  contradiction.
Qed.

(** X23. The current-price route never answers with a price.  It raises
    for every request: the 404 outside the catalog, the error of the
    fetch when the fetch fails, and for a pair of the catalog whose
    fetch went through a [ValidationError], because the [Price] it
    builds is given no timestamp. *)
Theorem current_price_route_never_answers (net : Network float)
  (base_currency quote_currency : string) (s : State float) :
  (exists e,
     fst (routes_get_current_price net base_currency quote_currency s)
     = Raise e) /\
  (In (base_currency ++ "/" ++ quote_currency)%string PAIRS ->
   forall prices s',
     fetch_prices net s = (Ok prices, s') ->
     routes_get_current_price net base_currency quote_currency s
     = (Raise ValidationError, s')).
Proof.
  unfold routes_get_current_price. split.
  - destruct (negb _); [eexists; reflexivity|].
    destruct (fetch_prices net s) as [[prices|e] s1];
      [|eexists; reflexivity].
    destruct (dict_get prices _); eexists; reflexivity.
  - intros Hin prices s' Hfetch.
    apply in_list_In in Hin. rewrite Hin. simpl. rewrite Hfetch.
    apply in_list_In in Hin.
    pose proof (fetch_prices_has_all_pairs net s s' prices _ Hfetch Hin)
      as Hne.
    destruct (dict_get prices _); [reflexivity | now elim Hne].
Qed.

(** X24. On a healthy database and with a clock inside the range of
    [datetime], the history route answers every request for a pair of
    the catalog, memoized or not, with a [PriceHistory] for that
    pair. *)
Theorem history_route_answers (now1 now2 : Z)
  (base_currency quote_currency : string) (s : State float) :
  In (base_currency ++ "/" ++ quote_currency)%string PAIRS ->
  (datetime_min + 24 * usec_per_hour <= now1
   <= datetime_max + 24 * usec_per_hour)%Z ->
  exists prices rank s',
    routes_get_price_history STDDEV float_le now1 now2 None None
      base_currency quote_currency s
    = (Ok (mkPriceHistory (base_currency ++ "/" ++ quote_currency)%string
             prices rank), s').
Proof.
  intros Hin Hclock. unfold routes_get_price_history.
  apply in_list_In in Hin. rewrite Hin. cbn [negb].
  assert (Hw : window_start now1 default_hours
               = Ok (now1 - 24 * usec_per_hour)%Z).
  { unfold window_start, timedelta_hours, datetime_sub, default_hours.
    simpl.
    assert (H1 : (datetime_min <=? now1 - 24 * usec_per_hour)%Z = true)
      by (apply Z.leb_le; lia).
    assert (H2 : (now1 - 24 * usec_per_hour <=? datetime_max)%Z = true)
      by (apply Z.leb_le; lia).
    unfold usec_per_hour in *. simpl in *.
    rewrite H1, H2. reflexivity. }
  assert (Hh : exists l s1,
             get_price_history now1 None
               (base_currency ++ "/" ++ quote_currency) None s
             = (Ok l, s1)).
  { unfold get_price_history.
    destruct (lru_find history_key_eqb _ (history_cache s));
      [eexists; eexists; reflexivity|].
    unfold get_price_history_body. simpl fails. cbv iota.
    rewrite Hw. eexists; eexists; reflexivity. }
  destruct Hh as (l & s1 & ->).
  assert (Hr : exists r s2,
             get_volatility_rank STDDEV float_le now2 None
               (base_currency ++ "/" ++ quote_currency) s1
             = (Ok r, s2)).
  { unfold get_volatility_rank.
    destruct (lru_find String.eqb _ (rank_cache s1));
      eexists; eexists; reflexivity. }
  destruct Hr as (r & s2 & ->).
  exists l, r, s2. reflexivity.
Qed.

(** X25. A repeated request to the history route is answered from the
    two caches: once a request has been answered, the next request for
    the same pair gets the same body, at any time and in any state of
    the database, and nothing is sent to the database for it. *)
Theorem history_route_repeats (now1 now2 now3 now4 : Z)
  (f1 f2 f3 f4 : fault) (base_currency quote_currency : string)
  (s s1 : State float) (body1 : PriceHistory float) :
  routes_get_price_history STDDEV float_le now1 now2 f1 f2
    base_currency quote_currency s = (Ok body1, s1) ->
  exists s2,
    routes_get_price_history STDDEV float_le now3 now4 f3 f4
      base_currency quote_currency s1 = (Ok body1, s2) /\
    db_log s2 = db_log s1 /\ table s2 = table s1.
Proof.
  unfold routes_get_price_history.
  destruct (negb (in_list _ PAIRS)); [discriminate|].
  destruct (get_price_history now1 f1 _ None s) as [[l|e] sa] eqn:Eh;
    [|discriminate].
  destruct (get_volatility_rank STDDEV float_le now2 f2 _ sa)
    as [[r|e] sb] eqn:Er; [|discriminate].
  intros H. inversion H; subst body1 s1. clear H.
  apply get_price_history_memoizes in Eh.
  pose proof (get_volatility_rank_table STDDEV float_le now2 f2
                (base_currency ++ "/" ++ quote_currency) sa) as Hframe.
  rewrite Er in Hframe. cbv zeta in Hframe. simpl in Hframe.
  destruct Hframe as (_ & _ & _ & Hcache).
  apply get_volatility_rank_memoizes in Er.
  rewrite <- Hcache in Eh.
  destruct (get_price_history_hit now3 f3 _ None sb l Eh)
    as (sc & Hcall & Ht & Hd & _).
  rewrite Hcall.
  pose proof (get_price_history_table now3 f3
                (base_currency ++ "/" ++ quote_currency) None sb) as Hf2.
  rewrite Hcall in Hf2. cbv zeta in Hf2. simpl in Hf2.
  destruct Hf2 as (_ & _ & _ & Hrc).
  rewrite <- Hrc in Er.
  destruct (get_volatility_rank_hit STDDEV float_le now4 f4 _ sc r Er)
    as (sd & Hcall2 & Ht2 & Hd2 & _).
  rewrite Hcall2. exists sd. split; [reflexivity|].
  split; congruence.
Qed.

End Composition.

Lemma empty_batch_writes_nothing_witness :
  store_prices t0 (Some 1%nat) [] (new_service [] : State Q)
  = (Ok tt, mkState [] [Connect] [] (Some t0) [] [] []).
Proof.
  apply (empty_batch_writes_nothing t0 (Some 1%nat) (new_service [])).
  reflexivity.
Defined.

Lemma second_sample_ranks_pair_witness :
  exists k s',
    get_volatility_rank sample_variance Qle_bool (t0 + 2 * second) None
      "btc/usd"
      (snd (store_prices (t0 + second) None two_prices
              (snd (store_prices t0 None two_prices (new_service [])))))
    = (Ok (Some k), s').
Proof.
  apply (second_sample_ranks_pair sample_variance Qle_bool t0 (t0 + second)
           (t0 + 2 * second) two_prices two_prices "btc/usd"
           (50000#1)%Q (50000#1)%Q (new_service [])).
  - reflexivity.
  - simpl. tauto.
  - simpl. tauto.
  - vm_compute. discriminate.
  - vm_compute. discriminate.
Defined.

Lemma current_price_route_never_answers_witness :
  fst (routes_get_current_price net_ok "btc" "usd" (new_service []))
  = Raise ValidationError.
Proof.
  destruct (current_price_route_never_answers net_ok "btc" "usd"
              (new_service [])) as [_ H].
  rewrite (H (or_introl eq_refl)
             (match fst (fetch_prices net_ok (new_service [])) with
              | Ok m => m
              | Raise _ => []
              end)
             (snd (fetch_prices net_ok (new_service [])))).
  - reflexivity.
  - reflexivity.
Defined.

Lemma history_route_answers_witness :
  exists prices rank s',
    routes_get_price_history sample_variance Qle_bool t0 t0 None None
      "btc" "usd" (new_service two_batches)
    = (Ok (mkPriceHistory "btc/usd" prices rank), s').
Proof.
  apply (history_route_answers sample_variance Qle_bool t0 t0 "btc" "usd"
           (new_service two_batches)).
  - simpl. tauto.
  - vm_compute. split; discriminate.
Defined.

Lemma history_route_repeats_witness :
  let first := routes_get_price_history sample_variance Qle_bool t0 t0
                 None None "btc" "usd" (new_service two_batches) in
  exists body1 s2,
    fst first = Ok body1 /\
    routes_get_price_history sample_variance Qle_bool
      (t0 + 200 * second) (t0 + 200 * second) (Some 0%nat) (Some 0%nat)
      "btc" "usd" (snd first) = (Ok body1, s2).
Proof.
  intros first.
  destruct first as [r s1] eqn:E.
  assert (Hr : exists body1, r = Ok body1).
  { subst first. vm_compute in E. inversion E. eexists. reflexivity. }
  destruct Hr as [body1 ->].
  destruct (history_route_repeats sample_variance Qle_bool t0 t0
              (t0 + 200 * second) (t0 + 200 * second) None None
              (Some 0%nat) (Some 0%nat) "btc" "usd"
              (new_service two_batches) s1 body1 E) as (s2 & H & _).
  exists body1, s2. split; [reflexivity | exact H].
Defined.
